(** * Verification of the zone-monitoring core (kitealogo)

    A shallow embedding of the three algorithmic pieces of the repository:

    - [DateManager]   (src/core/date_manager.py): trading-calendar arithmetic,
    - [ZoneDetector]  (src/core/zone_detector.py): impulse and origin-zone search,
    - [ExecuteDayMonitor] (src/core/execute_day.py): proximity classifier and
      alert filter.

    Modelling conventions.
    - Python exceptions are values of [exn]; a function that can raise returns
      a [result].
    - Finite floating-point prices are exact rationals ([Q]); rounding is not
      modelled.  Where pandas yields NaN for an aggregate of an empty series
      the aggregate is an [option Q] with [None] for NaN, and every comparison
      against NaN is false, as in IEEE arithmetic.
    - The distances of the proximity classifier are values of [pyfloat]:
      a rational, [float('inf')], or the infinity or NaN that a division by
      zero returns when the price is a [numpy.float64]; with a Python
      [float] price that division raises ZeroDivisionError.
    - [strftime('%Y-%m-%d')] is the C library's (glibc): the year is printed
      without leading zeros, so that a date before year 1000 is formatted
      with fewer than four year digits and does not parse back.
    - Strings are byte strings; date input is ASCII. *)

From Stdlib Require Import ZArith QArith Qabs Qminmax List String Ascii Bool Lia Lqa Sorted.
Import ListNotations.

Local Open Scope Z_scope.

(* ================================================================== *)
(** * Exceptions and the error monad *)

Inductive value_error : Type :=
| NoFormatMatch (data : string)      (* time data ... does not match format *)
| UnconvertedData (rest : string)    (* unconverted data remains: ... *)
| DateOutOfRange.                    (* year 0 / day is out of range for month *)

Inductive exn : Type :=
| ValueError (e : value_error)
| OverflowError
| ZeroDivisionError
| KeyError
| IndexError.

Inductive result (A : Type) : Type :=
| Ok (a : A)
| Raise (e : exn).
Arguments Ok {A} a.
Arguments Raise {A} e.

Definition bind {A B} (m : result A) (k : A -> result B) : result B :=
  match m with
  | Ok a => k a
  | Raise e => Raise e
  end.

Notation "x <- m ;; k" := (bind m (fun x => k))
  (at level 61, m at next level, right associativity).

(** [for x in xs: s = body x s], stopping at the first exception. *)
Fixpoint for_each {A S} (xs : list A) (body : A -> S -> result S) (s : S)
  : result S :=
  match xs with
  | [] => Ok s
  | x :: xs' => s' <- body x s ;; for_each xs' body s'
  end.

(** Python's [range(a, b)] over naturals and over integers. *)
Definition range (a b : nat) : list nat := seq a (b - a).

Fixpoint zrange_from (a : Z) (n : nat) : list Z :=
  match n with
  | O => []
  | S n' => a :: zrange_from (a + 1) n'
  end.

Definition zrange (a b : Z) : list Z := zrange_from a (Z.to_nat (b - a)).

(* ================================================================== *)
(** * Rational comparisons as booleans *)

Definition Qlt_bool (x y : Q) : bool := negb (Qle_bool y x).
Definition Qgt_bool (x y : Q) : bool := Qlt_bool y x.

(* ================================================================== *)
(** * DateManager (src/core/date_manager.py) *)

Module DateManager.

Local Open Scope string_scope.
Local Open Scope Z_scope.

(** A [datetime] produced by [strptime(_, '%Y-%m-%d')]: the time of day is
    midnight and stays so under [timedelta(days=1)], so only the calendar
    date is kept. *)
Record datetime : Type := mkdt { year : Z; month : Z; day : Z }.

Definition is_leap (y : Z) : bool :=
  (y mod 4 =? 0) && (negb (y mod 100 =? 0) || (y mod 400 =? 0)).

Definition days_in_month (y m : Z) : Z :=
  if m =? 2 then (if is_leap y then 29 else 28)
  else if (m =? 4) || (m =? 6) || (m =? 9) || (m =? 11) then 30
  else 31.

Definition days_before_year (y : Z) : Z :=
  let p := y - 1 in p * 365 + p / 4 - p / 100 + p / 400.

Fixpoint days_before_month_aux (y : Z) (n : nat) : Z :=
  match n with
  | O => 0
  | S n' => days_before_month_aux y n' + days_in_month y (Z.of_nat n)
  end.

Definition days_before_month (y m : Z) : Z :=
  days_before_month_aux y (Z.to_nat (m - 1)).

Definition toordinal (d : datetime) : Z :=
  days_before_year (year d) + days_before_month (year d) (month d) + day d.

(** [date.weekday()]: Monday is 0, Sunday is 6. *)
Definition weekday (d : datetime) : Z := (toordinal d + 6) mod 7.

Definition valid_date (d : datetime) : Prop :=
  1 <= year d <= 9999 /\ 1 <= month d <= 12 /\
  1 <= day d <= days_in_month (year d) (month d).

Definition valid_dateb (d : datetime) : bool :=
  (1 <=? year d) && (year d <=? 9999) && (1 <=? month d) && (month d <=? 12)
  && (1 <=? day d) && (day d <=? days_in_month (year d) (month d)).

(** [datetime(y, m, d)]: the constructor checks its fields. *)
Definition make_datetime (y m d : Z) : result datetime :=
  if valid_dateb (mkdt y m d) then Ok (mkdt y m d)
  else Raise (ValueError DateOutOfRange).

(** [d - timedelta(days=1)]: the previous calendar day; below
    [datetime.min] (0001-01-01) the subtraction raises OverflowError. *)
Definition sub_one_day (d : datetime) : result datetime :=
  if 1 <? day d then Ok (mkdt (year d) (month d) (day d - 1))
  else if 1 <? month d then
    Ok (mkdt (year d) (month d - 1) (days_in_month (year d) (month d - 1)))
  else if 1 <? year d then Ok (mkdt (year d - 1) 12 31)
  else Raise OverflowError.

(** [a > b] on datetimes (lexicographic on year, month, day). *)
Definition datetime_gtb (a b : datetime) : bool :=
  (year b <? year a)
  || ((year b =? year a)
      && ((month b <? month a)
          || ((month b =? month a) && (day b <? day a)))).

(** ** Formatting and parsing with ['%Y-%m-%d'] *)

Definition digit_char (n : Z) : ascii := ascii_of_nat (48 + Z.to_nat n).

Definition in_range (lo hi : nat) (c : ascii) : bool :=
  let n := nat_of_ascii c in (lo <=? n)%nat && (n <=? hi)%nat.

(** [\d], [[1-9]], [[0-2]], [[01]], [[12]] on ASCII input. *)
Definition is_digit (c : ascii) : bool := in_range 48 57 c.
Definition is_1_9 (c : ascii) : bool := in_range 49 57 c.
Definition is_0_2 (c : ascii) : bool := in_range 48 50 c.
Definition is_0_1 (c : ascii) : bool := in_range 48 49 c.
Definition is_1_2 (c : ascii) : bool := in_range 49 50 c.

Definition digit_val (c : ascii) : Z := Z.of_nat (nat_of_ascii c - 48).

Definition pad2 (n : Z) : string :=
  String (digit_char (n / 10 mod 10)) (String (digit_char (n mod 10)) "").

Definition pad4 (n : Z) : string :=
  String (digit_char (n / 1000 mod 10))
    (String (digit_char (n / 100 mod 10)) (pad2 n)).

(** [%Y] as [strftime] prints it.  CPython hands the format to the C
    library, and glibc writes the year as a plain decimal number: a year
    below 1000 comes out with fewer than four digits (year 999 prints as
    [999], not [0999]).  [%m] and [%d] are padded to two digits. *)
Definition decimal_year (y : Z) : string :=
  if y <? 10 then String (digit_char (y mod 10)) ""
  else if y <? 100 then pad2 y
  else if y <? 1000 then String (digit_char (y / 100 mod 10)) (pad2 y)
  else pad4 y.

(** [d.strftime('%Y-%m-%d')]. *)
Definition strftime (d : datetime) : string :=
  (decimal_year (year d) ++ "-" ++ pad2 (month d) ++ "-" ++ pad2 (day d))%string.

(** The directive [%Y] is the regular expression [\d\d\d\d]. *)
Definition parse_Y (s : string) : option (Z * string) :=
  match s with
  | String a (String b (String c (String e r))) =>
      if is_digit a && is_digit b && is_digit c && is_digit e
      then Some (1000 * digit_val a + 100 * digit_val b
                 + 10 * digit_val c + digit_val e, r)
      else None
  | _ => None
  end.

Definition expect_dash (s : string) : option string :=
  match s with
  | String c r => if Ascii.eqb c "-"%char then Some r else None
  | _ => None
  end.

(** [%m] is [1[0-2]|0[1-9]|[1-9]]; a dash follows it in the format, so the
    one-character alternative can only succeed where the two-character
    ones do not apply. *)
Definition parse_m (s : string) : option (Z * string) :=
  match s with
  | String a (String b r) =>
      if Ascii.eqb a "1"%char && is_0_2 b then Some (10 + digit_val b, r)
      else if Ascii.eqb a "0"%char && is_1_9 b then Some (digit_val b, r)
      else if is_1_9 a then Some (digit_val a, String b r)
      else None
  | String a r => if is_1_9 a then Some (digit_val a, r) else None
  | _ => None
  end.

(** [%d] is [3[01]|[12]\d|0[1-9]|[1-9]| [1-9]]; nothing follows it in the
    format, so the first alternative that matches is taken. *)
Definition parse_d (s : string) : option (Z * string) :=
  match s with
  | String a (String b r) =>
      if Ascii.eqb a "3"%char && is_0_1 b then Some (30 + digit_val b, r)
      else if is_1_2 a && is_digit b then Some (10 * digit_val a + digit_val b, r)
      else if Ascii.eqb a "0"%char && is_1_9 b then Some (digit_val b, r)
      else if is_1_9 a then Some (digit_val a, String b r)
      else if Ascii.eqb a " "%char && is_1_9 b then Some (digit_val b, r)
      else None
  | String a r => if is_1_9 a then Some (digit_val a, r) else None
  | _ => None
  end.

(** The regular-expression match of the whole format: fields and the
    unmatched remainder. *)
Definition match_format (s : string) : option (Z * Z * Z * string) :=
  match parse_Y s with
  | None => None
  | Some (y, r1) =>
    match expect_dash r1 with
    | None => None
    | Some r2 =>
      match parse_m r2 with
      | None => None
      | Some (m, r3) =>
        match expect_dash r3 with
        | None => None
        | Some r4 =>
          match parse_d r4 with
          | None => None
          | Some (d, r5) => Some (y, m, d, r5)
          end
        end
      end
    end
  end.

(** [datetime.strptime(s, '%Y-%m-%d')]. *)
Definition strptime (s : string) : result datetime :=
  match match_format s with
  | None => Raise (ValueError (NoFormatMatch s))
  | Some (y, m, d, rest) =>
      match rest with
      | EmptyString => make_datetime y m d
      | _ => Raise (ValueError (UnconvertedData rest))
      end
  end.

(** ** The calendar *)

Definition NSE_HOLIDAYS_2026 : list string :=
  [ "2026-01-26"; "2026-03-03"; "2026-03-30"; "2026-04-02"; "2026-04-03";
    "2026-04-14"; "2026-05-01"; "2026-08-15"; "2026-08-19"; "2026-10-02";
    "2026-10-20"; "2026-11-04"; "2026-11-05"; "2026-11-25"; "2026-12-25" ].

Definition is_trading_day (date : datetime) : bool :=
  if 5 <=? weekday date then false
  else
    let date_str := strftime date in
    if existsb (String.eqb date_str) NSE_HOLIDAYS_2026 then false
    else true.

(** The body of [for _ in range(max_lookback)]; when the range is exhausted
    the fallback [date - timedelta(days=1)] is returned. *)
Fixpoint lookback_loop (n : nat) (date current : datetime) : result datetime :=
  match n with
  | O => sub_one_day date
  | S n' =>
      if is_trading_day current then Ok current
      else current' <- sub_one_day current ;; lookback_loop n' date current'
  end.

Definition max_lookback : nat := 10.

Definition get_previous_trading_day (date : datetime) : result datetime :=
  current <- sub_one_day date ;;
  lookback_loop max_lookback date current.

(** [while trading_days_back < 2]: the loop counter only counts, so the
    loop is the iteration of its body [2 - trading_days_back] times. *)
Fixpoint back_loop (remaining : nat) (current : datetime) : result datetime :=
  match remaining with
  | O => Ok current
  | S r => current' <- get_previous_trading_day current ;; back_loop r current'
  end.

Definition calculate_fetch_day (execute_day : string) : result string :=
  execute_dt <- strptime execute_day ;;
  current <- back_loop 2 execute_dt ;;
  Ok (strftime current).

Inductive error_message : Type :=
| FetchDayInFuture (fetch_day : string)
    (* "Fetch Day (<fetch_day>) is in the future. No historical data available." *)
| InvalidDateFormat (e : value_error).
    (* "Invalid date format: <str(e)>" *)

(** [validate_execute_day]; [today] is [datetime.now()] truncated to
    midnight.  Only ValueError is caught. *)
Definition validate_execute_day_body (today : datetime) (execute_day : string)
  : result (bool * option string * option error_message) :=
  execute_dt <- strptime execute_day ;;
  fetch_day <- calculate_fetch_day execute_day ;;
  fetch_dt <- strptime fetch_day ;;
  if datetime_gtb fetch_dt today
  then Ok (false, None, Some (FetchDayInFuture fetch_day))
  else Ok (true, Some fetch_day, None).

Definition validate_execute_day (today : datetime) (execute_day : string)
  : result (bool * option string * option error_message) :=
  match validate_execute_day_body today execute_day with
  | Raise (ValueError e) => Ok (false, None, Some (InvalidDateFormat e))
  | r => r
  end.

(** [d + timedelta(days=1)]: the next calendar day; above
    [datetime.max] (9999-12-31) the addition raises OverflowError. *)
Definition add_one_day (d : datetime) : result datetime :=
  if day d <? days_in_month (year d) (month d)
  then Ok (mkdt (year d) (month d) (day d + 1))
  else if month d <? 12 then Ok (mkdt (year d) (month d + 1) 1)
  else if year d <? 9999 then Ok (mkdt (year d + 1) 1 1)
  else Raise OverflowError.

(** [a <= b] on datetimes. *)
Definition datetime_leb (a b : datetime) : bool := negb (datetime_gtb a b).

(** The loop [while current <= end_dt] of [get_trading_days_between].
    The recursion is on a bound [fuel] on the number of iterations; [None]
    means that the bound was reached before the loop ended. *)
Fixpoint days_loop (fuel : nat) (end_dt current : datetime)
    (trading_days : list string) : option (result (list string)) :=
  if datetime_leb current end_dt then
    match fuel with
    | O => None
    | S fuel' =>
        let trading_days :=
          if is_trading_day current
          then (trading_days ++ [strftime current])%list
          else trading_days in
        match add_one_day current with
        | Ok current' => days_loop fuel' end_dt current' trading_days
        | Raise e => Some (Raise e)
        end
    end
  else Some (Ok trading_days).

(** [get_trading_days_between]; the bound given to the loop is the number
    of calendar days from the start to the end, both included. *)
Definition get_trading_days_between (start_date end_date : string)
  : option (result (list string)) :=
  match strptime start_date with
  | Raise e => Some (Raise e)
  | Ok start_dt =>
      match strptime end_date with
      | Raise e => Some (Raise e)
      | Ok end_dt =>
          days_loop (Z.to_nat (toordinal end_dt - toordinal start_dt + 1))
            end_dt start_dt []
      end
  end.

End DateManager.


(* ================================================================== *)
(** * Zones, as produced by the detector and read back from the store *)

Record zone : Type := mkzone {
  symbol : string;
  fetch_date : string;
  timeframe : string;
  zone_type : string;
  zone_low : Q;
  zone_high : Q;
  impulse_strength : string;
  impulse_start_time : string;
  impulse_end_time : string
}.

(* ================================================================== *)
(** * ZoneDetector (src/core/zone_detector.py) *)

Module ZoneDetector.

Local Open Scope string_scope.
Local Open Scope Q_scope.

(** One row of the OHLC data frame; the frame is the list of its rows and
    positions are list indices ([reset_index(drop=True)] makes the labels
    of [.loc] the positions). *)
Record candle : Type := mkcandle {
  date : string;
  open : Q;
  high : Q;
  low : Q;
  close : Q;
  volume : Q
}.

Definition DataFrame : Type := list candle.

Record detector : Type := mkdetector {
  atr_multiplier : Q;
  zone_candles_min : Z;
  zone_candles_max : Z
}.

(** The defaults of [__init__]. *)
Definition default_detector : detector := mkdetector 1.5 2 6.

Record impulse : Type := mkimpulse {
  direction : string;
  start_idx : nat;
  end_idx : nat;
  strength : string;
  start_time : string;
  end_time : string
}.

Record origin_zone : Type := mkorigin {
  oz_zone_low : Q;
  oz_zone_high : Q;
  candle_count : Z
}.

(** ** Series aggregates; [None] is NaN (empty series) *)

Definition series_min (xs : list Q) : option Q :=
  match xs with
  | [] => None
  | x :: xs' => Some (fold_left Qmin xs' x)
  end.

Definition series_max (xs : list Q) : option Q :=
  match xs with
  | [] => None
  | x :: xs' => Some (fold_left Qmax xs' x)
  end.

Definition series_sum (xs : list Q) : Q := fold_left Qplus xs 0.

Definition series_mean (xs : list Q) : option Q :=
  match xs with
  | [] => None
  | _ => Some (series_sum xs / inject_Z (Z.of_nat (List.length xs)))
  end.

(** ** Indexing *)

(** [df.loc[i, col]] on the re-indexed frame. *)
Definition loc {A} (df : DataFrame) (i : nat) (col : candle -> A) : result A :=
  match nth_error df i with
  | Some c => Ok (col c)
  | None => Raise KeyError
  end.

(** [df.loc[i:j]]: label slices include both ends. *)
Definition loc_slice (df : DataFrame) (i j : nat) : DataFrame :=
  firstn (j + 1 - i) (skipn i df).

(** [df.iloc[k]] for a non-negative position. *)
Definition iloc (df : DataFrame) (k : nat) : result candle :=
  match nth_error df k with
  | Some c => Ok c
  | None => Raise IndexError
  end.

(** [w.iloc[0]] and [w.iloc[-1]]. *)
Definition iloc_first (w : DataFrame) : result candle :=
  match w with
  | [] => Raise IndexError
  | c :: _ => Ok c
  end.

Definition iloc_last (w : DataFrame) : result candle :=
  match rev w with
  | [] => Raise IndexError
  | c :: _ => Ok c
  end.

(** A bound of a Python slice on a sequence of List.length [n]: negative bounds
    count from the end, and every bound is clamped into [0..n]. *)
Definition slice_bound (n : nat) (k : Z) : nat :=
  if (k <? 0)%Z then Z.to_nat (Z.max 0 (k + Z.of_nat n))
  else Nat.min (Z.to_nat k) n.

(** [df.iloc[a:b]]. *)
Definition iloc_slice (df : DataFrame) (a b : Z) : DataFrame :=
  let s := slice_bound (List.length df) a in
  let e := slice_bound (List.length df) b in
  firstn (e - s) (skipn s df).

(** ** calculate_atr *)

(** Row-wise maximum of [high-low], [|high-close.shift()|] and
    [|low-close.shift()|]; on the first row the shifted close is NaN and
    the maximum skips it. *)
Fixpoint true_range (prev_close : option Q) (df : DataFrame) : list Q :=
  match df with
  | [] => []
  | c :: rest =>
      (match prev_close with
       | None => high c - low c
       | Some pc =>
           Qmax (high c - low c)
                (Qmax (Qabs (high c - pc)) (Qabs (low c - pc)))
       end) :: true_range (Some (close c)) rest
  end.

(** The last window of [rolling(period)]: NaN unless [period] rows are
    available. *)
Definition rolling_mean_last (period : nat) (xs : list Q) : option Q :=
  if (List.length xs <? period)%nat then None
  else series_mean (skipn (List.length xs - period) xs).

Definition calculate_atr (df : DataFrame) (period : nat) : result Q :=
  match df with
  | [] => Raise IndexError          (* [.iloc[-1]] of an empty series *)
  | c :: cs =>
      match rolling_mean_last period (true_range None df) with
      | Some atr => Ok atr
      | None =>
          (* the frame is not empty, so both means are numbers *)
          Ok (series_sum (map high df) / inject_Z (Z.of_nat (List.length df))
              - series_sum (map low df) / inject_Z (Z.of_nat (List.length df)))
      end
  end.

Section Detector.

Variable self : detector.

(** ** find_major_impulse *)

(** The loop state: [(best_impulse, max_move)]. *)
Definition scan_state : Type := (option impulse * Q)%type.

(** NaN-aware [pullback > bound]: false when the pullback is NaN. *)
Definition pullback_exceeds (pullback : option Q) (bound : Q) : bool :=
  match pullback with
  | Some p => Qgt_bool p bound
  | None => false
  end.

(** The body of the inner loop for the pair [(i, j)]. *)
Definition scan_pair (df : DataFrame) (atr : Q) (i j : nat) (st : scan_state)
  : result scan_state :=
  price_start <- loc df i close ;;
  price_end <- loc df j close ;;
  let net_move := Qabs (price_end - price_start) in
  if Qlt_bool net_move (atr_multiplier self * atr) then Ok st
  else
    let track (direction : string) : result scan_state :=
      if Qgt_bool net_move (snd st) then
        start_time <- loc df i date ;;
        end_time <- loc df j date ;;
        Ok (Some {| direction := direction;
                    start_idx := i;
                    end_idx := j;
                    strength := if Qgt_bool net_move (2 * atr)
                                then "HIGH" else "MEDIUM";
                    start_time := start_time;
                    end_time := end_time |},
            net_move)
      else Ok st in
    if Qgt_bool price_end price_start then
      let lowest_in_range := series_min (map low (loc_slice df i j)) in
      let pullback := option_map (fun l => price_start - l) lowest_in_range in
      if pullback_exceeds pullback (net_move * 0.3) then Ok st
      else track "BULLISH"
    else
      let highest_in_range := series_max (map high (loc_slice df i j)) in
      let pullback := option_map (fun h => h - price_start) highest_in_range in
      if pullback_exceeds pullback (net_move * 0.3) then Ok st
      else track "BEARISH".

Definition find_major_impulse (df : DataFrame) (atr : Q)
  : result (option impulse) :=
  let n := List.length df in
  st <- for_each (range 0 (n - 3))
          (fun i st =>
             for_each (range (i + 3) (Nat.min (i + 20) n))
               (fun j st => scan_pair df atr i j st) st)
          (None, 0) ;;
  Ok (fst st).

(** ** find_origin_zone *)

(** One iteration of the look-back loop: [Some z] when the window of size
    [lookback] is returned, [None] when the loop continues. *)
Definition try_window (df : DataFrame) (impulse_start_idx lookback : Z)
  : result (option origin_zone) :=
  let zone_start := (impulse_start_idx - lookback)%Z in
  let zone_end := impulse_start_idx in
  let zone_candles := iloc_slice df zone_start zone_end in
  match series_min (map low zone_candles),
        series_max (map high zone_candles),
        series_mean (map (fun c => high c - low c) zone_candles) with
  | Some zone_low, Some zone_high, Some avg_candle_range =>
      let zone_range := zone_high - zone_low in
      if Qlt_bool zone_range (avg_candle_range * 2.5) then
        first <- iloc_first zone_candles ;;
        last <- iloc_last zone_candles ;;
        let net_progress := Qabs (close last - close first) in
        if Qlt_bool net_progress (zone_range * 0.5) then
          Ok (Some {| oz_zone_low := zone_low;
                      oz_zone_high := zone_high;
                      candle_count := lookback |})
        else Ok None
      else Ok None
  | _, _, _ => Ok None   (* NaN range: the comparison is false *)
  end.

Fixpoint origin_loop (df : DataFrame) (impulse_start_idx : Z)
    (lookbacks : list Z) : result (option origin_zone) :=
  match lookbacks with
  | [] => Ok None
  | lookback :: rest =>
      r <- try_window df impulse_start_idx lookback ;;
      match r with
      | Some z => Ok (Some z)
      | None => origin_loop df impulse_start_idx rest
      end
  end.

Definition find_origin_zone (df : DataFrame) (impulse_start_idx : Z)
  : result (option origin_zone) :=
  if (impulse_start_idx <? zone_candles_min self)%Z then Ok None
  else
    origin_loop df impulse_start_idx
      (zrange (zone_candles_min self)
              (Z.min (zone_candles_max self + 1) (impulse_start_idx + 1))).

(** ** validate_zone *)

Definition validate_zone (df : DataFrame) (zone : origin_zone) (imp : impulse)
  : result bool :=
  let impulse_end_idx := end_idx imp in
  if (List.length df <=? impulse_end_idx)%nat then Ok false
  else
    c <- iloc df impulse_end_idx ;;
    let price_after_impulse := close c in
    let zone_mid := (oz_zone_low zone + oz_zone_high zone) / 2 in
    let distance := Qabs (price_after_impulse - zone_mid) in
    let zone_range := oz_zone_high zone - oz_zone_low zone in
    if Qlt_bool distance (zone_range * 2) then Ok false
    else Ok true.

(** ** extract_zones *)

Definition extract_zones (df : DataFrame) (symbol fetch_date timeframe : string)
  : result (list zone) :=
  if (List.length df <? 20)%nat then Ok []
  else
    let zones : list zone := [] in
    atr <- calculate_atr df 14 ;;
    imp <- find_major_impulse df atr ;;
    match imp with
    | None => Ok zones
    | Some imp =>
        oz <- find_origin_zone df (Z.of_nat (start_idx imp)) ;;
        match oz with
        | None => Ok zones
        | Some oz =>
            valid <- validate_zone df oz imp ;;
            if negb valid then Ok zones
            else
              let zone_record :=
                {| symbol := symbol;
                   fetch_date := fetch_date;
                   timeframe := timeframe;
                   zone_type := direction imp;
                   zone_low := oz_zone_low oz;
                   zone_high := oz_zone_high oz;
                   impulse_strength := strength imp;
                   impulse_start_time := start_time imp;
                   impulse_end_time := end_time imp |} in
              Ok (zones ++ [zone_record])%list
        end
    end.

End Detector.

End ZoneDetector.

(* ================================================================== *)
(** * ExecuteDayMonitor (src/core/execute_day.py) *)

Module Config.
Local Open Scope Q_scope.
(** [NEAR_ZONE_PERCENT = 0.5  # 0.5% proximity threshold] (src/config.py). *)
Definition NEAR_ZONE_PERCENT : Q := 0.5.
End Config.

Module ExecuteDayMonitor.

Local Open Scope string_scope.
Local Open Scope Q_scope.

(** A float value: finite, an infinity or NaN. *)
Inductive pyfloat : Type :=
| Finite (q : Q)
| Infinity
| NegInfinity
| NaN.

(** The price [ltp] reaches the classifier with one of two float types.
    The live quote is a Python [float] (the Kite client decodes it from
    JSON).  The close of the historical replay is a cell of a pandas frame
    ([df.iloc[-1]['close']] in [_get_historical_prices]), a
    [numpy.float64].  The zone bounds are always Python floats:
    [get_zones_for_symbol] converts them with [float]. *)
Inductive float_type : Type :=
| python_float
| numpy_float64.

Record number : Type := mknumber { type_of : float_type; value : Q }.

Record monitor : Type := mkmonitor {
  near_threshold : Q;
  far_threshold : Q
}.

(** [__init__]: the thresholds for a given [Config.NEAR_ZONE_PERCENT]. *)
Definition init (near_zone_percent : Q) : monitor :=
  {| near_threshold := near_zone_percent / 100;
     far_threshold := 1.5 |}.

Definition default_monitor : monitor := init Config.NEAR_ZONE_PERCENT.

Record MonitoringRecord : Type := mkrecord {
  mr_symbol : string;
  ltp : Q;
  zones : list zone;
  status : string;
  closest_zone : option zone;
  distance_percent : option pyfloat;
  reaction : string;
  mr_fetch_date : string;
  execute_date : string
}.

(** [a / b] for a dividend of type [ty] and a Python float divisor.  The
    quotient of two Python floats raises ZeroDivisionError on a zero
    divisor.  With a numpy.float64 dividend the division is numpy's: on a
    zero divisor it returns, under a RuntimeWarning, the infinity of the
    sign of the dividend, and NaN for 0/0 (the zero midpoint of a zone is
    +0.0). *)
Definition py_div (ty : float_type) (a b : Q) : result pyfloat :=
  if Qeq_bool b 0 then
    match ty with
    | python_float => Raise ZeroDivisionError
    | numpy_float64 =>
        Ok (if Qlt_bool 0 a then Infinity
            else if Qlt_bool a 0 then NegInfinity
            else NaN)
    end
  else Ok (Finite (a / b)).

(** [x * k] for a finite [k]. *)
Definition fmul (x : pyfloat) (k : Q) : pyfloat :=
  match x with
  | Finite q => Finite (q * k)
  | Infinity =>
      if Qlt_bool 0 k then Infinity
      else if Qlt_bool k 0 then NegInfinity else NaN
  | NegInfinity =>
      if Qlt_bool 0 k then NegInfinity
      else if Qlt_bool k 0 then Infinity else NaN
  | NaN => NaN
  end.

(** [abs(x)]. *)
Definition fabs (x : pyfloat) : pyfloat :=
  match x with
  | Finite q => Finite (Qabs q)
  | Infinity | NegInfinity => Infinity
  | NaN => NaN
  end.

(** [x < y] and [x <= y]: every comparison with NaN is false. *)
Definition flt (x y : pyfloat) : bool :=
  match x with
  | Finite a =>
      match y with
      | Finite b => Qlt_bool a b
      | Infinity => true
      | NegInfinity | NaN => false
      end
  | NegInfinity =>
      match y with
      | Finite _ | Infinity => true
      | NegInfinity | NaN => false
      end
  | Infinity | NaN => false
  end.

Definition fle (x y : pyfloat) : bool :=
  match x with
  | Finite a =>
      match y with
      | Finite b => Qle_bool a b
      | Infinity => true
      | NegInfinity | NaN => false
      end
  | NegInfinity =>
      match y with
      | NaN => false
      | _ => true
      end
  | Infinity =>
      match y with
      | Infinity => true
      | _ => false
      end
  | NaN => false
  end.

Definition proximity : Type := (string * option zone * pyfloat * string)%type.

Section Monitor.

Variable self : monitor.

(** The [for zone in zones] loop with its state
    [(status, closest_zone, min_distance_pct, reaction)]; the [return]
    inside the loop ends the recursion. *)
Fixpoint proximity_loop (ltp : number) (zones : list zone) (st : proximity)
  : result proximity :=
  match zones with
  | [] => Ok st
  | zone :: rest =>
      let '(status, closest_zone, min_distance_pct, reaction) := st in
      let zone_low := zone_low zone in
      let zone_high := zone_high zone in
      let zone_mid := (zone_low + zone_high) / 2 in
      q <- py_div (type_of ltp) (value ltp - zone_mid) zone_mid ;;
      let distance_from_mid := fmul q 100 in
      if Qle_bool zone_low (value ltp) && Qle_bool (value ltp) zone_high then
        let status :=
          if String.eqb (zone_type zone) "BULLISH"
          then "INSIDE_BULLISH" else "INSIDE_BEARISH" in
        let reaction := "Holding" in
        Ok (status, Some zone, distance_from_mid, reaction)
      else
        let abs_distance_pct := fabs distance_from_mid in
        if flt abs_distance_pct (fabs min_distance_pct) then
          let min_distance_pct := distance_from_mid in
          let closest_zone := Some zone in
          if fle abs_distance_pct (Finite (near_threshold self)) then
            proximity_loop ltp rest
              ("NEAR", closest_zone, min_distance_pct, "First Touch")
          else if flt (Finite (far_threshold self)) abs_distance_pct then
            proximity_loop ltp rest
              ("FAR", closest_zone, min_distance_pct, "No Touch Yet")
          else
            proximity_loop ltp rest
              ("NEAR", closest_zone, min_distance_pct, "No Touch Yet")
        else proximity_loop ltp rest st
  end.

Definition _calculate_proximity (ltp : number) (zones : list zone)
  : result proximity :=
  match zones with
  | [] => Ok ("FAR", None, Finite 100, "No Touch Yet")
  | _ => proximity_loop ltp zones ("FAR", None, Infinity, "No Touch Yet")
  end.

(** [x in xs] on a list of strings. *)
Definition str_in (x : string) (xs : list string) : bool :=
  existsb (String.eqb x) xs.

(** [get_alerts]: the loop appends the qualifying records to [alerts]. *)
Definition get_alerts (monitoring_data : list MonitoringRecord)
  : list MonitoringRecord :=
  fold_left
    (fun alerts data =>
       if str_in (status data) ["INSIDE_BULLISH"; "INSIDE_BEARISH"; "NEAR"]
       then
         if str_in (reaction data) ["First Touch"; "Holding"]
         then (alerts ++ [data])%list
         else alerts
       else alerts)
    monitoring_data [].

End Monitor.

End ExecuteDayMonitor.


(* ================================================================== *)
(** * Generic facts: comparisons, the error monad, ranges *)

Lemma Qlt_bool_iff (x y : Q) : Qlt_bool x y = true <-> (x < y)%Q.
Proof.
  unfold Qlt_bool. rewrite negb_true_iff.
  split; intro H.
  - apply Qnot_le_lt. intro Hle. apply Qle_bool_iff in Hle. congruence.
  - destruct (Qle_bool y x) eqn:E; [|reflexivity].
    apply Qle_bool_iff in E. exfalso. exact (Qlt_not_le _ _ H E).
Qed.

Lemma Qlt_bool_false_iff (x y : Q) : Qlt_bool x y = false <-> (y <= x)%Q.
Proof.
  unfold Qlt_bool. rewrite negb_false_iff. apply Qle_bool_iff.
Qed.

Lemma Qgt_bool_iff (x y : Q) : Qgt_bool x y = true <-> (y < x)%Q.
Proof. apply Qlt_bool_iff. Qed.

Lemma Qgt_bool_false_iff (x y : Q) : Qgt_bool x y = false <-> (x <= y)%Q.
Proof. apply Qlt_bool_false_iff. Qed.


(** Closed comparisons of rationals, by evaluation. *)
Ltac qdecide :=
  vm_compute;
  first
    [ reflexivity
    | discriminate
    | let H := fresh in
      intro H;
      first
        [ discriminate H
        | apply H; reflexivity
        | destruct H as [H1 H2];
          first [ apply H1; reflexivity | apply H2; reflexivity
                | discriminate H1 | discriminate H2 ] ] ].

Lemma bind_Ok {A B} (m : result A) (k : A -> result B) (b : B) :
  bind m k = Ok b -> exists a, m = Ok a /\ k a = Ok b.
Proof.
  destruct m as [a|e]; simpl; intro H; [eauto | discriminate].
Qed.

Lemma in_zrange_from (n : nat) (a z : Z) :
  In z (zrange_from a n) <-> (a <= z < a + Z.of_nat n)%Z.
Proof.
  revert a. induction n as [|n IH]; intro a; cbn [zrange_from In].
  - lia.
  - rewrite IH. lia.
Qed.

Lemma in_zrange (a b z : Z) : In z (zrange a b) <-> (a <= z < b)%Z.
Proof. unfold zrange. rewrite in_zrange_from. lia. Qed.

Lemma zrange_forall (P : Z -> Prop) (a b : Z) :
  Forall P (zrange a b) -> forall z, (a <= z < b)%Z -> P z.
Proof.
  intros H z Hz. rewrite Forall_forall in H. apply H, in_zrange, Hz.
Qed.

(* ================================================================== *)
(** * DateManager: parsing inverts formatting, dates stay valid *)

Module DateFacts.
Import DateManager.
Local Open Scope string_scope.
Local Open Scope Z_scope.

(** Finite case analysis on an integer in a literal range. *)
Ltac by_cases_on z lo hi :=
  let H := fresh in
  intro H; revert z H;
  apply (zrange_forall _ lo hi);
  repeat constructor.

Lemma digit_char_spec (n : Z) :
  0 <= n < 10 ->
  is_digit (digit_char n) = true /\ digit_val (digit_char n) = n.
Proof. by_cases_on n 0 10. Qed.

Lemma decimal_digits (y : Z) :
  0 <= y < 10000 ->
  1000 * (y / 1000 mod 10) + 100 * (y / 100 mod 10)
  + 10 * (y / 10 mod 10) + y mod 10 = y.
Proof. intro H. Z.div_mod_to_equations. lia. Qed.

Lemma parse_Y_pad4 (y : Z) (r : string) :
  0 <= y < 10000 -> parse_Y (pad4 y ++ r) = Some (y, r).
Proof.
  intro H. cbn [pad4 pad2 append parse_Y].
  assert (Hd : forall k, 0 <= k mod 10 < 10) by (intro; apply Z.mod_pos_bound; lia).
  destruct (digit_char_spec _ (Hd (y / 1000))) as [-> ->].
  destruct (digit_char_spec _ (Hd (y / 100))) as [-> ->].
  destruct (digit_char_spec _ (Hd (y / 10))) as [-> ->].
  destruct (digit_char_spec _ (Hd y)) as [-> ->].
  cbn [andb]. now rewrite decimal_digits.
Qed.

Lemma parse_m_pad2 (m : Z) (r : string) :
  1 <= m < 13 -> parse_m (pad2 m ++ r) = Some (m, r).
Proof. by_cases_on m 1 13. Qed.

Lemma parse_d_pad2 (d : Z) :
  1 <= d < 32 -> parse_d (pad2 d) = Some (d, "").
Proof. by_cases_on d 1 32. Qed.

Lemma expect_dash_append (r : string) : expect_dash ("-" ++ r) = Some r.
Proof. reflexivity. Qed.

Lemma days_in_month_bounds (y m : Z) : 28 <= days_in_month y m <= 31.
Proof.
  unfold days_in_month.
  destruct (m =? 2); [destruct (is_leap y); lia|].
  destruct ((m =? 4) || (m =? 6) || (m =? 9) || (m =? 11)); lia.
Qed.

Lemma valid_dateb_iff (d : datetime) : valid_dateb d = true <-> valid_date d.
Proof.
  unfold valid_dateb, valid_date.
  rewrite !andb_true_iff, !Z.leb_le. tauto.
Qed.

Lemma strptime_valid (s : string) (d : datetime) :
  strptime s = Ok d -> valid_date d.
Proof.
  unfold strptime.
  destruct (match_format s) as [[[[y m] dd] rest]|]; [|discriminate].
  destruct rest; [|discriminate].
  unfold make_datetime.
  destruct (valid_dateb (mkdt y m dd)) eqn:E; [|discriminate].
  intro H; injection H as <-. now apply valid_dateb_iff.
Qed.

(** Parsing fails with ValueError only. *)
Lemma strptime_raises (s : string) (x : exn) :
  strptime s = Raise x -> exists e, x = ValueError e.
Proof.
  unfold strptime, make_datetime.
  destruct (match_format s) as [[[[y m] dd] rest]|].
  - destruct rest.
    + destruct (valid_dateb _); [discriminate|].
      intro H; injection H as <-; eauto.
    + intro H; injection H as <-; eauto.
  - intro H; injection H as <-; eauto.
Qed.

(** Round trip: [strptime(d.strftime(fmt), fmt) == d] from year 1000 on,
    where the year is printed with four digits. *)
Lemma strptime_strftime (d : datetime) :
  valid_date d -> 1000 <= year d -> strptime (strftime d) = Ok d.
Proof.
  intros (Hy & Hm & Hd) Hk.
  pose proof (days_in_month_bounds (year d) (month d)) as Hb.
  unfold strptime, match_format, strftime, decimal_year.
  assert (E1 : (year d <? 10) = false) by (apply Z.ltb_ge; lia).
  assert (E2 : (year d <? 100) = false) by (apply Z.ltb_ge; lia).
  assert (E3 : (year d <? 1000) = false) by (apply Z.ltb_ge; lia).
  rewrite E1, E2, E3.
  rewrite parse_Y_pad4, expect_dash_append by lia.
  rewrite parse_m_pad2, expect_dash_append by lia.
  rewrite parse_d_pad2 by lia.
  unfold make_datetime.
  replace (valid_dateb _) with true.
  - now destruct d.
  - symmetry. apply valid_dateb_iff. repeat split; simpl; lia.
Qed.

(** Before year 1000 the printed year is too short for [%Y], which wants
    four digits: the formatted date does not parse. *)
Lemma parse_Y_short (y m : Z) (r : string) :
  y < 1000 -> parse_Y (decimal_year y ++ "-" ++ pad2 m ++ r) = None.
Proof.
  intro H. unfold decimal_year.
  destruct (y <? 10); [|destruct (y <? 100); [|destruct (y <? 1000) eqn:E]].
  - cbn [append pad2 parse_Y]. now destruct (is_digit _).
  - cbn [append pad2 parse_Y]. now destruct (is_digit _), (is_digit _).
  - cbn [append pad2 parse_Y].
    now destruct (is_digit _), (is_digit _), (is_digit _).
  - apply Z.ltb_ge in E. lia.
Qed.

Lemma strptime_strftime_early (d : datetime) :
  year d < 1000 ->
  strptime (strftime d) = Raise (ValueError (NoFormatMatch (strftime d))).
Proof.
  intro H. unfold strptime, match_format.
  replace (parse_Y (strftime d)) with (@None (Z * string)); [reflexivity|].
  symmetry. unfold strftime.
  rewrite <- (parse_Y_short (year d) (month d) ("-" ++ pad2 (day d)) H).
  reflexivity.
Qed.

(** A formatted date that parses is from year 1000 or later, and parses to
    the date it was formatted from. *)
Lemma strptime_strftime_inv (d d' : datetime) :
  valid_date d -> strptime (strftime d) = Ok d' ->
  1000 <= year d /\ d' = d.
Proof.
  intros Hv H. destruct (Z.lt_ge_cases (year d) 1000) as [Hy|Hy].
  - rewrite (strptime_strftime_early d Hy) in H. discriminate.
  - rewrite (strptime_strftime d Hv Hy) in H. now injection H as <-.
Qed.

Lemma sub_one_day_valid (d d' : datetime) :
  valid_date d -> sub_one_day d = Ok d' -> valid_date d'.
Proof.
  intros (Hy & Hm & Hd). unfold sub_one_day.
  destruct (1 <? day d) eqn:E1.
  - apply Z.ltb_lt in E1. intro H; injection H as <-.
    repeat split; simpl; lia.
  - destruct (1 <? month d) eqn:E2.
    + apply Z.ltb_lt in E2. intro H; injection H as <-.
      pose proof (days_in_month_bounds (year d) (month d - 1)).
      repeat split; simpl; lia.
    + destruct (1 <? year d) eqn:E3; [|discriminate].
      apply Z.ltb_lt in E3. intro H; injection H as <-.
      repeat split; simpl; try lia. reflexivity.
Qed.









End DateFacts.

(* ================================================================== *)
(** * ExecuteDayMonitor: the proximity classifier and the alert filter *)

Module MonitorFacts.
Import ExecuteDayMonitor.
Local Open Scope string_scope.
Local Open Scope list_scope.
Local Open Scope Q_scope.

(** The midpoint of a zone and the containment test, as the loop body
    computes them. *)
Definition zone_mid (z : zone) : Q := (zone_low z + zone_high z) / 2.

Definition contains (z : zone) (ltp : number) : Prop :=
  zone_low z <= value ltp /\ value ltp <= zone_high z.

(** The signed percentage distance of [ltp] from the midpoint of [z]. *)
Definition distance_from_mid (z : zone) (ltp : number) : Q :=
  (value ltp - zone_mid z) / zone_mid z * 100.

Lemma contains_test (z : zone) (ltp : number) :
  Qle_bool (zone_low z) (value ltp) && Qle_bool (value ltp) (zone_high z)
  = true
  <-> contains z ltp.
Proof.
  unfold contains. rewrite andb_true_iff, !Qle_bool_iff. tauto.
Qed.

(** Away from a zero divisor the two float types divide alike. *)
Lemma py_div_nonzero (ty : float_type) (a b : Q) :
  ~ b == 0 -> py_div ty a b = Ok (Finite (a / b)).
Proof.
  intro H. unfold py_div.
  destruct (Qeq_bool b 0) eqn:E; [|reflexivity].
  apply Qeq_bool_iff in E. contradiction.
Qed.

(** A zone that does not contain the price and has a non-zero midpoint is
    passed over: the loop goes on with some state. *)
Lemma proximity_loop_skip (self : monitor) (ltp : number) (z : zone)
    (rest : list zone) (st : proximity) :
  ~ contains z ltp -> ~ zone_mid z == 0 ->
  exists st', proximity_loop self ltp (z :: rest) st
              = proximity_loop self ltp rest st'.
Proof.
  intros Hout Hmid. destruct st as [[[s c] m] r].
  cbn [proximity_loop]. fold (zone_mid z).
  rewrite (py_div_nonzero _ _ _ Hmid). cbn [bind fmul fabs].
  destruct (Qle_bool (zone_low z) (value ltp)
            && Qle_bool (value ltp) (zone_high z)) eqn:E.
  - apply contains_test in E. contradiction.
  - destruct (flt _ (fabs m)); [|eauto].
    destruct (fle _ (Finite (near_threshold self))); [eauto|].
    destruct (flt (Finite (far_threshold self)) _); eauto.
Qed.

Lemma proximity_loop_inside (self : monitor) (ltp : number) (z : zone)
    (rest : list zone) (st : proximity) :
  contains z ltp -> ~ zone_mid z == 0 ->
  proximity_loop self ltp (z :: rest) st =
    Ok (if String.eqb (zone_type z) "BULLISH"
        then "INSIDE_BULLISH" else "INSIDE_BEARISH",
        Some z, Finite (distance_from_mid z ltp), "Holding").
Proof.
  intros Hin Hmid. destruct st as [[[s c] m] r].
  cbn [proximity_loop]. fold (zone_mid z).
  rewrite (py_div_nonzero _ _ _ Hmid). cbn [bind fmul].
  apply contains_test in Hin. rewrite Hin. reflexivity.
Qed.

(** C4 (as amended).  If the zones before the first containing zone, and
    that zone itself, have a non-zero midpoint, the classifier returns on
    that zone: INSIDE_BULLISH when its type is BULLISH and INSIDE_BEARISH
    otherwise, reaction Holding, the zone itself and the signed percentage
    distance from its midpoint, whatever zones follow it.  This holds for a
    price of either float type. *)
Theorem inside_zone_short_circuit (self : monitor) (ltp : number)
    (before : list zone) (z : zone) (after : list zone) :
  Forall (fun z' => ~ contains z' ltp /\ ~ zone_mid z' == 0) before ->
  contains z ltp ->
  ~ zone_mid z == 0 ->
  _calculate_proximity self ltp (before ++ z :: after) =
    Ok (if String.eqb (zone_type z) "BULLISH"
        then "INSIDE_BULLISH" else "INSIDE_BEARISH",
        Some z, Finite (distance_from_mid z ltp), "Holding").
Proof.
  intros Hbefore Hin Hmid.
  assert (Hloop : forall st,
    proximity_loop self ltp (before ++ z :: after) st =
      Ok (if String.eqb (zone_type z) "BULLISH"
          then "INSIDE_BULLISH" else "INSIDE_BEARISH",
          Some z, Finite (distance_from_mid z ltp), "Holding")).
  { induction Hbefore as [|z' before' [Hout Hm] _ IH]; intro st.
    - apply proximity_loop_inside; assumption.
    - rewrite <- app_comm_cons.
      destruct (proximity_loop_skip self ltp z' (before' ++ z :: after) st
                  Hout Hm) as [st' ->].
      apply IH. }
  unfold _calculate_proximity.
  destruct (before ++ z :: after) eqn:E.
  - destruct before; discriminate.
  - apply Hloop.
Qed.

Definition zone_of (lo hi : Q) (ty : string) : zone :=
  mkzone "SYM" "2026-01-28" "15minute" ty lo hi "HIGH" "09:15" "10:30".

Lemma inside_zone_short_circuit_witness :
  _calculate_proximity default_monitor (mknumber python_float 710)
    ([zone_of 600 620 "BEARISH"] ++ zone_of 700 720 "BULLISH"
       :: [zone_of 709 711 "BEARISH"]) =
    Ok ("INSIDE_BULLISH", Some (zone_of 700 720 "BULLISH"),
        Finite (distance_from_mid (zone_of 700 720 "BULLISH")
                  (mknumber python_float 710)),
        "Holding").
Proof.
  apply (inside_zone_short_circuit default_monitor (mknumber python_float 710)
           [zone_of 600 620 "BEARISH"] (zone_of 700 720 "BULLISH")
           [zone_of 709 711 "BEARISH"]).
  - constructor; [split; qdecide | constructor].
  - split; qdecide.
  - qdecide.
Defined.

(** C4 as stated fails: with a Python float price (the live quote), a zone
    with midpoint zero ahead of the containing zone makes the distance
    computation divide by zero, and the classifier raises instead of
    returning. *)
Lemma inside_zone_zero_midpoint :
  let ltp := mknumber python_float 710 in
  let zones := [zone_of 0 0 "BULLISH"; zone_of 700 720 "BULLISH"] in
  (exists z, In z zones /\ contains z ltp)
  /\ _calculate_proximity default_monitor ltp zones = Raise ZeroDivisionError
  /\ forall r, _calculate_proximity default_monitor ltp zones <> Ok r.
Proof.
  split; [|split].
  - exists (zone_of 700 720 "BULLISH"). split; [simpl; auto|].
    split; qdecide.
  - reflexivity.
  - intros r H. vm_compute in H. discriminate.
Qed.

(** ** The scan without containment *)

(** The status and reaction set when a zone at distance [d] becomes the
    closest one. *)
Definition classify (self : monitor) (d : Q) : string * string :=
  if Qle_bool (Qabs d) (near_threshold self) then ("NEAR", "First Touch")
  else if Qgt_bool (Qabs d) (far_threshold self) then ("FAR", "No Touch Yet")
  else ("NEAR", "No Touch Yet").

(** The loop body on a zone that does not contain the price and has a
    non-zero midpoint. *)
Definition track (self : monitor) (ltp : number) (st : proximity) (z : zone)
  : proximity :=
  let d := distance_from_mid z ltp in
  if flt (Finite (Qabs d)) (fabs (snd (fst st)))
  then (fst (classify self d), Some z, Finite d, snd (classify self d))
  else st.

Definition outside (ltp : number) (z : zone) : Prop :=
  ~ contains z ltp /\ ~ zone_mid z == 0.

Lemma proximity_loop_track (self : monitor) (ltp : number) (z : zone)
    (rest : list zone) (st : proximity) :
  outside ltp z ->
  proximity_loop self ltp (z :: rest) st
  = proximity_loop self ltp rest (track self ltp st z).
Proof.
  intros [Hout Hmid]. destruct st as [[[s c] m] r].
  cbn [proximity_loop]. fold (zone_mid z).
  rewrite (py_div_nonzero _ _ _ Hmid). cbn [bind fmul fabs].
  destruct (Qle_bool (zone_low z) (value ltp)
            && Qle_bool (value ltp) (zone_high z)) eqn:E;
    [apply contains_test in E; contradiction|].
  unfold track, classify. cbn [fst snd]. fold (zone_mid z).
  fold (distance_from_mid z ltp).
  destruct (flt _ (fabs m)); [|reflexivity].
  cbn [fle flt]. unfold Qgt_bool.
  destruct (Qle_bool _ (near_threshold self)); [reflexivity|].
  destruct (Qlt_bool (far_threshold self) _); reflexivity.
Qed.

Lemma proximity_loop_outside (self : monitor) (ltp : number)
    (zs : list zone) (st : proximity) :
  Forall (outside ltp) zs ->
  proximity_loop self ltp zs st = Ok (fold_left (track self ltp) zs st).
Proof.
  intro H. revert st.
  induction H as [|z zs Ho _ IH]; intro st; [reflexivity|].
  cbn [fold_left]. rewrite <- IH. now apply proximity_loop_track.
Qed.

(** After the scan the state holds a zone of least absolute distance and
    the classification of that distance. *)
Definition closest_inv (self : monitor) (ltp : number) (zs : list zone)
    (st : proximity) : Prop :=
  (zs = [] /\ st = ("FAR", None, Infinity, "No Touch Yet"))
  \/ exists zc,
       In zc zs
       /\ st = (fst (classify self (distance_from_mid zc ltp)), Some zc,
                Finite (distance_from_mid zc ltp),
                snd (classify self (distance_from_mid zc ltp)))
       /\ forall z, In z zs ->
            Qabs (distance_from_mid zc ltp) <= Qabs (distance_from_mid z ltp).

Lemma closest_inv_fold (self : monitor) (ltp : number) (zs : list zone) :
  closest_inv self ltp zs
    (fold_left (track self ltp) zs ("FAR", None, Infinity, "No Touch Yet")).
Proof.
  induction zs as [|z zs IH] using rev_ind; [now left|].
  rewrite fold_left_app. cbn [fold_left]. right.
  destruct IH as [[-> ->]|(zc & Hin & -> & Hmin)].
  - exists z. split; [now left|]. split; [reflexivity|].
    intros z' [<-|[]]. apply Qle_refl.
  - unfold track. cbn [fst snd fabs flt].
    destruct (Qlt_bool _ _) eqn:El.
    + apply Qlt_bool_iff in El.
      exists z. split; [apply in_or_app; right; now left|].
      split; [reflexivity|].
      intros z' Hz'. apply in_app_or in Hz' as [Hz'|[<-|[]]].
      * eapply Qle_trans; [apply Qlt_le_weak, El | now apply Hmin].
      * apply Qle_refl.
    + apply Qlt_bool_false_iff in El.
      exists zc. split; [apply in_or_app; now left|].
      split; [reflexivity|].
      intros z' Hz'. apply in_app_or in Hz' as [Hz'|[<-|[]]];
        [now apply Hmin | exact El].
Qed.

(** For any thresholds: when no zone contains the price and the least
    absolute distance is within the near threshold of the monitor, the
    answer is NEAR with reaction First Touch. *)
Lemma closest_within_near (self : monitor) (ltp : number) (zs : list zone)
    (zmin : zone) :
  Forall (outside ltp) zs ->
  In zmin zs ->
  Qabs (distance_from_mid zmin ltp) <= near_threshold self ->
  exists zc d,
    _calculate_proximity self ltp zs = Ok ("NEAR", Some zc, d, "First Touch").
Proof.
  intros Hout Hin Hnear.
  assert (Hloop : _calculate_proximity self ltp zs
                  = proximity_loop self ltp zs
                      ("FAR", None, Infinity, "No Touch Yet")).
  { unfold _calculate_proximity. destruct zs; [destruct Hin | reflexivity]. }
  rewrite Hloop, (proximity_loop_outside self ltp zs _ Hout).
  destruct (closest_inv_fold self ltp zs) as [[-> _]|(zc & _ & -> & Hmin)];
    [destruct Hin|].
  assert (Hc : Qle_bool (Qabs (distance_from_mid zc ltp)) (near_threshold self)
               = true).
  { apply Qle_bool_iff. eapply Qle_trans; [apply (Hmin zmin Hin) | exact Hnear]. }
  unfold classify. rewrite Hc. cbn [fst snd]. eauto.
Qed.

(** C1 (the code at the spec's example).  The classifier answers NEAR with
    First Touch when the least distance is within its near threshold, but
    with the default configuration that threshold is 0.5 / 100 = 0.005,
    compared against a distance that is already a percentage: for midpoint
    710 and price 706.5, of either float type, the distance is within 0.5
    percent and the answer is NEAR with reaction No Touch Yet, not First
    Touch. *)
Theorem near_threshold_example (ty : float_type) :
  let ltp := mknumber ty 706.5 in
  let z := zone_of 708 712 "BULLISH" in
  zone_mid z == 710
  /\ ~ contains z ltp
  /\ Qabs (distance_from_mid z ltp) <= 0.5
  /\ near_threshold default_monitor == 0.005
  /\ _calculate_proximity default_monitor ltp [z] =
       Ok ("NEAR", Some z, Finite (distance_from_mid z ltp), "No Touch Yet")
  /\ _calculate_proximity (mkmonitor 0.5 1.5) ltp [z] =
       Ok ("NEAR", Some z, Finite (distance_from_mid z ltp), "First Touch").
Proof.
  destruct ty; repeat split; qdecide.
Qed.

(** The alert predicate in the words of the specification. *)
Definition is_alert (r : MonitoringRecord) : Prop :=
  (status r = "INSIDE_BULLISH" \/ status r = "INSIDE_BEARISH"
   \/ status r = "NEAR")
  /\ (reaction r = "First Touch" \/ reaction r = "Holding").

Definition is_alertb (r : MonitoringRecord) : bool :=
  str_in (status r) ["INSIDE_BULLISH"; "INSIDE_BEARISH"; "NEAR"]
  && str_in (reaction r) ["First Touch"; "Holding"].

Lemma is_alertb_iff (r : MonitoringRecord) : is_alertb r = true <-> is_alert r.
Proof.
  unfold is_alertb, is_alert, str_in. simpl.
  rewrite andb_true_iff, !orb_true_iff, !String.eqb_eq. intuition discriminate.
Qed.

Lemma get_alerts_filter (data : list MonitoringRecord) :
  get_alerts data = filter is_alertb data.
Proof.
  unfold get_alerts.
  assert (H : forall acc,
    fold_left
      (fun alerts d =>
         if str_in (status d) ["INSIDE_BULLISH"; "INSIDE_BEARISH"; "NEAR"]
         then if str_in (reaction d) ["First Touch"; "Holding"]
              then (alerts ++ [d])%list else alerts
         else alerts) data acc = (acc ++ filter is_alertb data)%list).
  { induction data as [|d data IH]; intro acc; cbn [fold_left filter].
    - now rewrite app_nil_r.
    - rewrite IH.
      change (is_alertb d) with
        (str_in (status d) ["INSIDE_BULLISH"; "INSIDE_BEARISH"; "NEAR"]
         && str_in (reaction d) ["First Touch"; "Holding"]).
      destruct (str_in (status d) _); cbn [andb]; [|reflexivity].
      destruct (str_in (reaction d) _); [|reflexivity].
      now rewrite <- app_assoc. }
  apply (H []).
Qed.

(** C9.  [get_alerts] keeps exactly the records whose status is
    INSIDE_BULLISH, INSIDE_BEARISH or NEAR and whose reaction is First Touch
    or Holding, in their input order; a record with status FAR or with
    reaction No Touch Yet is never kept. *)
Theorem get_alerts_spec (data : list MonitoringRecord) :
  get_alerts data = filter is_alertb data
  /\ (forall r, In r (get_alerts data) <-> In r data /\ is_alert r)
  /\ (forall r, status r = "FAR" -> ~ In r (get_alerts data))
  /\ (forall r, reaction r = "No Touch Yet" -> ~ In r (get_alerts data)).
Proof.
  pose proof (get_alerts_filter data) as E.
  assert (M : forall r, In r (get_alerts data) <-> In r data /\ is_alert r).
  { intro r. rewrite E, filter_In, is_alertb_iff. tauto. }
  split; [exact E|]. split; [exact M|]. split.
  - intros r Hs Hin. apply M in Hin as [_ [[H|[H|H]] _]]; congruence.
  - intros r Hr Hin. apply M in Hin as [_ [_ [H|H]]]; congruence.
Qed.

Definition record_of (st re : string) : MonitoringRecord :=
  mkrecord "SYM" 710 [] st None None re "2026-01-28" "2026-01-30".

Lemma get_alerts_spec_witness :
  ~ In (record_of "FAR" "First Touch")
      (get_alerts [record_of "NEAR" "Holding"; record_of "FAR" "First Touch";
                   record_of "NEAR" "No Touch Yet"])
  /\ ~ In (record_of "NEAR" "No Touch Yet")
      (get_alerts [record_of "NEAR" "Holding"; record_of "FAR" "First Touch";
                   record_of "NEAR" "No Touch Yet"]).
Proof.
  split.
  - apply (proj1 (proj2 (proj2 (get_alerts_spec _)))). reflexivity.
  - apply (proj2 (proj2 (proj2 (get_alerts_spec _)))). reflexivity.
Defined.

End MonitorFacts.

(* ================================================================== *)
(** * ZoneDetector: the impulse scan *)

Module ImpulseFacts.
Import ZoneDetector.
Local Open Scope string_scope.
Local Open Scope list_scope.
Local Open Scope Q_scope.

(** A loop whose body never raises is a fold. *)
Lemma for_each_pure {A S} (xs : list A) (body : A -> S -> result S)
    (f : S -> A -> S) (s : S) :
  (forall x s', In x xs -> body x s' = Ok (f s' x)) ->
  for_each xs body s = Ok (fold_left f xs s).
Proof.
  revert s. induction xs as [|x xs IH]; intros s H; cbn [for_each fold_left].
  - reflexivity.
  - rewrite (H x s (or_introl eq_refl)). cbn [bind].
    apply IH. intros y s' Hy. apply H. now right.
Qed.

Lemma fold_left_flat_map {A B S} (f : S -> B -> S) (g : A -> list B)
    (xs : list A) (s : S) :
  fold_left f (flat_map g xs) s
  = fold_left (fun s' x => fold_left f (g x) s') xs s.
Proof.
  revert s. induction xs as [|x xs IH]; intro s; cbn [flat_map fold_left].
  - reflexivity.
  - now rewrite fold_left_app, IH.
Qed.

Lemma fold_left_map {A B S} (f : S -> B -> S) (g : A -> B)
    (xs : list A) (s : S) :
  fold_left f (map g xs) s = fold_left (fun s' x => f s' (g x)) xs s.
Proof.
  revert s. induction xs as [|x xs IH]; intro s; cbn [map fold_left]; auto.
Qed.

Lemma in_range_iff (a b k : nat) : In k (range a b) <-> (a <= k < b)%nat.
Proof. unfold range. rewrite in_seq. lia. Qed.

(** ** The order of the scan *)

(** The pairs [(i, j)] in the order in which the two loops visit them. *)
Definition scan_order (n : nat) : list (nat * nat) :=
  flat_map (fun i => map (pair i) (range (i + 3) (Nat.min (i + 20) n)))
           (range 0 (n - 3)).

(** The pairs of the specification: [3 <= j - i < 20], [j] an index. *)
Definition pair_ok (n i j : nat) : Prop :=
  (i + 3 <= j /\ j < i + 20 /\ j < n)%nat.

Lemma in_scan_order (n i j : nat) :
  In (i, j) (scan_order n) <-> pair_ok n i j.
Proof.
  unfold scan_order, pair_ok. rewrite in_flat_map. split.
  - intros (i' & Hi & Hj). apply in_map_iff in Hj as (j' & E & Hj).
    injection E as <- <-. apply in_range_iff in Hi, Hj. lia.
  - intros H. exists i. split; [apply in_range_iff; lia|].
    apply in_map_iff. exists j. split; [reflexivity|]. apply in_range_iff. lia.
Qed.

(** Scan order: ascending [i], then ascending [j]. *)
Definition scan_lt (p q : nat * nat) : Prop :=
  (fst p < fst q \/ (fst p = fst q /\ snd p < snd q))%nat.

Definition scan_le (p q : nat * nat) : Prop := p = q \/ scan_lt p q.

Lemma sorted_app {A} (R : A -> A -> Prop) (l1 l2 : list A) :
  StronglySorted R l1 -> StronglySorted R l2 ->
  (forall x y, In x l1 -> In y l2 -> R x y) ->
  StronglySorted R (l1 ++ l2).
Proof.
  intros H1 H2 H. induction H1 as [|a l1 Hs IH Ha]; cbn [app]; [exact H2|].
  constructor.
  - apply IH. intros x y Hx Hy. apply H; [now right | exact Hy].
  - apply Forall_app. split; [exact Ha|].
    apply Forall_forall. intros y Hy. apply H; [now left | exact Hy].
Qed.

Lemma sorted_split {A} (R : A -> A -> Prop) (l1 l2 : list A) (x y : A) :
  StronglySorted R (l1 ++ y :: l2) -> In x l1 -> R x y.
Proof.
  induction l1 as [|a l1 IH]; cbn [app]; intros Hs Hx; [destruct Hx|].
  inversion Hs as [|? ? Hs' Ha]; subst.
  destruct Hx as [->|Hx].
  - rewrite Forall_forall in Ha. apply Ha, in_elt.
  - now apply IH.
Qed.

Lemma sorted_split_after {A} (R : A -> A -> Prop) (l1 l2 : list A) (x y : A) :
  StronglySorted R (l1 ++ y :: l2) -> In x l2 -> R y x.
Proof.
  induction l1 as [|a l1 IH]; cbn [app]; intros Hs Hx.
  - inversion Hs as [|? ? _ Ha]; subst.
    rewrite Forall_forall in Ha. now apply Ha.
  - inversion Hs; subst. now apply IH.
Qed.

Lemma sorted_row (i a n : nat) :
  StronglySorted scan_lt (map (pair i) (seq a n)).
Proof.
  revert a. induction n as [|n IH]; intro a; cbn [seq map]; constructor.
  - apply IH.
  - apply Forall_forall. intros q Hq.
    apply in_map_iff in Hq as (j & <- & Hj). apply in_seq in Hj.
    right. cbn. lia.
Qed.

Lemma sorted_rows (g : nat -> list nat) (a n : nat) :
  (forall i, StronglySorted scan_lt (map (pair i) (g i))) ->
  StronglySorted scan_lt (flat_map (fun i => map (pair i) (g i)) (seq a n)).
Proof.
  intro Hg. revert a. induction n as [|n IH]; intro a; cbn [seq flat_map].
  - constructor.
  - apply sorted_app; [apply Hg | apply IH |].
    intros p q Hp Hq.
    apply in_map_iff in Hp as (j & <- & _).
    apply in_flat_map in Hq as (i' & Hi' & Hq).
    apply in_map_iff in Hq as (j' & <- & _).
    apply in_seq in Hi'. left. cbn. lia.
Qed.

Lemma scan_order_sorted (n : nat) : StronglySorted scan_lt (scan_order n).
Proof.
  unfold scan_order, range.
  apply (sorted_rows (fun i => seq (i + 3) (Nat.min (i + 20) n - (i + 3)))).
  intro i. apply sorted_row.
Qed.

Section Scan.

Variable self : detector.
Variable df : DataFrame.
Variable atr : Q.

(** ** The quantities of the specification *)

Definition close_at (i : nat) : Q :=
  match nth_error df i with Some c => close c | None => 0 end.

Definition date_at (i : nat) : string :=
  match nth_error df i with Some c => date c | None => "" end.

(** Net displacement [|close[j] - close[i]|]. *)
Definition net_move (i j : nat) : Q := Qabs (close_at j - close_at i).

(** [close[i] - min low over [i..j]] for a bullish pair,
    [max high over [i..j] - close[i]] for a bearish one. *)
Definition pullback (i j : nat) : option Q :=
  if Qgt_bool (close_at j) (close_at i)
  then option_map (fun l => close_at i - l)
         (series_min (map low (loc_slice df i j)))
  else option_map (fun h => h - close_at i)
         (series_max (map high (loc_slice df i j))).

(** A pair survives when neither test discards it. *)
Definition survives (i j : nat) : Prop :=
  ~ net_move i j < atr_multiplier self * atr
  /\ forall p, pullback i j = Some p -> ~ net_move i j * 0.3 < p.

Definition survivesb (i j : nat) : bool :=
  negb (Qlt_bool (net_move i j) (atr_multiplier self * atr))
  && negb (pullback_exceeds (pullback i j) (net_move i j * 0.3)).

(** The impulse recorded for the pair [(i, j)]. *)
Definition impulse_of (i j : nat) : impulse :=
  {| direction := if Qgt_bool (close_at j) (close_at i)
                  then "BULLISH" else "BEARISH";
     start_idx := i;
     end_idx := j;
     strength := if Qgt_bool (net_move i j) (2 * atr)
                 then "HIGH" else "MEDIUM";
     start_time := date_at i;
     end_time := date_at j |}.

Definition step (st : scan_state) (p : nat * nat) : scan_state :=
  if survivesb (fst p) (snd p) && Qgt_bool (net_move (fst p) (snd p)) (snd st)
  then (Some (impulse_of (fst p) (snd p)), net_move (fst p) (snd p))
  else st.

Lemma survivesb_iff (i j : nat) : survivesb i j = true <-> survives i j.
Proof.
  unfold survivesb, survives, pullback_exceeds.
  rewrite andb_true_iff, !negb_true_iff.
  rewrite <- not_true_iff_false, Qlt_bool_iff.
  destruct (pullback i j) as [p|].
  - rewrite <- not_true_iff_false, Qgt_bool_iff. split.
    + intros [H1 H2]. split; [exact H1|]. intros q E. now injection E as <-.
    + intros [H1 H2]. split; [exact H1|]. now apply H2.
  - split; intros [H1 _]; (split; [exact H1|]); [discriminate | reflexivity].
Qed.

(** On indices of the frame the loop body is [step]: it never raises. *)
Lemma scan_pair_step (i j : nat) (st : scan_state) :
  (i < List.length df)%nat -> (j < List.length df)%nat ->
  scan_pair self df atr i j st = Ok (step st (i, j)).
Proof.
  intros Hi Hj.
  destruct (nth_error df i) as [ci|] eqn:Ei;
    [|apply nth_error_None in Ei; lia].
  destruct (nth_error df j) as [cj|] eqn:Ej;
    [|apply nth_error_None in Ej; lia].
  unfold scan_pair, step, survivesb, impulse_of, pullback, net_move,
    close_at, date_at, loc.
  cbn [fst snd]. rewrite Ei, Ej. cbn [bind].
  destruct (Qlt_bool _ (atr_multiplier self * atr)); cbn [negb andb];
    [reflexivity|].
  destruct (Qgt_bool (close cj) (close ci));
    (destruct (pullback_exceeds _ _); cbn [negb andb]; [reflexivity|]);
    destruct (Qgt_bool _ (snd st)); reflexivity.
Qed.

(** The search is a fold of [step] over the scan order. *)
Lemma find_major_impulse_fold :
  find_major_impulse self df atr
  = Ok (fst (fold_left step (scan_order (List.length df)) (None, 0))).
Proof.
  unfold find_major_impulse, scan_order.
  set (n := List.length df).
  rewrite fold_left_flat_map.
  erewrite for_each_pure; [reflexivity|].
  intros i st Hi. cbn beta.
  rewrite fold_left_map.
  apply for_each_pure.
  intros j st' Hj. apply in_range_iff in Hi, Hj.
  apply scan_pair_step; fold n; lia.
Qed.

(** ** The invariant of the fold *)

Definition scan_inv (l : list (nat * nat)) (st : scan_state) : Prop :=
  match fst st with
  | None =>
      snd st = 0
      /\ forall p, In p l -> survives (fst p) (snd p) ->
                   ~ 0 < net_move (fst p) (snd p)
  | Some imp =>
      exists l1 i j l2,
        l = l1 ++ (i, j) :: l2
        /\ imp = impulse_of i j
        /\ snd st = net_move i j
        /\ survives i j
        /\ 0 < net_move i j
        /\ (forall p, In p l1 -> survives (fst p) (snd p) ->
                      net_move (fst p) (snd p) < net_move i j)
        /\ (forall p, In p l2 -> survives (fst p) (snd p) ->
                      net_move (fst p) (snd p) <= net_move i j)
  end.

Lemma scan_inv_bound (l : list (nat * nat)) (st : scan_state) :
  scan_inv l st ->
  0 <= snd st
  /\ forall p, In p l -> survives (fst p) (snd p) ->
       ~ 0 < net_move (fst p) (snd p) \/ net_move (fst p) (snd p) <= snd st.
Proof.
  unfold scan_inv. destruct st as [[imp|] m]; cbn [fst snd].
  - intros (l1 & i & j & l2 & -> & _ & -> & _ & Hpos & H1 & H2).
    split; [apply Qlt_le_weak, Hpos|].
    intros p Hp Hs. right.
    apply in_app_or in Hp as [Hp|[<-|Hp]].
    + apply Qlt_le_weak. now apply H1.
    + apply Qle_refl.
    + now apply H2.
  - intros [-> H]. split; [apply Qle_refl|]. intros p Hp Hs. left. now apply H.
Qed.

Lemma scan_inv_step (l : list (nat * nat)) (st : scan_state) (p : nat * nat) :
  scan_inv l st -> scan_inv (l ++ [p]) (step st p).
Proof.
  intro Hinv. destruct (scan_inv_bound l st Hinv) as [Hm Hle].
  unfold step.
  destruct (survivesb (fst p) (snd p)) eqn:Es; cbn [andb].
  - destruct (Qgt_bool (net_move (fst p) (snd p)) (snd st)) eqn:Eg.
    + (* a new best *)
      apply survivesb_iff in Es. apply Qgt_bool_iff in Eg.
      unfold scan_inv; cbn [fst snd].
      exists l, (fst p), (snd p), []. rewrite <- surjective_pairing.
      assert (Hpos : 0 < net_move (fst p) (snd p))
        by (eapply Qle_lt_trans; eassumption).
      refine (conj eq_refl (conj eq_refl (conj eq_refl
               (conj Es (conj Hpos (conj _ _)))))).
      * intros q Hq Hs. destruct (Hle q Hq Hs) as [H|H].
        -- apply Qnot_lt_le in H. eapply Qle_lt_trans; eassumption.
        -- eapply Qle_lt_trans; eassumption.
      * intros q [].
    + (* not larger than the best so far *)
      apply Qgt_bool_false_iff in Eg.
      revert Hinv Eg. unfold scan_inv. destruct st as [[imp|] m]; cbn [fst snd].
      * intros (l1 & i & j & l2 & -> & Himp & -> & Hs & Hpos & H1 & H2) Eg.
        exists l1, i, j, (l2 ++ [p]). rewrite <- app_assoc.
        refine (conj eq_refl (conj Himp (conj eq_refl
                 (conj Hs (conj Hpos (conj H1 _)))))).
        intros q Hq Hsq. apply in_app_or in Hq as [Hq|[<-|[]]];
          [now apply H2 | exact Eg].
      * intros [-> H] Eg. split; [reflexivity|].
        intros q Hq Hsq. apply in_app_or in Hq as [Hq|[<-|[]]];
          [now apply H | now apply Qle_not_lt].
  - (* the pair is discarded *)
    assert (Hns : ~ survives (fst p) (snd p)).
    { intro H. apply survivesb_iff in H. congruence. }
    revert Hinv. unfold scan_inv. destruct st as [[imp|] m]; cbn [fst snd].
    + intros (l1 & i & j & l2 & -> & Himp & -> & Hs & Hpos & H1 & H2).
      exists l1, i, j, (l2 ++ [p]). rewrite <- app_assoc.
      refine (conj eq_refl (conj Himp (conj eq_refl
               (conj Hs (conj Hpos (conj H1 _)))))).
      intros q Hq Hsq. apply in_app_or in Hq as [Hq|[<-|[]]];
        [now apply H2 | contradiction].
    + intros [-> H]. split; [reflexivity|].
      intros q Hq Hsq. apply in_app_or in Hq as [Hq|[<-|[]]];
        [now apply H | contradiction].
Qed.

Lemma scan_inv_fold (l : list (nat * nat)) :
  scan_inv l (fold_left step l (None, 0)).
Proof.
  induction l as [|p l IH] using rev_ind.
  - split; [reflexivity | intros p []].
  - rewrite fold_left_app. cbn [fold_left]. now apply scan_inv_step.
Qed.

End Scan.

(** ** Sample data *)

Definition bar (t : string) (h l c : Q) : candle := mkcandle t c h l c 1000.

(** A day with a quiet opening, a three-candle rally from 100 to 120 that
    is given back in the next candle, and a quiet afternoon. *)
Definition rally_day : DataFrame :=
  [ bar "09:15" 101 99.5 100.5; bar "09:30" 101 99.5 100.5;
    bar "09:45" 101 99.5 100.5; bar "10:00" 101 99.5 100.5;
    bar "10:15" 101 99.5 100.5; bar "10:30" 101 99.5 100;
    bar "10:45" 105.5 99.5 105; bar "11:00" 112.5 104.5 112;
    bar "11:15" 120.5 111.5 120; bar "11:30" 120.5 100 100.4;
    bar "11:45" 101 99.8 100.4; bar "12:00" 101 99.8 100.4;
    bar "12:15" 101 99.8 100.4; bar "12:30" 101 99.8 100.4;
    bar "12:45" 101 99.8 100.4; bar "13:00" 101 99.8 100.4;
    bar "13:15" 101 99.8 100.4; bar "13:30" 101 99.8 100.4;
    bar "13:45" 101 99.8 100.4; bar "14:00" 101 99.8 100.4 ].

(** Twenty candles at one unchanged price. *)
Definition flat_day : DataFrame := repeat (bar "09:15" 100 100 100) 20.

(** ** Properties of [find_major_impulse] *)

(** The search always returns, and what it returns satisfies the
    invariant over the whole scan order. *)
Lemma find_major_impulse_inv (self : detector) (df : DataFrame) (atr : Q) :
  exists st,
    find_major_impulse self df atr = Ok (fst st)
    /\ scan_inv self df atr (scan_order (List.length df)) st.
Proof.
  exists (fold_left (step self df atr) (scan_order (List.length df)) (None, 0)).
  split; [apply find_major_impulse_fold | apply scan_inv_fold].
Qed.

(** The indices of a returned impulse form a pair of the scan. *)
Lemma impulse_indices (self : detector) (df : DataFrame) (atr : Q)
    (imp : impulse) :
  find_major_impulse self df atr = Ok (Some imp) ->
  pair_ok (List.length df) (start_idx imp) (end_idx imp).
Proof.
  intro Hfind.
  destruct (find_major_impulse_inv self df atr) as ([r m] & Hr & Hinv).
  rewrite Hfind in Hr. injection Hr as <-.
  unfold scan_inv in Hinv. cbn [fst snd] in Hinv.
  destruct Hinv as (l1 & i & j & l2 & El & -> & _).
  cbn [impulse_of start_idx end_idx].
  apply in_scan_order. rewrite El. apply in_elt.
Qed.

(** C5 (as amended).  [find_major_impulse] considers exactly the pairs
    [(i, j)] with [3 <= j - i < 20]; a pair is discarded when its net
    displacement is below [atr_multiplier * ATR] or its pullback exceeds
    0.3 times the net displacement.  Among the surviving pairs whose net
    displacement is positive it returns the one with the largest net
    displacement, the first in scan order on a tie, with strength HIGH when
    the net displacement exceeds [2 * ATR] and MEDIUM otherwise; it returns
    none exactly when no surviving pair has a positive net displacement. *)
Theorem find_major_impulse_spec (self : detector) (df : DataFrame) (atr : Q) :
  let n := List.length df in
  let net := net_move df in
  exists r,
    find_major_impulse self df atr = Ok r /\
    match r with
    | None =>
        forall i j, pair_ok n i j -> survives self df atr i j ->
                    ~ 0 < net i j
    | Some imp =>
        let i := start_idx imp in
        let j := end_idx imp in
        pair_ok n i j
        /\ survives self df atr i j
        /\ 0 < net i j
        /\ (forall i' j', pair_ok n i' j' -> survives self df atr i' j' ->
              net i' j' <= net i j
              /\ (net i' j' == net i j -> scan_le (i, j) (i', j')))
        /\ (2 * atr < net i j -> strength imp = "HIGH")
        /\ (~ 2 * atr < net i j -> strength imp = "MEDIUM")
    end.
Proof.
  intros n net.
  destruct (find_major_impulse_inv self df atr) as ([r m] & Hr & Hinv).
  exists r. split; [exact Hr|].
  unfold scan_inv in Hinv. cbn [fst snd] in Hinv.
  destruct r as [imp|].
  - destruct Hinv as (l1 & i & j & l2 & El & -> & _ & Hs & Hpos & H1 & H2).
    cbn [impulse_of start_idx end_idx strength].
    assert (Hin : In (i, j) (scan_order n))
      by (fold n in El; rewrite El; apply in_elt).
    pose proof (scan_order_sorted n) as Hsorted. fold n in El. rewrite El in Hsorted.
    refine (conj (proj1 (in_scan_order n i j) Hin)
             (conj Hs (conj Hpos (conj _ (conj _ _))))).
    + intros i' j' Hok Hs'.
      apply in_scan_order in Hok. rewrite El in Hok.
      apply in_app_or in Hok as [Hq|[Hq|Hq]].
      * pose proof (H1 _ Hq Hs') as Hlt. cbn [fst snd] in Hlt.
        split; [apply Qlt_le_weak, Hlt|].
        intro E. unfold net in E. rewrite E in Hlt.
        exfalso. exact (Qlt_irrefl _ Hlt).
      * injection Hq as <- <-. split; [apply Qle_refl|]. intros _. now left.
      * split; [exact (H2 _ Hq Hs')|]. intros _. right.
        exact (sorted_split_after _ _ _ _ _ Hsorted Hq).
    + intro H. apply Qgt_bool_iff in H. unfold net in H. now rewrite H.
    + intro H. destruct (Qgt_bool (net_move df i j) (2 * atr)) eqn:E;
        [|reflexivity].
      apply Qgt_bool_iff in E. contradiction.
  - destruct Hinv as [_ H]. intros i j Hok Hs.
    apply in_scan_order in Hok. exact (H (i, j) Hok Hs).
Qed.

Lemma find_major_impulse_spec_witness :
  find_major_impulse default_detector rally_day 4
    = Ok (Some (mkimpulse "BULLISH" 5 8 "HIGH" "10:30" "11:15"))
  /\ net_move rally_day 0 8 <= net_move rally_day 5 8.
Proof.
  assert (E : find_major_impulse default_detector rally_day 4
              = Ok (Some (mkimpulse "BULLISH" 5 8 "HIGH" "10:30" "11:15")))
    by (vm_compute; reflexivity).
  split; [exact E|].
  destruct (find_major_impulse_spec default_detector rally_day 4)
    as (r & Hr & H).
  rewrite E in Hr. injection Hr as <-.
  cbn [start_idx end_idx strength] in H.
  destruct H as (_ & _ & _ & Hmax & _).
  apply (Hmax 0%nat 8%nat).
  - unfold pair_ok. cbn [List.length rally_day]. lia.
  - apply survivesb_iff. vm_compute. reflexivity.
Defined.

(** C5 as stated fails: on a day without any price change the ATR is 0,
    every pair survives both tests with net displacement 0, and the
    search still returns none, because the running maximum starts at 0
    and only a strictly larger displacement is recorded. *)
Lemma flat_day_no_impulse :
  calculate_atr flat_day 14 = Ok (0 # 14)
  /\ pair_ok (List.length flat_day) 0 3
  /\ survives default_detector flat_day (0 # 14) 0 3
  /\ find_major_impulse default_detector flat_day (0 # 14) = Ok None.
Proof.
  split; [vm_compute; reflexivity|].
  split; [unfold pair_ok; simpl; lia|].
  split; [apply survivesb_iff; vm_compute; reflexivity|].
  vm_compute; reflexivity.
Qed.

(** C10.  An impulse returned by [find_major_impulse] has
    [start_idx + 3 <= end_idx <= start_idx + 19] with [end_idx] an index of
    the series, a net displacement of at least [atr_multiplier * ATR],
    direction BULLISH exactly when the end close is above the start close
    and BEARISH otherwise, and strength HIGH or MEDIUM. *)
Theorem impulse_well_formed (self : detector) (df : DataFrame) (atr : Q)
    (imp : impulse) :
  find_major_impulse self df atr = Ok (Some imp) ->
  (0 <= start_idx imp)%nat
  /\ (start_idx imp + 3 <= end_idx imp <= start_idx imp + 19)%nat
  /\ (end_idx imp < List.length df)%nat
  /\ exists ci cj,
       nth_error df (start_idx imp) = Some ci
       /\ nth_error df (end_idx imp) = Some cj
       /\ atr_multiplier self * atr <= Qabs (close cj - close ci)
       /\ (direction imp = "BULLISH" <-> close ci < close cj)
       /\ (direction imp = "BEARISH" <-> ~ close ci < close cj)
       /\ (strength imp = "HIGH" \/ strength imp = "MEDIUM").
Proof.
  intro Hfind.
  destruct (find_major_impulse_inv self df atr) as ([r m] & Hr & Hinv).
  rewrite Hfind in Hr. injection Hr as <-.
  unfold scan_inv in Hinv. cbn [fst snd] in Hinv.
  destruct Hinv as (l1 & i & j & l2 & El & -> & _ & [Hsig _] & _).
  cbn [impulse_of start_idx end_idx strength direction].
  assert (Hok : pair_ok (List.length df) i j)
    by (apply in_scan_order; rewrite El; apply in_elt).
  destruct Hok as (H3 & H20 & Hj).
  split; [lia|]. split; [lia|]. split; [exact Hj|].
  destruct (nth_error df i) as [ci|] eqn:Ei;
    [|apply nth_error_None in Ei; lia].
  destruct (nth_error df j) as [cj|] eqn:Ej;
    [|apply nth_error_None in Ej; lia].
  exists ci, cj. split; [reflexivity|]. split; [reflexivity|].
  unfold net_move, close_at in *. rewrite Ei, Ej in *.
  split; [now apply Qnot_lt_le|].
  destruct (Qgt_bool (close cj) (close ci)) eqn:Eg.
  - apply Qgt_bool_iff in Eg.
    split; [tauto|]. split; [split; [discriminate | contradiction]|].
    destruct (Qgt_bool _ (2 * atr)); auto.
  - apply Qgt_bool_false_iff in Eg. apply Qle_not_lt in Eg.
    split; [split; [discriminate | contradiction]|]. split; [tauto|].
    destruct (Qgt_bool _ (2 * atr)); auto.
Qed.

Lemma impulse_well_formed_witness :
  (5 + 3 <= 8 <= 5 + 19)%nat /\ (8 < List.length rally_day)%nat.
Proof.
  assert (E : find_major_impulse default_detector rally_day 4
              = Ok (Some (mkimpulse "BULLISH" 5 8 "HIGH" "10:30" "11:15")))
    by (vm_compute; reflexivity).
  destruct (impulse_well_formed default_detector rally_day 4 _ E)
    as (_ & H1 & H2 & _).
  exact (conj H1 H2).
Defined.

End ImpulseFacts.

(* ================================================================== *)
(** * ZoneDetector: the origin-zone search *)

Module OriginFacts.
Import ZoneDetector.
Local Open Scope string_scope.
Local Open Scope list_scope.
Local Open Scope Q_scope.

(** The window of [lookback] candles that ends just before the impulse
    start: [df.iloc[impulse_start_idx - lookback : impulse_start_idx]]. *)
Definition window (df : DataFrame) (impulse_start_idx lookback : Z)
  : DataFrame :=
  iloc_slice df (impulse_start_idx - lookback) impulse_start_idx.

(** Compression: [max(high) - min(low)] over the window is below 2.5 times
    the mean candle range of the window. *)
Definition compression (w : DataFrame) : Prop :=
  exists lo hi avg,
    series_min (map low w) = Some lo
    /\ series_max (map high w) = Some hi
    /\ series_mean (map (fun c => high c - low c) w) = Some avg
    /\ hi - lo < 2.5 * avg.

(** Balance: the closes of the last and the first candle of the window
    differ by less than half the range of the window. *)
Definition balance (w : DataFrame) : Prop :=
  exists lo hi first last,
    series_min (map low w) = Some lo
    /\ series_max (map high w) = Some hi
    /\ hd_error w = Some first
    /\ hd_error (rev w) = Some last
    /\ Qabs (close last - close first) < 0.5 * (hi - lo).

Definition qualifies (w : DataFrame) : Prop := compression w /\ balance w.

Lemma window_length (df : DataFrame) (s k : Z) :
  (0 <= k <= s)%Z -> (s <= Z.of_nat (List.length df))%Z ->
  List.length (window df s k) = Z.to_nat k.
Proof.
  intros Hk Hs. unfold window, iloc_slice, slice_bound.
  destruct (s - k <? 0)%Z eqn:E1; [apply Z.ltb_lt in E1; lia|].
  destruct (s <? 0)%Z eqn:E2; [apply Z.ltb_lt in E2; lia|].
  rewrite length_firstn, length_skipn. lia.
Qed.

(** One iteration of the look-back loop never raises; it returns the
    window's extremes when the window qualifies and continues otherwise. *)
Lemma try_window_cases (df : DataFrame) (s k : Z) :
  (exists z,
      try_window df s k = Ok (Some z)
      /\ candle_count z = k
      /\ series_min (map low (window df s k)) = Some (oz_zone_low z)
      /\ series_max (map high (window df s k)) = Some (oz_zone_high z)
      /\ qualifies (window df s k))
  \/ (try_window df s k = Ok None /\ ~ qualifies (window df s k)).
Proof.
  unfold try_window. fold (window df s k).
  generalize (window df s k). intro w.
  destruct (series_min (map low w)) as [lo|] eqn:Elo;
    [|right; split; [reflexivity|];
      intros [(? & ? & ? & H & _) _]; congruence].
  destruct (series_max (map high w)) as [hi|] eqn:Ehi;
    [|right; split; [reflexivity|];
      intros [(? & ? & ? & _ & H & _) _]; congruence].
  destruct (series_mean (map (fun c => high c - low c) w)) as [avg|] eqn:Eavg;
    [|right; split; [reflexivity|];
      intros [(? & ? & ? & _ & _ & H & _) _]; congruence].
  destruct (Qlt_bool (hi - lo) (avg * 2.5)) eqn:Ec.
  - apply Qlt_bool_iff in Ec.
    assert (Hcomp : compression w).
    { exists lo, hi, avg.
      refine (conj Elo (conj Ehi (conj Eavg _))).
      rewrite (Qmult_comm 2.5 avg). exact Ec. }
    destruct w as [|first w'] eqn:Ew; [discriminate|].
    cbn [iloc_first bind]. unfold iloc_last.
    destruct (rev (first :: w')) as [|last r] eqn:Er.
    { apply (f_equal (@List.length _)) in Er.
      rewrite length_rev in Er. discriminate. }
    cbn [bind].
    destruct (Qlt_bool (Qabs (close last - close first)) ((hi - lo) * 0.5))
      eqn:Eb.
    + apply Qlt_bool_iff in Eb. left.
      eexists. split; [reflexivity|]. cbn [candle_count oz_zone_low oz_zone_high].
      refine (conj eq_refl (conj eq_refl (conj eq_refl (conj Hcomp _)))).
      exists lo, hi, first, last. rewrite Er.
      refine (conj Elo (conj Ehi (conj eq_refl (conj eq_refl _)))).
      rewrite (Qmult_comm 0.5 (hi - lo)). exact Eb.
    + apply Qlt_bool_false_iff in Eb. right. split; [reflexivity|].
      intros [_ (lo' & hi' & f' & l' & H1 & H2 & H3 & H4 & H5)].
      rewrite Er in H4. cbn in H3, H4. rewrite Elo in H1. rewrite Ehi in H2.
      injection H1 as <-. injection H2 as <-.
      injection H3 as <-. injection H4 as <-.
      rewrite (Qmult_comm 0.5 (hi - lo)) in H5. exact (Qlt_not_le _ _ H5 Eb).
  - apply Qlt_bool_false_iff in Ec. right. split; [reflexivity|].
    intros [(lo' & hi' & avg' & H1 & H2 & H3 & H4) _].
    rewrite Elo in H1. rewrite Ehi in H2. rewrite Eavg in H3.
    injection H1 as <-. injection H2 as <-. injection H3 as <-.
    rewrite (Qmult_comm 2.5 avg) in H4. exact (Qlt_not_le _ _ H4 Ec).
Qed.

(** The loop over [a, a+1, ..., a+n-1] stops at the first size whose
    window qualifies. *)
Lemma origin_loop_spec (df : DataFrame) (s : Z) (n : nat) (a : Z) :
  (exists z,
      origin_loop df s (zrange_from a n) = Ok (Some z)
      /\ (a <= candle_count z < a + Z.of_nat n)%Z
      /\ qualifies (window df s (candle_count z))
      /\ (forall k', (a <= k' < candle_count z)%Z ->
                     ~ qualifies (window df s k'))
      /\ series_min (map low (window df s (candle_count z)))
         = Some (oz_zone_low z)
      /\ series_max (map high (window df s (candle_count z)))
         = Some (oz_zone_high z))
  \/ (origin_loop df s (zrange_from a n) = Ok None
      /\ forall k, (a <= k < a + Z.of_nat n)%Z -> ~ qualifies (window df s k)).
Proof.
  revert a. induction n as [|n IH]; intro a; cbn [zrange_from origin_loop].
  - right. split; [reflexivity|]. intros k Hk. lia.
  - destruct (try_window_cases df s a)
      as [(z & -> & Hk & Hlo & Hhi & Hq)|[-> Hnq]]; cbn [bind].
    + left. exists z. rewrite Hk.
      refine (conj eq_refl (conj _ (conj Hq (conj _ (conj Hlo Hhi)))));
        [lia | intros k' Hk'; lia].
    + destruct (IH (a + 1)%Z)
        as [(z & -> & Hk & Hq & Hfirst & Hlo & Hhi)|[-> Hnone]].
      * left. exists z.
        refine (conj eq_refl (conj _ (conj Hq (conj _ (conj Hlo Hhi)))));
          [lia|].
        intros k' Hk'.
        destruct (Z.eq_dec k' a) as [->|Hne]; [exact Hnq|].
        apply Hfirst. lia.
      * right. split; [reflexivity|]. intros k Hk.
        destruct (Z.eq_dec k a) as [->|Hne]; [exact Hnq|].
        apply Hnone. lia.
Qed.

(** The search never raises. *)
Lemma find_origin_zone_total (self : detector) (df : DataFrame) (s : Z) :
  exists r, find_origin_zone self df s = Ok r.
Proof.
  unfold find_origin_zone.
  destruct (s <? zone_candles_min self)%Z; [eauto|].
  unfold zrange.
  destruct (origin_loop_spec df s
              (Z.to_nat (Z.min (zone_candles_max self + 1) (s + 1)
                         - zone_candles_min self))
              (zone_candles_min self))
    as [(z & Hz & _)|[Hz _]]; eauto.
Qed.



End OriginFacts.

(* ================================================================== *)
(** * ZoneDetector: validation and the whole extraction *)

Module ExtractFacts.
Import ZoneDetector ImpulseFacts OriginFacts.
Local Open Scope string_scope.
Local Open Scope list_scope.
Local Open Scope Q_scope.

Lemma calculate_atr_total (df : DataFrame) (period : nat) :
  df <> [] -> exists atr, calculate_atr df period = Ok atr.
Proof.
  intro H. unfold calculate_atr. destruct df as [|c cs]; [contradiction|].
  destruct (rolling_mean_last period _); eauto.
Qed.

Lemma find_major_impulse_total (self : detector) (df : DataFrame) (atr : Q) :
  exists r, find_major_impulse self df atr = Ok r.
Proof. eexists. apply find_major_impulse_fold. Qed.

(** The zone record stored for an impulse and its origin zone. *)
Definition zone_record (symbol fetch_date timeframe : string)
    (imp : impulse) (oz : origin_zone) : zone :=
  {| symbol := symbol;
     fetch_date := fetch_date;
     timeframe := timeframe;
     zone_type := direction imp;
     zone_low := oz_zone_low oz;
     zone_high := oz_zone_high oz;
     impulse_strength := strength imp;
     impulse_start_time := start_time imp;
     impulse_end_time := end_time imp |}.

(** The price has left the zone: the close of [c] is at least twice the
    zone's range away from the zone's midpoint. *)
Definition moved_away (oz : origin_zone) (c : candle) : Prop :=
  2 * (oz_zone_high oz - oz_zone_low oz)
  <= Qabs (close c - (oz_zone_low oz + oz_zone_high oz) / 2).

(** [validate_zone] reads the close of the candle at [end_idx]. *)
Lemma validate_zone_spec (df : DataFrame) (oz : origin_zone) (imp : impulse) :
  (end_idx imp < List.length df)%nat ->
  exists c,
    nth_error df (end_idx imp) = Some c
    /\ (moved_away oz c -> validate_zone df oz imp = Ok true)
    /\ (~ moved_away oz c -> validate_zone df oz imp = Ok false).
Proof.
  intro H. unfold validate_zone, iloc, moved_away.
  destruct (List.length df <=? end_idx imp)%nat eqn:E;
    [apply Nat.leb_le in E; lia|].
  destruct (nth_error df (end_idx imp)) as [c|] eqn:Ec;
    [|apply nth_error_None in Ec; lia].
  exists c. split; [reflexivity|]. cbn [bind].
  rewrite (Qmult_comm 2 (oz_zone_high oz - oz_zone_low oz)).
  destruct (Qlt_bool _ _) eqn:El.
  - apply Qlt_bool_iff in El. split; [|reflexivity].
    intro Hm. exfalso. exact (Qlt_not_le _ _ El Hm).
  - apply Qlt_bool_false_iff in El. split; [reflexivity|].
    intro Hm. contradiction.
Qed.

Lemma validate_zone_total (df : DataFrame) (oz : origin_zone) (imp : impulse) :
  exists b, validate_zone df oz imp = Ok b.
Proof.
  unfold validate_zone, iloc.
  destruct (List.length df <=? end_idx imp)%nat eqn:E; [eauto|].
  apply Nat.leb_gt in E.
  destruct (nth_error df (end_idx imp)) as [c|] eqn:Ec;
    [|apply nth_error_None in Ec; lia].
  cbn [bind]. destruct (Qlt_bool _ _); eauto.
Qed.

(** The steps of [extract_zones] on a frame of at least 20 candles. *)
Lemma extract_zones_steps (self : detector) (df : DataFrame)
    (symbol fetch_date timeframe : string) :
  (20 <= List.length df)%nat ->
  exists atr r,
    calculate_atr df 14 = Ok atr
    /\ find_major_impulse self df atr = Ok r
    /\ match r with
       | None => extract_zones self df symbol fetch_date timeframe = Ok []
       | Some imp =>
           exists o,
             find_origin_zone self df (Z.of_nat (start_idx imp)) = Ok o
             /\ match o with
                | None =>
                    extract_zones self df symbol fetch_date timeframe = Ok []
                | Some oz =>
                    exists b,
                      validate_zone df oz imp = Ok b
                      /\ extract_zones self df symbol fetch_date timeframe
                         = Ok (if b
                               then [zone_record symbol fetch_date timeframe
                                       imp oz]
                               else [])
                end
       end.
Proof.
  intro Hlen. unfold extract_zones.
  destruct (List.length df <? 20)%nat eqn:E; [apply Nat.ltb_lt in E; lia|].
  destruct (calculate_atr_total df 14) as [atr Ha].
  { intros ->. cbn in Hlen. lia. }
  destruct (find_major_impulse_total self df atr) as [r Hr].
  exists atr, r. rewrite Ha. cbn [bind]. rewrite Hr. cbn [bind].
  split; [reflexivity|]. split; [reflexivity|].
  destruct r as [imp|]; [|reflexivity].
  destruct (find_origin_zone_total self df (Z.of_nat (start_idx imp)))
    as [o Ho].
  exists o. rewrite Ho. cbn [bind]. split; [reflexivity|].
  destruct o as [oz|]; [|reflexivity].
  destruct (validate_zone_total df oz imp) as [b Hb].
  exists b. rewrite Hb. cbn [bind]. split; [reflexivity|].
  destruct b; reflexivity.
Qed.

(** C8.  [extract_zones] never raises: it returns a list, and that list is
    empty when the series has fewer than 20 candles, when no impulse is
    found, when no origin window qualifies and when the candidate zone
    fails validation. *)
Theorem extract_zones_total (self : detector) (df : DataFrame)
    (symbol fetch_date timeframe : string) :
  exists zs,
    extract_zones self df symbol fetch_date timeframe = Ok zs
    /\ ((List.length df < 20)%nat -> zs = [])
    /\ (forall atr,
          calculate_atr df 14 = Ok atr ->
          find_major_impulse self df atr = Ok None -> zs = [])
    /\ (forall atr imp,
          calculate_atr df 14 = Ok atr ->
          find_major_impulse self df atr = Ok (Some imp) ->
          find_origin_zone self df (Z.of_nat (start_idx imp)) = Ok None ->
          zs = [])
    /\ (forall atr imp oz,
          calculate_atr df 14 = Ok atr ->
          find_major_impulse self df atr = Ok (Some imp) ->
          find_origin_zone self df (Z.of_nat (start_idx imp)) = Ok (Some oz) ->
          validate_zone df oz imp = Ok false ->
          zs = []).
Proof.
  destruct (Nat.lt_ge_cases (List.length df) 20) as [Hshort|Hlen].
  - exists []. split; [|repeat split; reflexivity].
    unfold extract_zones. apply Nat.ltb_lt in Hshort. now rewrite Hshort.
  - destruct (extract_zones_steps self df symbol fetch_date timeframe Hlen)
      as (atr & r & Ha & Hr & H).
    assert (Hatr : forall a, calculate_atr df 14 = Ok a -> a = atr)
      by (intros a Ha'; congruence).
    destruct r as [imp|].
    + destruct H as (o & Ho & H). destruct o as [oz|].
      * destruct H as (b & Hb & H). eexists. split; [exact H|].
        split; [intro; lia|].
        split; [intros a Ha' Hn; apply Hatr in Ha'; subst a; congruence|].
        split.
        -- intros a i Ha' Hi Hn. apply Hatr in Ha'; subst a.
           assert (i = imp) by congruence. subst i. congruence.
        -- intros a i z Ha' Hi Hz Hv. apply Hatr in Ha'; subst a.
           assert (i = imp) by congruence. subst i.
           assert (z = oz) by congruence. subst z.
           assert (b = false) by congruence. subst b. reflexivity.
      * exists []. split; [exact H|]. repeat split; reflexivity.
    + exists []. split; [exact H|]. repeat split; reflexivity.
Qed.

Lemma extract_zones_total_witness :
  exists zs,
    extract_zones default_detector flat_day "SYM" "2026-01-28" "15minute"
      = Ok zs
    /\ zs = [].
Proof.
  destruct (extract_zones_total default_detector flat_day
              "SYM" "2026-01-28" "15minute")
    as (zs & Hz & _ & Hnone & _).
  exists zs. split; [exact Hz|].
  apply (Hnone (0 # 14)); vm_compute; reflexivity.
Defined.

(** C2 (as amended).  Once an impulse and a candidate origin zone are
    found, the zone is returned if and only if the close of the impulse's
    end candle (the candle at [end_idx]) lies at least twice the zone's
    range away from the zone's midpoint; otherwise the result is empty. *)
Theorem zone_returned_iff_moved_away (self : detector) (df : DataFrame)
    (symbol fetch_date timeframe : string)
    (atr : Q) (imp : impulse) (oz : origin_zone) :
  (20 <= List.length df)%nat ->
  calculate_atr df 14 = Ok atr ->
  find_major_impulse self df atr = Ok (Some imp) ->
  find_origin_zone self df (Z.of_nat (start_idx imp)) = Ok (Some oz) ->
  exists c,
    nth_error df (end_idx imp) = Some c
    /\ (moved_away oz c ->
        extract_zones self df symbol fetch_date timeframe
        = Ok [zone_record symbol fetch_date timeframe imp oz])
    /\ (~ moved_away oz c ->
        extract_zones self df symbol fetch_date timeframe = Ok []).
Proof.
  intros Hlen Ha Hi Ho.
  destruct (impulse_indices self df atr imp Hi) as (_ & _ & Hend).
  destruct (validate_zone_spec df oz imp Hend) as (c & Hc & Hyes & Hno).
  exists c. split; [exact Hc|].
  unfold extract_zones.
  destruct (List.length df <? 20)%nat eqn:E; [apply Nat.ltb_lt in E; lia|].
  rewrite Ha. cbn [bind]. rewrite Hi. cbn [bind]. rewrite Ho. cbn [bind].
  split; intro Hm.
  - rewrite (Hyes Hm). reflexivity.
  - rewrite (Hno Hm). reflexivity.
Qed.

Definition rally_impulse : impulse :=
  mkimpulse "BULLISH" 5 8 "HIGH" "10:30" "11:15".

Definition rally_origin : origin_zone := mkorigin 99.5 101 2.

Lemma zone_returned_iff_moved_away_witness :
  extract_zones default_detector rally_day "SYM" "2026-01-28" "15minute"
  = Ok [zone_record "SYM" "2026-01-28" "15minute" rally_impulse rally_origin].
Proof.
  assert (Ea : calculate_atr rally_day 14
               = Ok (5550000000000000000 # 1400000000000000000))
    by (vm_compute; reflexivity).
  destruct (zone_returned_iff_moved_away default_detector rally_day
              "SYM" "2026-01-28" "15minute"
              (5550000000000000000 # 1400000000000000000)
              rally_impulse rally_origin)
    as (c & Hc & Hyes & _).
  - cbn. lia.
  - exact Ea.
  - vm_compute. reflexivity.
  - vm_compute. reflexivity.
  - apply Hyes. cbn in Hc. injection Hc as <-. qdecide.
Defined.

(** C2 as stated fails: on [rally_day] the candle that follows the impulse
    end closes inside twice the zone's range of the midpoint, yet the zone
    is returned, because the test reads the end candle itself. *)
Lemma rally_day_next_candle_near :
  exists atr next,
    calculate_atr rally_day 14 = Ok atr
    /\ find_major_impulse default_detector rally_day atr
       = Ok (Some rally_impulse)
    /\ find_origin_zone default_detector rally_day
         (Z.of_nat (start_idx rally_impulse)) = Ok (Some rally_origin)
    /\ nth_error rally_day (S (end_idx rally_impulse)) = Some next
    /\ ~ moved_away rally_origin next
    /\ extract_zones default_detector rally_day "SYM" "2026-01-28" "15minute"
       = Ok [zone_record "SYM" "2026-01-28" "15minute"
               rally_impulse rally_origin].
Proof.
  exists (5550000000000000000 # 1400000000000000000),
         (bar "11:30" 120.5 100 100.4).
  split; [vm_compute; reflexivity|].
  split; [vm_compute; reflexivity|].
  split; [vm_compute; reflexivity|].
  split; [reflexivity|].
  split; [qdecide|].
  vm_compute; reflexivity.
Qed.

End ExtractFacts.

(* ================================================================== *)
(** * ExecuteDayMonitor: further properties of the classifier *)

Module MonitorExtras.
Import ExecuteDayMonitor MonitorFacts.
Local Open Scope string_scope.
Local Open Scope list_scope.
Local Open Scope Q_scope.

Definition initial_state : proximity :=
  ("FAR", None, Infinity, "No Touch Yet").

Lemma calculate_proximity_loop (self : monitor) (ltp : number)
    (zs : list zone) :
  zs <> [] ->
  _calculate_proximity self ltp zs = proximity_loop self ltp zs initial_state.
Proof. destruct zs; [contradiction | reflexivity]. Qed.

(** A Python float price and a zone of midpoint zero: the division raises. *)
Lemma proximity_loop_zero (self : monitor) (ltp : number) (z : zone)
    (rest : list zone) (st : proximity) :
  type_of ltp = python_float ->
  zone_mid z == 0 ->
  proximity_loop self ltp (z :: rest) st = Raise ZeroDivisionError.
Proof.
  intros Hty H. destruct st as [[[s c] m] r].
  cbn [proximity_loop]. fold (zone_mid z). unfold py_div.
  apply Qeq_bool_iff in H. rewrite H, Hty. reflexivity.
Qed.

(** What numpy computes for the distance from a midpoint zero: an infinity
    of the sign of the price, or NaN for the price zero. *)
Definition zero_mid_distance (ltp : number) (z : zone) : pyfloat :=
  if Qlt_bool 0 (value ltp - zone_mid z) then Infinity
  else if Qlt_bool (value ltp - zone_mid z) 0 then NegInfinity
  else NaN.

Lemma zero_mid_distance_cases (ltp : number) (z : zone) :
  zero_mid_distance ltp z = Infinity
  \/ zero_mid_distance ltp z = NegInfinity
  \/ zero_mid_distance ltp z = NaN.
Proof.
  unfold zero_mid_distance.
  destruct (Qlt_bool 0 _); [auto|]. destruct (Qlt_bool _ 0); auto.
Qed.

(** A numpy.float64 price and a zone of midpoint zero: the distance is not
    finite; the zone is returned when it contains the price and is passed
    over, with the state unchanged, when it does not. *)
Lemma proximity_loop_numpy_zero (self : monitor) (ltp : number) (z : zone)
    (rest : list zone) (st : proximity) :
  type_of ltp = numpy_float64 ->
  zone_mid z == 0 ->
  proximity_loop self ltp (z :: rest) st =
    if Qle_bool (zone_low z) (value ltp) && Qle_bool (value ltp) (zone_high z)
    then Ok (if String.eqb (zone_type z) "BULLISH"
             then "INSIDE_BULLISH" else "INSIDE_BEARISH",
             Some z, zero_mid_distance ltp z, "Holding")
    else proximity_loop self ltp rest st.
Proof.
  intros Hty H. destruct st as [[[s c] m] r].
  cbn [proximity_loop]. fold (zone_mid z). unfold py_div.
  apply Qeq_bool_iff in H. rewrite H, Hty. cbn [bind].
  fold (zero_mid_distance ltp z).
  destruct (Qle_bool (zone_low z) (value ltp)
            && Qle_bool (value ltp) (zone_high z)).
  - destruct (zero_mid_distance_cases ltp z) as [E|[E|E]];
      rewrite E; reflexivity.
  - destruct (zero_mid_distance_cases ltp z) as [E|[E|E]];
      rewrite E; reflexivity.
Qed.

Lemma zone_mid_dec (z : zone) : {zone_mid z == 0} + {~ zone_mid z == 0}.
Proof. apply Qeq_dec. Qed.

Lemma contains_dec (z : zone) (ltp : number) :
  {contains z ltp} + {~ contains z ltp}.
Proof.
  destruct (Qle_bool (zone_low z) (value ltp)
            && Qle_bool (value ltp) (zone_high z)) eqn:E.
  - left. now apply contains_test.
  - right. intro H. apply contains_test in H. congruence.
Qed.

Lemma float_type_cases (ltp : number) :
  {type_of ltp = python_float} + {type_of ltp = numpy_float64}.
Proof. destruct (type_of ltp); auto. Qed.

(** The zones whose midpoint is not zero. *)
Definition nonzero_mid (z : zone) : bool := negb (Qeq_bool (zone_mid z) 0).

Lemma nonzero_mid_iff (z : zone) : nonzero_mid z = true <-> ~ zone_mid z == 0.
Proof.
  unfold nonzero_mid. rewrite negb_true_iff. split.
  - intros E H. apply Qeq_bool_iff in H. congruence.
  - intro H. destruct (Qeq_bool _ _) eqn:E; [|reflexivity].
    apply Qeq_bool_iff in E. contradiction.
Qed.

Lemma nonzero_mid_false_iff (z : zone) :
  nonzero_mid z = false <-> zone_mid z == 0.
Proof.
  unfold nonzero_mid. rewrite negb_false_iff. apply Qeq_bool_iff.
Qed.

(** The distance the loop computes for a zone when the division returns. *)
Definition percent_distance (ltp : number) (z : zone) : pyfloat :=
  if nonzero_mid z then Finite (distance_from_mid z ltp)
  else zero_mid_distance ltp z.

(** A zone the loop passes over: it does not contain the price and, for a
    Python float price, its midpoint is not zero. *)
Definition passable (ltp : number) (z : zone) : Prop :=
  ~ contains z ltp /\ (type_of ltp = python_float -> ~ zone_mid z == 0).

Lemma outside_passable (ltp : number) (z : zone) :
  outside ltp z -> passable ltp z.
Proof. intros [H1 H2]. split; auto. Qed.

(** The three ways the loop can end: on a division by zero, on a zone that
    contains the price, or after the last zone. *)
Lemma proximity_loop_cases (self : monitor) (ltp : number) (zs : list zone) :
  forall st,
  (type_of ltp = python_float
   /\ proximity_loop self ltp zs st = Raise ZeroDivisionError
   /\ exists before z after,
        zs = before ++ z :: after
        /\ Forall (outside ltp) before /\ zone_mid z == 0)
  \/ (exists before z after,
        zs = before ++ z :: after
        /\ Forall (passable ltp) before
        /\ contains z ltp
        /\ (type_of ltp = python_float -> ~ zone_mid z == 0)
        /\ proximity_loop self ltp zs st
           = Ok (if String.eqb (zone_type z) "BULLISH"
                 then "INSIDE_BULLISH" else "INSIDE_BEARISH",
                 Some z, percent_distance ltp z, "Holding"))
  \/ (Forall (passable ltp) zs
      /\ proximity_loop self ltp zs st
         = Ok (fold_left (track self ltp) (filter nonzero_mid zs) st)).
Proof.
  induction zs as [|z zs IH]; intro st.
  { right. right. split; [constructor | reflexivity]. }
  destruct (zone_mid_dec z) as [Hz|Hz].
  - (* midpoint zero *)
    destruct (float_type_cases ltp) as [Hty|Hty].
    + left. split; [exact Hty|].
      split; [now apply proximity_loop_zero|].
      exists [], z, zs. split; [reflexivity|]. split; [constructor | exact Hz].
    + assert (Hp : type_of ltp = python_float -> ~ zone_mid z == 0)
        by (intro H; congruence).
      assert (Ez : nonzero_mid z = false) by now apply nonzero_mid_false_iff.
      rewrite (proximity_loop_numpy_zero self ltp z zs st Hty Hz).
      destruct (Qle_bool (zone_low z) (value ltp)
                && Qle_bool (value ltp) (zone_high z)) eqn:E.
      * right. left. exists [], z, zs.
        split; [reflexivity|]. split; [constructor|].
        split; [now apply contains_test|]. split; [exact Hp|].
        unfold percent_distance. now rewrite Ez.
      * assert (Hc : ~ contains z ltp).
        { intro H. apply contains_test in H. congruence. }
        destruct (IH st)
          as [(Hpy & _)
             |[(b & z' & a & Ezs & Hb & Hc' & Hm' & Hres)|(Hall & Hres)]].
        -- congruence.
        -- right. left. exists (z :: b), z', a.
           split; [now rewrite Ezs|].
           split; [constructor; [now split | exact Hb]|].
           split; [exact Hc'|]. split; [exact Hm' | exact Hres].
        -- right. right. split; [constructor; [now split | exact Hall]|].
           cbn [filter]. now rewrite Ez.
  - (* midpoint not zero *)
    assert (Ez : nonzero_mid z = true) by now apply nonzero_mid_iff.
    destruct (contains_dec z ltp) as [Hc|Hc].
    + right. left. exists [], z, zs.
      split; [reflexivity|]. split; [constructor|]. split; [exact Hc|].
      split; [intros _; exact Hz|].
      unfold percent_distance. rewrite Ez.
      now apply proximity_loop_inside.
    + assert (Ho : outside ltp z) by now split.
      rewrite (proximity_loop_track self ltp z zs st Ho).
      destruct (IH (track self ltp st z))
        as [(Hpy & Hraise & b & z' & a & Ezs & Hb & Hz')
           |[(b & z' & a & Ezs & Hb & Hc' & Hm' & Hres)|(Hall & Hres)]].
      * left. split; [exact Hpy|]. split; [exact Hraise|].
        exists (z :: b), z', a. split; [now rewrite Ezs|].
        split; [now constructor | exact Hz'].
      * right. left. exists (z :: b), z', a.
        split; [now rewrite Ezs|].
        split; [constructor; [now apply outside_passable | exact Hb]|].
        split; [exact Hc'|]. split; [exact Hm' | exact Hres].
      * right. right.
        split; [constructor; [now apply outside_passable | exact Hall]|].
        cbn [filter]. rewrite Ez. exact Hres.
Qed.

Lemma proximity_loop_before (self : monitor) (ltp : number)
    (before rest : list zone) (st : proximity) :
  Forall (outside ltp) before ->
  exists st', proximity_loop self ltp (before ++ rest) st
              = proximity_loop self ltp rest st'.
Proof.
  intro H. revert st. induction H as [|z b [Ho Hm] _ IH]; intro st.
  - now exists st.
  - cbn [app].
    destruct (proximity_loop_skip self ltp z (b ++ rest) st Ho Hm) as [st1 ->].
    apply IH.
Qed.

Lemma zero_midpoint_raises (self : monitor) (ltp : number)
    (before : list zone) (z : zone) (after : list zone) :
  type_of ltp = python_float ->
  Forall (outside ltp) before -> zone_mid z == 0 ->
  _calculate_proximity self ltp (before ++ z :: after)
  = Raise ZeroDivisionError.
Proof.
  intros Hty Hb Hz.
  rewrite calculate_proximity_loop by (now destruct before).
  destruct (proximity_loop_before self ltp before (z :: after) initial_state Hb)
    as [st ->].
  now apply proximity_loop_zero.
Qed.

(** X1.  The classifier can raise only ZeroDivisionError, and only for a
    Python float price: then it raises exactly when a zone whose midpoint
    is zero is reached before any zone that contains the price.  For a
    numpy.float64 price it always returns. *)
Theorem proximity_raises_iff (self : monitor) (ltp : number)
    (zs : list zone) :
  (forall e, _calculate_proximity self ltp zs = Raise e ->
             e = ZeroDivisionError /\ type_of ltp = python_float)
  /\ (type_of ltp = python_float ->
      ((exists e, _calculate_proximity self ltp zs = Raise e)
       <-> exists before z after,
             zs = before ++ z :: after
             /\ Forall (fun z' => ~ contains z' ltp /\ ~ zone_mid z' == 0)
                  before
             /\ zone_mid z == 0))
  /\ (type_of ltp = numpy_float64 ->
      exists r, _calculate_proximity self ltp zs = Ok r).
Proof.
  destruct zs as [|z0 zs'] eqn:Ezs.
  { cbn [_calculate_proximity]. split; [intros e H; discriminate H|]. split.
    - intros _. split; [intros [e H]; discriminate H|].
      intros (b & z & a & E & _). now destruct b.
    - intros _. now eexists. }
  rewrite <- Ezs.
  assert (Hne : zs <> []) by (rewrite Ezs; discriminate).
  clear Ezs z0 zs'.
  rewrite (calculate_proximity_loop self ltp zs Hne).
  assert (Hzero : type_of ltp = python_float ->
            forall before z after,
              zs = before ++ z :: after -> Forall (outside ltp) before ->
              zone_mid z == 0 ->
              proximity_loop self ltp zs initial_state
              = Raise ZeroDivisionError).
  { intros Hty b z a E Hb Hz.
    rewrite <- (calculate_proximity_loop self ltp zs Hne), E.
    now apply zero_midpoint_raises. }
  destruct (proximity_loop_cases self ltp zs initial_state)
    as [(Hpy & Hraise & Hdec)
       |[(b & z & a & _ & _ & _ & _ & Hres)|(_ & Hres)]].
  - rewrite Hraise. split.
    + intros e H. injection H as <-. now split.
    + split; [intros _; split; [intros _; exact Hdec | intros _; eauto]|].
      intro H. congruence.
  - rewrite Hres. split; [intros e H; discriminate H|]. split.
    + intro Hty. split; [intros [e H]; discriminate H|].
      intros (b' & z' & a' & E' & Hb' & Hz').
      pose proof (Hzero Hty b' z' a' E' Hb' Hz') as H. congruence.
    + intros _. now eexists.
  - rewrite Hres. split; [intros e H; discriminate H|]. split.
    + intro Hty. split; [intros [e H]; discriminate H|].
      intros (b' & z' & a' & E' & Hb' & Hz').
      pose proof (Hzero Hty b' z' a' E' Hb' Hz') as H. congruence.
    + intros _. now eexists.
Qed.

Definition abs_distance (ltp : number) (z : zone) : Q :=
  Qabs (distance_from_mid z ltp).

(** The state after a scan without containment: the first zone of least
    absolute distance, its signed distance and its classification. *)
Lemma closest_first_fold (self : monitor) (ltp : number) (zs : list zone) :
  zs <> [] ->
  exists before zc after,
    zs = before ++ zc :: after
    /\ fold_left (track self ltp) zs initial_state
       = (fst (classify self (distance_from_mid zc ltp)), Some zc,
          Finite (distance_from_mid zc ltp),
          snd (classify self (distance_from_mid zc ltp)))
    /\ (forall z, In z before -> abs_distance ltp zc < abs_distance ltp z)
    /\ (forall z, In z after -> abs_distance ltp zc <= abs_distance ltp z).
Proof.
  induction zs as [|z zs IH] using rev_ind; [contradiction|]. intros _.
  rewrite fold_left_app. cbn [fold_left].
  destruct zs as [|z0 zs'].
  - exists [], z, []. cbn.
    refine (conj eq_refl (conj eq_refl (conj _ _))); intros ? [].
  - destruct IH as (b & zc & a & E & -> & Hb & Ha); [discriminate|].
    unfold track. cbn [fst snd fabs flt].
    destruct (Qlt_bool _ _) eqn:El.
    + apply Qlt_bool_iff in El.
      exists (z0 :: zs'), z, [].
      refine (conj eq_refl (conj eq_refl (conj _ _))); [|intros ? []].
      intros z' Hz'. rewrite E in Hz'. unfold abs_distance.
      apply in_app_or in Hz' as [Hz'|[<-|Hz']].
      * eapply Qlt_trans; [exact El | now apply Hb].
      * exact El.
      * eapply Qlt_le_trans; [exact El | now apply Ha].
    + apply Qlt_bool_false_iff in El.
      exists b, zc, (a ++ [z]). rewrite E, <- app_assoc.
      refine (conj eq_refl (conj eq_refl (conj Hb _))).
      intros z' Hz'. apply in_app_or in Hz' as [Hz'|[<-|[]]];
        [now apply Ha | exact El].
Qed.

(** X2.  When no zone contains the price (and no midpoint is zero) the
    classifier returns the first zone of least absolute percentage
    distance together with its signed distance; the status is NEAR with
    First Touch when that distance is within the near threshold, FAR with
    No Touch Yet when it exceeds the far threshold, and NEAR with No Touch
    Yet in between.  This holds for a price of either float type. *)
Theorem closest_zone_spec (self : monitor) (ltp : number) (zs : list zone) :
  zs <> [] ->
  Forall (fun z => ~ contains z ltp /\ ~ zone_mid z == 0) zs ->
  exists before zc after s r,
    zs = before ++ zc :: after
    /\ (forall z, In z before -> abs_distance ltp zc < abs_distance ltp z)
    /\ (forall z, In z after -> abs_distance ltp zc <= abs_distance ltp z)
    /\ _calculate_proximity self ltp zs
       = Ok (s, Some zc, Finite (distance_from_mid zc ltp), r)
    /\ (abs_distance ltp zc <= near_threshold self ->
        s = "NEAR" /\ r = "First Touch")
    /\ (~ abs_distance ltp zc <= near_threshold self ->
        far_threshold self < abs_distance ltp zc ->
        s = "FAR" /\ r = "No Touch Yet")
    /\ (~ abs_distance ltp zc <= near_threshold self ->
        ~ far_threshold self < abs_distance ltp zc ->
        s = "NEAR" /\ r = "No Touch Yet").
Proof.
  intros Hne Hall.
  destruct (closest_first_fold self ltp zs Hne)
    as (b & zc & a & E & Hfold & Hb & Ha).
  exists b, zc, a, (fst (classify self (distance_from_mid zc ltp))),
    (snd (classify self (distance_from_mid zc ltp))).
  refine (conj E (conj Hb (conj Ha (conj _ _)))).
  - rewrite (calculate_proximity_loop self ltp zs Hne).
    rewrite (proximity_loop_outside self ltp zs _ Hall). now rewrite Hfold.
  - unfold classify, abs_distance.
    destruct (Qle_bool _ (near_threshold self)) eqn:En.
    + apply Qle_bool_iff in En. cbn [fst snd].
      split; [auto|]. split; intros H; contradiction.
    + assert (Hn : ~ Qabs (distance_from_mid zc ltp) <= near_threshold self).
      { intro H. apply Qle_bool_iff in H. congruence. }
      destruct (Qgt_bool _ (far_threshold self)) eqn:Ef; cbn [fst snd].
      * apply Qgt_bool_iff in Ef.
        split; [intro; contradiction|]. split; [auto|].
        intros _ H. contradiction.
      * apply Qgt_bool_false_iff in Ef. apply Qle_not_lt in Ef.
        split; [intro; contradiction|]. split; [|auto].
        intros _ H. contradiction.
Qed.

(** The ways the classifier can end when it returns. *)
Lemma proximity_cases (self : monitor) (ltp : number) (zs : list zone)
    (res : proximity) :
  _calculate_proximity self ltp zs = Ok res ->
  (zs = [] /\ res = ("FAR", None, Finite 100, "No Touch Yet"))
  \/ (exists before z after,
        zs = before ++ z :: after
        /\ Forall (passable ltp) before /\ contains z ltp
        /\ (type_of ltp = python_float -> ~ zone_mid z == 0)
        /\ res = (if String.eqb (zone_type z) "BULLISH"
                  then "INSIDE_BULLISH" else "INSIDE_BEARISH",
                  Some z, percent_distance ltp z, "Holding"))
  \/ (zs <> [] /\ Forall (passable ltp) zs
      /\ filter nonzero_mid zs = []
      /\ type_of ltp = numpy_float64
      /\ res = initial_state)
  \/ (zs <> [] /\ Forall (passable ltp) zs
      /\ exists zc,
           In zc zs /\ ~ zone_mid zc == 0
           /\ (forall z, In z zs -> ~ zone_mid z == 0 ->
                 abs_distance ltp zc <= abs_distance ltp z)
           /\ res = (fst (classify self (distance_from_mid zc ltp)), Some zc,
                     Finite (distance_from_mid zc ltp),
                     snd (classify self (distance_from_mid zc ltp)))).
Proof.
  intro Hres.
  destruct zs as [|z0 zs'] eqn:Ezs.
  { left. split; [reflexivity|]. cbn in Hres. now injection Hres as <-. }
  rewrite <- Ezs in *.
  assert (Hne : zs <> []) by (rewrite Ezs; discriminate).
  rewrite (calculate_proximity_loop self ltp zs Hne) in Hres.
  destruct (proximity_loop_cases self ltp zs initial_state)
    as [(_ & Hraise & _)
       |[(b & z & a & E & Hb & Hc & Hm & Hr)|(Hall & Hr)]].
  - congruence.
  - right. left. exists b, z, a.
    refine (conj E (conj Hb (conj Hc (conj Hm _)))).
    rewrite Hr in Hres. now injection Hres as <-.
  - rewrite Hr in Hres. injection Hres as <-.
    destruct (filter nonzero_mid zs) as [|f0 fs'] eqn:Ef.
    + right. right. left.
      refine (conj Hne (conj Hall (conj eq_refl (conj _ eq_refl)))).
      destruct (float_type_cases ltp) as [Hty|Hty]; [exfalso | exact Hty].
      rewrite Ezs in Hall, Ef. inversion Hall as [|? ? [_ Hz0] _]; subst.
      cbn [filter] in Ef.
      apply Hz0 in Hty. apply nonzero_mid_iff in Hty.
      rewrite Hty in Ef. discriminate.
    + right. right. right.
      split; [exact Hne|]. split; [exact Hall|].
      rewrite <- Ef.
      assert (Hnf : filter nonzero_mid zs <> []) by (rewrite Ef; discriminate).
      destruct (closest_first_fold self ltp _ Hnf)
        as (b & zc & a & E & Hfold & Hb & Ha).
      assert (Hzc : In zc (filter nonzero_mid zs))
        by (rewrite E; apply in_elt).
      apply filter_In in Hzc as [Hin Hnz].
      exists zc. split; [exact Hin|].
      split; [now apply nonzero_mid_iff|]. split; [|exact Hfold].
      intros z Hz Hmz.
      assert (Hzf : In z (filter nonzero_mid zs)).
      { apply filter_In. split; [exact Hz | now apply nonzero_mid_iff]. }
      rewrite E in Hzf.
      apply in_app_or in Hzf as [Hzf|[<-|Hzf]];
        [apply Qlt_le_weak; now apply Hb | apply Qle_refl | now apply Ha].
Qed.




(** X4.  A monitoring record that carries the classifier's status and
    reaction is kept by [get_alerts] exactly when the price lies inside
    some zone or some zone of non-zero midpoint is within the near
    threshold of the price; this holds for a price of either float type.
    For a Python float price the condition on the midpoint can be left
    out, because the classifier only returns past a zone of midpoint zero
    when a containing zone came first. *)
Theorem alert_iff_inside_or_near (self : monitor) (ltp : number)
    (zs : list zone)
    (s : string) (c : option zone) (d : pyfloat) (r : string)
    (rec : MonitoringRecord) :
  _calculate_proximity self ltp zs = Ok (s, c, d, r) ->
  status rec = s -> reaction rec = r ->
  (In rec (get_alerts [rec])
   <-> (exists z, In z zs /\ contains z ltp)
       \/ (exists z, In z zs /\ ~ zone_mid z == 0
                     /\ abs_distance ltp z <= near_threshold self))
  /\ (type_of ltp = python_float ->
      (In rec (get_alerts [rec])
       <-> (exists z, In z zs /\ contains z ltp)
           \/ (exists z, In z zs
                         /\ abs_distance ltp z <= near_threshold self))).
Proof.
  intros Hres Hs Hr.
  rewrite get_alerts_filter. cbn [filter].
  assert (Hrec : In rec (if is_alertb rec then [rec] else [])
                 <-> is_alert rec).
  { rewrite <- is_alertb_iff. destruct (is_alertb rec); cbn; intuition congruence. }
  rewrite Hrec. unfold is_alert. rewrite Hs, Hr. clear Hrec Hs Hr.
  set (A := exists z, In z zs /\ contains z ltp).
  set (B := exists z, In z zs /\ ~ zone_mid z == 0
                      /\ abs_distance ltp z <= near_threshold self).
  set (B0 := exists z, In z zs /\ abs_distance ltp z <= near_threshold self).
  set (L := (s = "INSIDE_BULLISH" \/ s = "INSIDE_BEARISH" \/ s = "NEAR")
            /\ (r = "First Touch" \/ r = "Holding")).
  assert (HB : B -> B0).
  { intros (z & Hz & _ & Hn). now exists z. }
  assert (Hmain : (L <-> A \/ B)
                  /\ (type_of ltp = python_float -> B0 -> A \/ B)).
  { unfold L, A, B, B0.
    destruct (proximity_cases self ltp zs _ Hres)
      as [[Ez E]
         |[(b & z & a & Ez & _ & Hc & _ & E)
          |[(Hne & Hall & Ef & Hty & E)
           |(Hne & Hall & zc & Hin & Hnz & Hmin & E)]]];
      injection E as -> -> -> ->.
    - subst zs. split.
      + split.
        * intros [[H|[H|H]] _]; discriminate.
        * intros [(z & [] & _)|(z & [] & _)].
      + intros _ (z & [] & _).
    - assert (HA : exists z0, In z0 zs /\ contains z0 ltp).
      { exists z. split; [rewrite Ez; apply in_elt | exact Hc]. }
      split; [|intros _ _; now left].
      split; [intros _; now left|].
      intros _. split; [destruct (String.eqb _ _); auto | auto].
    - assert (HnA : ~ (exists z, In z zs /\ contains z ltp)).
      { intros (z & Hz & Hc). rewrite Forall_forall in Hall.
        now destruct (Hall z Hz). }
      assert (HnB : ~ (exists z, In z zs /\ ~ zone_mid z == 0
                         /\ abs_distance ltp z <= near_threshold self)).
      { intros (z & Hz & Hm & _).
        assert (Hf : In z (filter nonzero_mid zs)).
        { apply filter_In. split; [exact Hz | now apply nonzero_mid_iff]. }
        rewrite Ef in Hf. destruct Hf. }
      split; [|intro H; congruence].
      split; [intros [[H|[H|H]] _]; discriminate H | tauto].
    - assert (HnA : ~ (exists z, In z zs /\ contains z ltp)).
      { intros (z & Hz & Hc). rewrite Forall_forall in Hall.
        now destruct (Hall z Hz). }
      assert (Hpy : type_of ltp = python_float ->
                (exists z, In z zs
                           /\ abs_distance ltp z <= near_threshold self) ->
                exists z, In z zs /\ ~ zone_mid z == 0
                          /\ abs_distance ltp z <= near_threshold self).
      { intros Hty (z & Hz & Hn). exists z. split; [exact Hz|].
        split; [|exact Hn].
        rewrite Forall_forall in Hall. destruct (Hall z Hz) as [_ Hm].
        now apply Hm. }
      split; [|intros Hty H; right; now apply Hpy].
      unfold classify.
      destruct (Qle_bool _ (near_threshold self)) eqn:En; cbn [fst snd].
      + apply Qle_bool_iff in En. split; [|auto].
        intros _. right. now exists zc.
      + assert (HnB : ~ (exists z, In z zs /\ ~ zone_mid z == 0
                           /\ abs_distance ltp z <= near_threshold self)).
        { intros (z & Hz & Hm & Hn).
          assert (H : Qle_bool (Qabs (distance_from_mid zc ltp))
                        (near_threshold self) = true).
          { apply Qle_bool_iff.
            eapply Qle_trans; [apply (Hmin z Hz Hm) | exact Hn]. }
          congruence. }
        destruct (Qgt_bool _ (far_threshold self)); cbn [fst snd];
          (split; [intros [H1 [H2|H2]]; try discriminate H2;
                   destruct H1 as [H1|[H1|H1]]; discriminate H1
                  | tauto]). }
  destruct Hmain as [H1 H2]. split; [exact H1|].
  intro Hty. rewrite H1. split.
  - intros [H|H]; [now left | right; now apply HB].
  - intros [H|H]; [now left | now apply H2].
Qed.

(** X5.  [get_alerts] acts record by record: the alerts of a concatenation
    are the alerts of the parts, filtering twice changes nothing, and no
    record is ever added. *)
Theorem get_alerts_compose (xs ys : list MonitoringRecord) :
  get_alerts (xs ++ ys) = get_alerts xs ++ get_alerts ys
  /\ get_alerts (get_alerts xs) = get_alerts xs
  /\ (List.length (get_alerts xs) <= List.length xs)%nat.
Proof.
  rewrite !get_alerts_filter. split; [apply filter_app|]. split.
  - induction xs as [|x xs IH]; [reflexivity|]. cbn [filter].
    destruct (is_alertb x) eqn:E; [|exact IH].
    cbn [filter]. now rewrite E, IH.
  - apply filter_length_le.
Qed.

(** ** Instances *)

Lemma proximity_raises_iff_witness :
  _calculate_proximity default_monitor (mknumber python_float 710)
    [zone_of 0 0 "BULLISH"; zone_of 700 720 "BULLISH"]
  = Raise ZeroDivisionError
  /\ exists r,
       _calculate_proximity default_monitor (mknumber numpy_float64 710)
         [zone_of 0 0 "BULLISH"; zone_of 700 720 "BULLISH"] = Ok r.
Proof.
  split.
  - destruct (proximity_raises_iff default_monitor (mknumber python_float 710)
                [zone_of 0 0 "BULLISH"; zone_of 700 720 "BULLISH"])
      as (Honly & Hiff & _).
    destruct (proj2 (Hiff eq_refl)) as [e He].
    + exists [], (zone_of 0 0 "BULLISH"), [zone_of 700 720 "BULLISH"].
      split; [reflexivity|]. split; [constructor | qdecide].
    + rewrite He. f_equal. exact (proj1 (Honly e He)).
  - apply (proj2 (proj2 (proximity_raises_iff default_monitor
                           (mknumber numpy_float64 710)
                           [zone_of 0 0 "BULLISH";
                            zone_of 700 720 "BULLISH"]))).
    reflexivity.
Defined.

Lemma closest_zone_spec_witness :
  exists zc s r d,
    _calculate_proximity default_monitor (mknumber python_float 706.5)
      [zone_of 600 620 "BEARISH"; zone_of 708 712 "BULLISH"]
    = Ok (s, Some zc, d, r).
Proof.
  destruct (closest_zone_spec default_monitor (mknumber python_float 706.5)
              [zone_of 600 620 "BEARISH"; zone_of 708 712 "BULLISH"])
    as (b & zc & a & s & r & _ & _ & _ & H & _).
  - discriminate.
  - constructor; [split; qdecide|]. constructor; [split; qdecide|]. constructor.
  - exists zc, s, r,
      (Finite (distance_from_mid zc (mknumber python_float 706.5))).
    exact H.
Defined.


Lemma alert_iff_inside_or_near_witness :
  In (record_of "INSIDE_BULLISH" "Holding")
     (get_alerts [record_of "INSIDE_BULLISH" "Holding"]).
Proof.
  destruct (alert_iff_inside_or_near default_monitor
              (mknumber python_float 710)
              [zone_of 700 720 "BULLISH"]
              "INSIDE_BULLISH" (Some (zone_of 700 720 "BULLISH"))
              (Finite (distance_from_mid (zone_of 700 720 "BULLISH")
                         (mknumber python_float 710)))
              "Holding" (record_of "INSIDE_BULLISH" "Holding"))
    as [H _].
  - vm_compute. reflexivity.
  - reflexivity.
  - reflexivity.
  - apply H. left. exists (zone_of 700 720 "BULLISH"). split; [now left|].
    split; qdecide.
Defined.

End MonitorExtras.

(* ================================================================== *)
(** * ZoneDetector: further properties *)

Module ZoneExtras.
Import ZoneDetector ImpulseFacts OriginFacts ExtractFacts.
Local Open Scope string_scope.
Local Open Scope list_scope.
Local Open Scope Q_scope.

(** ** Minimum, maximum and mean of a series *)

Lemma Qmin_cases (a b : Q) : Qmin a b = a \/ Qmin a b = b.
Proof.
  unfold Qmin, GenericMinMax.gmin. destruct (a ?= b); auto.
Qed.

Lemma Qmax_cases (a b : Q) : Qmax a b = a \/ Qmax a b = b.
Proof.
  unfold Qmax, GenericMinMax.gmax. destruct (a ?= b); auto.
Qed.

Lemma fold_min_spec (xs : list Q) (a : Q) :
  (fold_left Qmin xs a = a \/ In (fold_left Qmin xs a) xs)
  /\ fold_left Qmin xs a <= a
  /\ Forall (Qle (fold_left Qmin xs a)) xs.
Proof.
  revert a. induction xs as [|x xs IH]; intro a; cbn [fold_left].
  - split; [now left|]. split; [apply Qle_refl | constructor].
  - destruct (IH (Qmin a x)) as (Hin & Hle & Hall).
    split; [|split].
    + destruct Hin as [E|Hin]; [|right; now right].
      rewrite E. destruct (Qmin_cases a x) as [->| ->]; [now left|right; now left].
    + eapply Qle_trans; [exact Hle | apply Q.le_min_l].
    + constructor; [|exact Hall].
      eapply Qle_trans; [exact Hle | apply Q.le_min_r].
Qed.

Lemma fold_max_spec (xs : list Q) (a : Q) :
  (fold_left Qmax xs a = a \/ In (fold_left Qmax xs a) xs)
  /\ a <= fold_left Qmax xs a
  /\ Forall (fun x => x <= fold_left Qmax xs a) xs.
Proof.
  revert a. induction xs as [|x xs IH]; intro a; cbn [fold_left].
  - split; [now left|]. split; [apply Qle_refl | constructor].
  - destruct (IH (Qmax a x)) as (Hin & Hle & Hall).
    split; [|split].
    + destruct Hin as [E|Hin]; [|right; now right].
      rewrite E. destruct (Qmax_cases a x) as [->| ->]; [now left|right; now left].
    + eapply Qle_trans; [apply Q.le_max_l | exact Hle].
    + constructor; [|exact Hall].
      eapply Qle_trans; [apply Q.le_max_r | exact Hle].
Qed.

Lemma series_min_spec (xs : list Q) (m : Q) :
  series_min xs = Some m -> In m xs /\ Forall (Qle m) xs.
Proof.
  destruct xs as [|x xs]; [discriminate|]. cbn [series_min].
  intro H; injection H as <-.
  destruct (fold_min_spec xs x) as (Hin & Hle & Hall).
  split; [destruct Hin as [->|Hin]; [now left | now right]|].
  now constructor.
Qed.

Lemma series_max_spec (xs : list Q) (m : Q) :
  series_max xs = Some m -> In m xs /\ Forall (fun x => x <= m) xs.
Proof.
  destruct xs as [|x xs]; [discriminate|]. cbn [series_max].
  intro H; injection H as <-.
  destruct (fold_max_spec xs x) as (Hin & Hle & Hall).
  split; [destruct Hin as [->|Hin]; [now left | now right]|].
  now constructor.
Qed.

Lemma fold_sum_le (xs ys : list Q) (a b : Q) :
  Forall2 Qle xs ys -> a <= b ->
  fold_left Qplus xs a <= fold_left Qplus ys b.
Proof.
  intro H. revert a b. induction H as [|x y xs ys Hxy _ IH]; intros a b Hab.
  - exact Hab.
  - cbn [fold_left]. apply IH. now apply Qplus_le_compat.
Qed.

Lemma series_sum_nonneg (xs : list Q) :
  Forall (Qle 0) xs -> 0 <= series_sum xs.
Proof.
  intro H. unfold series_sum.
  assert (G : forall a, 0 <= a -> 0 <= fold_left Qplus xs a).
  { induction H as [|x xs Hx _ IH]; intros a Ha; [exact Ha|].
    cbn [fold_left]. apply IH.
    replace 0 with (0 + 0) by reflexivity. now apply Qplus_le_compat. }
  apply G, Qle_refl.
Qed.

Lemma count_nonneg (n : nat) : 0 <= / inject_Z (Z.of_nat n).
Proof.
  apply Qinv_le_0_compat. unfold Qle. cbn. lia.
Qed.

Lemma series_mean_nonneg (xs : list Q) (m : Q) :
  Forall (Qle 0) xs -> series_mean xs = Some m -> 0 <= m.
Proof.
  intros H E. destruct xs as [|x xs]; [discriminate|].
  cbn [series_mean] in E. injection E as <-.
  unfold Qdiv. apply Qmult_le_0_compat;
    [now apply series_sum_nonneg
    | exact (count_nonneg (List.length (x :: xs)))].
Qed.

(** ** The ATR baseline *)

Lemma true_range_nonneg (pc : Q) (df : DataFrame) :
  Forall (Qle 0) (true_range (Some pc) df).
Proof.
  revert pc. induction df as [|c df IH]; intro pc; cbn [true_range];
    constructor; [|apply IH].
  eapply Qle_trans; [apply (Qabs_nonneg (low c - pc))|].
  eapply Qle_trans; [apply Q.le_max_r|]. apply Q.le_max_r.
Qed.

Lemma true_range_length (df : DataFrame) (p : option Q) :
  List.length (true_range p df) = List.length df.
Proof.
  revert p. induction df as [|c df IH]; intro p; cbn [true_range List.length];
    [reflexivity | now rewrite IH].
Qed.

Lemma Forall_skipn {A} (P : A -> Prop) (n : nat) (l : list A) :
  Forall P l -> Forall P (skipn n l).
Proof.
  intro H. rewrite <- (firstn_skipn n l) in H.
  now apply Forall_app in H.
Qed.

(** X6.  The ATR is never negative: on a frame with more rows than the
    period, whatever the candle values, because every true range after the
    first row is at least an absolute value; and on any non-empty frame
    whose candles have [low <= high]. *)
Theorem calculate_atr_nonneg (df : DataFrame) (period : nat) :
  ((1 <= period < List.length df)%nat ->
   exists atr, calculate_atr df period = Ok atr /\ 0 <= atr)
  /\ (df <> [] -> Forall (fun c => low c <= high c) df ->
      exists atr, calculate_atr df period = Ok atr /\ 0 <= atr).
Proof.
  split.
  - intros [Hp Hlen]. destruct df as [|c cs]; [cbn in Hlen; lia|].
    unfold calculate_atr, rolling_mean_last.
    rewrite true_range_length. cbn [List.length] in *.
    destruct (S (List.length cs) <? period)%nat eqn:E;
      [apply Nat.ltb_lt in E; lia|].
    cbn [true_range].
    replace (S (List.length cs) - period)%nat
      with (S (List.length cs - period)) by lia.
    cbn [skipn].
    destruct (series_mean _) as [atr|] eqn:Em.
    + exists atr. split; [reflexivity|].
      eapply series_mean_nonneg; [|exact Em].
      apply Forall_skipn, true_range_nonneg.
    + exfalso. unfold series_mean in Em.
      destruct (skipn _ _) eqn:Es; [|discriminate].
      apply (f_equal (@List.length _)) in Es.
      rewrite length_skipn, true_range_length in Es.
      cbn [List.length] in Es. lia.
  - intros Hne Hall. destruct df as [|c cs]; [contradiction|].
    unfold calculate_atr.
    destruct (rolling_mean_last period _) as [atr|] eqn:Er.
    + exists atr. split; [reflexivity|].
      unfold rolling_mean_last in Er.
      destruct (_ <? _)%nat; [discriminate|].
      eapply series_mean_nonneg; [|exact Er].
      apply Forall_skipn. cbn [true_range].
      inversion Hall as [|? ? Hc Hcs]; subst.
      constructor; [lra | apply true_range_nonneg].
    + eexists. split; [reflexivity|].
      unfold Qdiv.
      set (k := / inject_Z (Z.of_nat (List.length (c :: cs)))).
      assert (Hk : 0 <= k) by apply count_nonneg.
      assert (Hs : series_sum (map low (c :: cs))
                   <= series_sum (map high (c :: cs))).
      { unfold series_sum. apply fold_sum_le; [|apply Qle_refl].
        clear -Hall. induction Hall; cbn [map]; constructor; assumption. }
      assert (Hm : series_sum (map low (c :: cs)) * k
                   <= series_sum (map high (c :: cs)) * k)
        by (now apply Qmult_le_compat_r).
      lra.
Qed.

(** ** The impulse *)

Lemma impulse_found (self : detector) (df : DataFrame) (atr : Q)
    (imp : impulse) :
  find_major_impulse self df atr = Ok (Some imp) ->
  exists i j,
    imp = impulse_of df atr i j
    /\ pair_ok (List.length df) i j
    /\ survives self df atr i j
    /\ forall i' j', pair_ok (List.length df) i' j' ->
         survives self df atr i' j' -> net_move df i' j' <= net_move df i j.
Proof.
  intro Hfind.
  destruct (find_major_impulse_inv self df atr) as ([r m] & Hr & Hinv).
  rewrite Hfind in Hr. injection Hr as <-.
  unfold scan_inv in Hinv. cbn [fst snd] in Hinv.
  destruct Hinv as (l1 & i & j & l2 & El & -> & _ & Hs & _ & H1 & H2).
  exists i, j. split; [reflexivity|].
  split; [apply in_scan_order; rewrite El; apply in_elt|].
  split; [exact Hs|].
  intros i' j' Hok Hs'. apply in_scan_order in Hok. rewrite El in Hok.
  apply in_app_or in Hok as [Hq|[Hq|Hq]].
  - apply Qlt_le_weak. exact (H1 _ Hq Hs').
  - injection Hq as <- <-. apply Qle_refl.
  - exact (H2 _ Hq Hs').
Qed.

(** X7.  With a positive threshold [atr_multiplier * ATR] the search
    returns none exactly when no pair of the scan survives the two tests,
    and a returned impulse is a survivor of largest net displacement among
    all survivors. *)
Theorem impulse_found_iff_survivor (self : detector) (df : DataFrame)
    (atr : Q) :
  0 < atr_multiplier self * atr ->
  (find_major_impulse self df atr = Ok None
   <-> forall i j, pair_ok (List.length df) i j ->
                   ~ survives self df atr i j)
  /\ (forall imp,
        find_major_impulse self df atr = Ok (Some imp) ->
        pair_ok (List.length df) (start_idx imp) (end_idx imp)
        /\ survives self df atr (start_idx imp) (end_idx imp)
        /\ forall i j, pair_ok (List.length df) i j ->
             survives self df atr i j ->
             net_move df i j <= net_move df (start_idx imp) (end_idx imp)).
Proof.
  intro Hpos. split.
  - destruct (find_major_impulse_inv self df atr) as ([r m] & Hr & Hinv).
    rewrite Hr. unfold scan_inv in Hinv. cbn [fst snd] in Hinv.
    destruct r as [imp|].
    + destruct Hinv as (l1 & i & j & l2 & El & _ & _ & Hs & _).
      split; [discriminate|]. intro Hnone. exfalso.
      apply (Hnone i j); [|exact Hs].
      apply in_scan_order. rewrite El. apply in_elt.
    + destruct Hinv as [_ H]. split; [|reflexivity].
      intros _ i j Hok Hs. apply in_scan_order in Hok.
      apply (H (i, j) Hok Hs). cbn [fst snd].
      destruct Hs as [Hsig _]. apply Qnot_lt_le in Hsig.
      eapply Qlt_le_trans; eassumption.
  - intros imp Hfind.
    destruct (impulse_found self df atr imp Hfind)
      as (i & j & -> & Hok & Hs & Hmax).
    cbn [impulse_of start_idx end_idx]. auto.
Qed.

Lemma in_loc_slice (df : DataFrame) (i j k : nat) (c : candle) :
  (i <= k <= j)%nat -> nth_error df k = Some c -> In c (loc_slice df i j).
Proof.
  intros Hk Hc. unfold loc_slice.
  apply (nth_error_In _ (k - i)).
  rewrite nth_error_firstn.
  destruct (k - i <? j + 1 - i)%nat eqn:E; [|apply Nat.ltb_ge in E; lia].
  rewrite nth_error_skipn. now replace (i + (k - i))%nat with k by lia.
Qed.

(** X8.  In a returned impulse the price never pulls back by more than
    0.3 times the net displacement: for a BULLISH impulse every low from
    the start candle to the end candle is at least the start close minus
    that amount, and for a BEARISH impulse every high is at most the start
    close plus that amount. *)
Theorem impulse_pullback_bound (self : detector) (df : DataFrame) (atr : Q)
    (imp : impulse) :
  find_major_impulse self df atr = Ok (Some imp) ->
  exists cs,
    nth_error df (start_idx imp) = Some cs
    /\ forall k c,
         (start_idx imp <= k <= end_idx imp)%nat ->
         nth_error df k = Some c ->
         (direction imp = "BULLISH" ->
          close cs - 0.3 * net_move df (start_idx imp) (end_idx imp) <= low c)
         /\ (direction imp = "BEARISH" ->
             high c
             <= close cs + 0.3 * net_move df (start_idx imp) (end_idx imp)).
Proof.
  intro Hfind.
  destruct (impulse_found self df atr imp Hfind)
    as (i & j & -> & (H3 & H20 & Hj) & [_ Hpull] & _).
  cbn [impulse_of start_idx end_idx direction].
  destruct (nth_error df i) as [cs|] eqn:Ei;
    [|apply nth_error_None in Ei; lia].
  exists cs. split; [reflexivity|].
  intros k c Hk Hc.
  pose proof (in_loc_slice df i j k c Hk Hc) as Hin.
  unfold pullback in Hpull.
  assert (Eci : close_at df i = close cs) by (unfold close_at; now rewrite Ei).
  rewrite Eci in Hpull |- *.
  destruct (Qgt_bool (close_at df j) (close cs)).
  - split; [intros _|discriminate].
    destruct (series_min (map low (loc_slice df i j))) as [l|] eqn:El.
    + destruct (series_min_spec _ _ El) as [_ Hall].
      rewrite Forall_forall in Hall.
      pose proof (Hall (low c) (in_map low _ _ Hin)) as Hl.
      pose proof (Hpull _ eq_refl) as Hp. apply Qnot_lt_le in Hp. lra.
    + exfalso. destruct (loc_slice df i j); [destruct Hin | discriminate].
  - split; [discriminate|intros _].
    destruct (series_max (map high (loc_slice df i j))) as [h|] eqn:Eh.
    + destruct (series_max_spec _ _ Eh) as [_ Hall].
      rewrite Forall_forall in Hall.
      pose proof (Hall (high c) (in_map high _ _ Hin)) as Hh.
      pose proof (Hpull _ eq_refl) as Hp. apply Qnot_lt_le in Hp. lra.
    + exfalso. destruct (loc_slice df i j); [destruct Hin | discriminate].
Qed.

(** ** The origin zone *)

Lemma find_origin_zone_some (self : detector) (df : DataFrame) (s : Z)
    (z : origin_zone) :
  find_origin_zone self df s = Ok (Some z) ->
  (zone_candles_min self <= candle_count z <= zone_candles_max self)%Z
  /\ (candle_count z <= s)%Z
  /\ qualifies (window df s (candle_count z))
  /\ series_min (map low (window df s (candle_count z)))
     = Some (oz_zone_low z)
  /\ series_max (map high (window df s (candle_count z)))
     = Some (oz_zone_high z).
Proof.
  unfold find_origin_zone.
  destruct (s <? zone_candles_min self)%Z eqn:E; [discriminate|].
  apply Z.ltb_ge in E. unfold zrange.
  set (b := Z.min (zone_candles_max self + 1) (s + 1)).
  destruct (origin_loop_spec df s (Z.to_nat (b - zone_candles_min self))
              (zone_candles_min self))
    as [(z' & Hz & Hk & Hq & _ & Hlo & Hhi)|[Hz _]];
    rewrite Hz; [|discriminate].
  intro H; injection H as <-. subst b.
  refine (conj _ (conj _ (conj Hq (conj Hlo Hhi)))); lia.
Qed.

Lemma origin_zone_proper_low_high (self : detector) (df : DataFrame) (s : Z)
    (z : origin_zone) :
  find_origin_zone self df s = Ok (Some z) ->
  oz_zone_low z < oz_zone_high z.
Proof.
  intro Hfind.
  destruct (find_origin_zone_some self df s z Hfind)
    as (_ & _ & [_ Hbal] & Hlo & Hhi).
  destruct Hbal as (lo & hi & f & l & E1 & E2 & _ & _ & Hb).
  rewrite Hlo in E1. rewrite Hhi in E2.
  injection E1 as <-. injection E2 as <-.
  pose proof (Qabs_nonneg (close l - close f)). lra.
Qed.

(** X9.  A zone returned by [find_origin_zone] is never degenerate: its
    low is strictly below its high.  Its window is not empty, every candle
    of the window lies between the two bounds, and each bound is the low,
    respectively the high, of a candle of the window.  For a start index
    inside the series the window has exactly [candle_count] candles, at
    least one. *)
Theorem origin_zone_proper (self : detector) (df : DataFrame) (s : Z)
    (z : origin_zone) :
  find_origin_zone self df s = Ok (Some z) ->
  let w := window df s (candle_count z) in
  oz_zone_low z < oz_zone_high z
  /\ w <> []
  /\ (forall c, In c w -> oz_zone_low z <= low c /\ high c <= oz_zone_high z)
  /\ (exists c, In c w /\ low c = oz_zone_low z)
  /\ (exists c, In c w /\ high c = oz_zone_high z)
  /\ ((0 <= s <= Z.of_nat (List.length df))%Z ->
      (1 <= candle_count z)%Z
      /\ List.length w = Z.to_nat (candle_count z)).
Proof.
  intros Hfind w.
  destruct (find_origin_zone_some self df s z Hfind)
    as (Hk & Hks & [_ Hbal] & Hlo & Hhi).
  fold w in Hbal, Hlo, Hhi.
  destruct (series_min_spec _ _ Hlo) as [Hlo_in Hlo_all].
  destruct (series_max_spec _ _ Hhi) as [Hhi_in Hhi_all].
  rewrite Forall_forall in Hlo_all, Hhi_all.
  assert (Hne : w <> []) by (intros E; rewrite E in Hlo; discriminate).
  split.
  { destruct Hbal as (lo & hi & f & l & E1 & E2 & _ & _ & Hb).
    rewrite Hlo in E1. rewrite Hhi in E2.
    injection E1 as <-. injection E2 as <-.
    pose proof (Qabs_nonneg (close l - close f)). lra. }
  split; [exact Hne|]. split.
  { intros c Hc. split;
      [apply Hlo_all, in_map, Hc | apply (Hhi_all (high c)), in_map, Hc]. }
  split.
  { apply in_map_iff in Hlo_in as (c & E & Hc). now exists c. }
  split.
  { apply in_map_iff in Hhi_in as (c & E & Hc). now exists c. }
  intros Hs.
  assert (Hlen : (1 <= List.length w)%nat)
    by (destruct w; [contradiction | cbn; lia]).
  assert (Hk1 : (1 <= candle_count z)%Z).
  { subst w. unfold window, iloc_slice, slice_bound in Hlen.
    rewrite length_firstn, length_skipn in Hlen.
    destruct (s - candle_count z <? 0)%Z eqn:E1; [apply Z.ltb_lt in E1; lia|].
    destruct (s <? 0)%Z eqn:E2; [apply Z.ltb_lt in E2; lia|].
    lia. }
  split; [exact Hk1|]. apply window_length; lia.
Qed.

(** ** The extracted zone *)

Lemma impulse_words (self : detector) (df : DataFrame) (atr : Q) (i j : nat) :
  (direction (impulse_of df atr i j) = "BULLISH"
   \/ direction (impulse_of df atr i j) = "BEARISH")
  /\ (strength (impulse_of df atr i j) = "HIGH"
      \/ strength (impulse_of df atr i j) = "MEDIUM").
Proof.
  cbn [impulse_of direction strength].
  split; [destruct (Qgt_bool (close_at df j) _) | destruct (Qgt_bool _ (2 * atr))];
    auto.
Qed.

(** What a non-empty result of [extract_zones] is made of. *)
Lemma extract_zones_some (self : detector) (df : DataFrame)
    (sym fdate tf : string) (zs : list zone) :
  extract_zones self df sym fdate tf = Ok zs -> zs <> [] ->
  exists atr imp oz c,
    calculate_atr df 14 = Ok atr
    /\ find_major_impulse self df atr = Ok (Some imp)
    /\ find_origin_zone self df (Z.of_nat (start_idx imp)) = Ok (Some oz)
    /\ nth_error df (end_idx imp) = Some c
    /\ moved_away oz c
    /\ zs = [zone_record sym fdate tf imp oz].
Proof.
  intros Hres Hne.
  destruct (Nat.lt_ge_cases (List.length df) 20) as [Hshort|Hlen].
  { unfold extract_zones in Hres. apply Nat.ltb_lt in Hshort.
    rewrite Hshort in Hres. injection Hres as <-. contradiction. }
  destruct (extract_zones_steps self df sym fdate tf Hlen)
    as (atr & r & Ha & Hr & H).
  destruct r as [imp|]; [|rewrite H in Hres; injection Hres as <-; contradiction].
  destruct H as (o & Ho & H).
  destruct o as [oz|]; [|rewrite H in Hres; injection Hres as <-; contradiction].
  destruct H as (b & Hb & H). rewrite H in Hres.
  destruct b; [|injection Hres as <-; contradiction].
  injection Hres as <-.
  destruct (impulse_found self df atr imp Hr) as (i & j & Ei & (_ & _ & Hj) & _).
  assert (Hend : (end_idx imp < List.length df)%nat) by (rewrite Ei; exact Hj).
  destruct (validate_zone_spec df oz imp Hend) as (c & Hc & _ & Hno).
  exists atr, imp, oz, c.
  refine (conj Ha (conj Hr (conj Ho (conj Hc (conj _ eq_refl))))).
  unfold moved_away.
  destruct (Qlt_le_dec
              (Qabs (close c - (oz_zone_low oz + oz_zone_high oz) / 2))
              (2 * (oz_zone_high oz - oz_zone_low oz))) as [Hlt|Hle];
    [|exact Hle].
  exfalso. assert (Hn : ~ moved_away oz c).
  { unfold moved_away. now apply Qlt_not_le. }
  rewrite (Hno Hn) in Hb. discriminate.
Qed.

(** X10.  [extract_zones] returns at most one zone.  That zone carries
    the symbol, fetch date and timeframe it was called with, its type is
    BULLISH or BEARISH, its impulse strength is HIGH or MEDIUM, and its low
    is strictly below its high. *)
Theorem extract_zones_shape (self : detector) (df : DataFrame)
    (sym fdate tf : string) (zs : list zone) :
  extract_zones self df sym fdate tf = Ok zs ->
  zs = []
  \/ exists z,
       zs = [z]
       /\ symbol z = sym /\ fetch_date z = fdate /\ timeframe z = tf
       /\ (zone_type z = "BULLISH" \/ zone_type z = "BEARISH")
       /\ (impulse_strength z = "HIGH" \/ impulse_strength z = "MEDIUM")
       /\ zone_low z < zone_high z.
Proof.
  intro Hres. destruct zs as [|z0 zs0] eqn:Ez; [now left|]. right.
  destruct (extract_zones_some self df sym fdate tf _ Hres)
    as (atr & imp & oz & c & _ & Hi & Ho & _ & _ & E); [discriminate|].
  rewrite E. eexists. split; [reflexivity|].
  cbn [zone_record symbol fetch_date timeframe zone_type impulse_strength
       zone_low zone_high].
  destruct (impulse_found self df atr imp Hi) as (i & j & -> & _).
  destruct (impulse_words self df atr i j) as [Hd Hs].
  pose proof (origin_zone_proper_low_high self df _ oz Ho) as Hlt.
  auto 10.
Qed.

(** X11.  When a zone is returned, the close of the impulse's end candle
    lies outside the zone, at least one and a half zone ranges beyond its
    nearer bound. *)
Theorem extracted_zone_left_behind (self : detector) (df : DataFrame)
    (sym fdate tf : string) (z : zone) :
  extract_zones self df sym fdate tf = Ok [z] ->
  exists atr imp c,
    calculate_atr df 14 = Ok atr
    /\ find_major_impulse self df atr = Ok (Some imp)
    /\ nth_error df (end_idx imp) = Some c
    /\ (close c <= zone_low z - 1.5 * (zone_high z - zone_low z)
        \/ zone_high z + 1.5 * (zone_high z - zone_low z) <= close c).
Proof.
  intro Hres.
  destruct (extract_zones_some self df sym fdate tf _ Hres)
    as (atr & imp & oz & c & Ha & Hi & Ho & Hc & Hm & E); [discriminate|].
  injection E as ->.
  exists atr, imp, c. refine (conj Ha (conj Hi (conj Hc _))).
  cbn [zone_record zone_low zone_high].
  pose proof (origin_zone_proper_low_high self df _ oz Ho) as Hlt.
  revert Hm. unfold moved_away, Qdiv. change (/ 2) with (1 # 2).
  apply Qabs_case; intros Hs Habs; [right|left]; lra.
Qed.

(** ** Instances *)

Lemma rally_impulse_found :
  find_major_impulse default_detector rally_day 4 = Ok (Some rally_impulse).
Proof. vm_compute. reflexivity. Qed.

Lemma rally_zone_extracted :
  extract_zones default_detector rally_day "SYM" "2026-01-28" "15minute"
  = Ok [zone_record "SYM" "2026-01-28" "15minute" rally_impulse rally_origin].
Proof. vm_compute. reflexivity. Qed.

Lemma calculate_atr_nonneg_witness :
  exists atr, calculate_atr rally_day 14 = Ok atr /\ 0 <= atr.
Proof.
  apply (proj1 (calculate_atr_nonneg rally_day 14)).
  cbn [List.length rally_day]. lia.
Defined.

Lemma impulse_found_iff_survivor_witness :
  pair_ok (List.length rally_day) 5 8
  /\ survives default_detector rally_day 4 5 8.
Proof.
  destruct (impulse_found_iff_survivor default_detector rally_day 4)
    as [_ H].
  - qdecide.
  - destruct (H rally_impulse rally_impulse_found) as (H1 & H2 & _).
    exact (conj H1 H2).
Defined.

Lemma impulse_pullback_bound_witness :
  exists cs, nth_error rally_day 5 = Some cs.
Proof.
  destruct (impulse_pullback_bound default_detector rally_day 4
              rally_impulse rally_impulse_found) as (cs & H & _).
  exists cs. exact H.
Defined.

Lemma origin_zone_proper_witness :
  oz_zone_low rally_origin < oz_zone_high rally_origin.
Proof.
  apply (origin_zone_proper default_detector rally_day 5 rally_origin).
  vm_compute. reflexivity.
Defined.

Lemma extract_zones_shape_witness :
  exists z,
    [zone_record "SYM" "2026-01-28" "15minute" rally_impulse rally_origin]
    = [z]
    /\ zone_low z < zone_high z.
Proof.
  destruct (extract_zones_shape default_detector rally_day
              "SYM" "2026-01-28" "15minute" _ rally_zone_extracted)
    as [H|(z & Hz & _ & _ & _ & _ & _ & Hlt)].
  - discriminate H.
  - exists z. exact (conj Hz Hlt).
Defined.

Lemma extracted_zone_left_behind_witness :
  exists atr imp c,
    calculate_atr rally_day 14 = Ok atr
    /\ find_major_impulse default_detector rally_day atr = Ok (Some imp)
    /\ nth_error rally_day (end_idx imp) = Some c.
Proof.
  destruct (extracted_zone_left_behind default_detector rally_day
              "SYM" "2026-01-28" "15minute" _ rally_zone_extracted)
    as (atr & imp & c & Ha & Hi & Hc & _).
  exists atr, imp, c. exact (conj Ha (conj Hi Hc)).
Defined.

End ZoneExtras.


(* ================================================================== *)
(** * DateManager: ordinals, trading days and ranges *)

Module DateExtras.
Import DateManager DateFacts.
Local Open Scope string_scope.
Local Open Scope list_scope.
Local Open Scope Z_scope.

(** ** Day numbers *)

Definition leap_day (y : Z) : Z := if is_leap y then 1 else 0.

Lemma days_before_month_13 (y : Z) :
  days_before_month y 13 = 365 + leap_day y.
Proof.
  unfold days_before_month, leap_day.
  change (Z.to_nat (13 - 1)) with 12%nat.
  cbn [days_before_month_aux]. unfold days_in_month.
  cbn [Z.of_nat Pos.of_succ_nat Pos.succ Z.eqb Pos.eqb orb].
  destruct (is_leap y); reflexivity.
Qed.

Lemma days_before_month_succ (y m : Z) :
  1 <= m ->
  days_before_month y (m + 1) = days_before_month y m + days_in_month y m.
Proof.
  intro H. unfold days_before_month.
  replace (Z.to_nat (m + 1 - 1)) with (S (Z.to_nat (m - 1))) by lia.
  cbn [days_before_month_aux].
  now replace (Z.of_nat (S (Z.to_nat (m - 1)))) with m by lia.
Qed.

Lemma days_before_month_aux_mono (y : Z) (n k : nat) :
  days_before_month_aux y n <= days_before_month_aux y (n + k).
Proof.
  induction k as [|k IH]; [rewrite Nat.add_0_r; lia|].
  rewrite Nat.add_succ_r. cbn [days_before_month_aux].
  pose proof (days_in_month_bounds y (Z.of_nat (S (n + k)))). lia.
Qed.

Lemma days_before_month_mono (y a b : Z) :
  1 <= a <= b -> days_before_month y a <= days_before_month y b.
Proof.
  intro H. unfold days_before_month.
  replace (Z.to_nat (b - 1)) with (Z.to_nat (a - 1) + Z.to_nat (b - a))%nat
    by lia.
  apply days_before_month_aux_mono.
Qed.

Lemma days_before_year_succ (y : Z) :
  days_before_year (y + 1) = days_before_year y + 365 + leap_day y.
Proof.
  unfold days_before_year, leap_day, is_leap.
  replace (y + 1 - 1) with y by lia.
  destruct (y mod 4 =? 0) eqn:E4; destruct (y mod 100 =? 0) eqn:E100;
    destruct (y mod 400 =? 0) eqn:E400; cbn [negb andb orb];
    rewrite ?Z.eqb_eq, ?Z.eqb_neq in *;
    Z.div_mod_to_equations; lia.
Qed.

Lemma days_before_year_mono (a b : Z) :
  a <= b -> days_before_year a <= days_before_year b.
Proof.
  intro H. unfold days_before_year. Z.div_mod_to_equations. lia.
Qed.

Lemma leap_day_bounds (y : Z) : 0 <= leap_day y <= 1.
Proof. unfold leap_day. destruct (is_leap y); lia. Qed.

(** The day of the year of a valid date lies in the year. *)
Lemma day_of_year_bounds (d : datetime) :
  valid_date d ->
  1 <= days_before_month (year d) (month d) + day d <= 365 + leap_day (year d).
Proof.
  intros (Hy & Hm & Hd). split.
  - pose proof (days_before_month_mono (year d) 1 (month d)) as H.
    change (days_before_month (year d) 1) with 0 in H. lia.
  - rewrite <- days_before_month_13.
    pose proof (days_before_month_succ (year d) (month d)) as Hs.
    pose proof (days_before_month_mono (year d) (month d + 1) 13). lia.
Qed.

Lemma toordinal_pos (d : datetime) : valid_date d -> 1 <= toordinal d.
Proof.
  intro H. pose proof (day_of_year_bounds d H).
  destruct H as (Hy & _).
  pose proof (days_before_year_mono 1 (year d)).
  change (days_before_year 1) with 0 in *.
  unfold toordinal. lia.
Qed.

(** Calendar order is the order of the day numbers. *)
Lemma toordinal_lt (a b : datetime) :
  valid_date a -> valid_date b ->
  datetime_gtb b a = true -> toordinal a < toordinal b.
Proof.
  intros Ha Hb H.
  pose proof (day_of_year_bounds a Ha) as Da.
  pose proof (day_of_year_bounds b Hb) as Db.
  unfold datetime_gtb in H. unfold toordinal.
  apply orb_true_iff in H as [H|H].
  - apply Z.ltb_lt in H.
    pose proof (days_before_year_succ (year a)).
    pose proof (days_before_year_mono (year a + 1) (year b)). lia.
  - apply andb_true_iff in H as [Hy H]. apply Z.eqb_eq in Hy. rewrite <- Hy.
    apply orb_true_iff in H as [H|H].
    + apply Z.ltb_lt in H.
      destruct Ha as (_ & Hma & Hda). destruct Hb as (_ & _ & Hdb).
      pose proof (days_before_month_succ (year a) (month a)).
      pose proof (days_before_month_mono (year a) (month a + 1) (month b)).
      lia.
    + apply andb_true_iff in H as [Hm H].
      apply Z.eqb_eq in Hm. apply Z.ltb_lt in H. rewrite Hm. lia.
Qed.

Lemma datetime_trichotomy (a b : datetime) :
  datetime_gtb a b = true \/ a = b \/ datetime_gtb b a = true.
Proof.
  unfold datetime_gtb. destruct a as [ya ma da], b as [yb mb db]. cbn.
  destruct (Z.lt_trichotomy ya yb) as [H|[H|H]].
  - right. right. apply Z.ltb_lt in H. now rewrite H.
  - subst yb. rewrite Z.ltb_irrefl, Z.eqb_refl. cbn.
    destruct (Z.lt_trichotomy ma mb) as [H|[H|H]].
    + right. right. apply Z.ltb_lt in H. now rewrite H.
    + subst mb. rewrite Z.ltb_irrefl, Z.eqb_refl. cbn.
      destruct (Z.lt_trichotomy da db) as [H|[H|H]].
      * right. right. apply Z.ltb_lt in H. now rewrite H.
      * subst db. right. now left.
      * left. apply Z.ltb_lt in H. now rewrite H.
    + left. apply Z.ltb_lt in H. now rewrite H.
  - left. apply Z.ltb_lt in H. now rewrite H.
Qed.

Lemma datetime_gtb_iff (a b : datetime) :
  valid_date a -> valid_date b ->
  (datetime_gtb a b = true <-> toordinal b < toordinal a).
Proof.
  intros Ha Hb. split; [now apply toordinal_lt|].
  intro H. destruct (datetime_trichotomy a b) as [G|[->|G]]; [exact G|lia|].
  pose proof (toordinal_lt a b Ha Hb G). lia.
Qed.

Lemma datetime_leb_iff (a b : datetime) :
  valid_date a -> valid_date b ->
  (datetime_leb a b = true <-> toordinal a <= toordinal b).
Proof.
  intros Ha Hb. unfold datetime_leb. rewrite negb_true_iff.
  pose proof (datetime_gtb_iff a b Ha Hb) as H.
  destruct (datetime_gtb a b); split; intro G; try discriminate; try reflexivity.
  - assert (toordinal b < toordinal a) by now apply H. lia.
  - destruct (Z.le_gt_cases (toordinal a) (toordinal b)); [assumption|].
    assert (false = true) by (apply H; lia). discriminate.
Qed.

Lemma toordinal_inj (a b : datetime) :
  valid_date a -> valid_date b -> toordinal a = toordinal b -> a = b.
Proof.
  intros Ha Hb H. destruct (datetime_trichotomy a b) as [G|[->|G]];
    [|reflexivity|].
  - pose proof (toordinal_lt b a Hb Ha G). lia.
  - pose proof (toordinal_lt a b Ha Hb G). lia.
Qed.

(** ** One day back, one day forward *)

Lemma toordinal_sub_one_day (d d' : datetime) :
  valid_date d -> sub_one_day d = Ok d' -> toordinal d' = toordinal d - 1.
Proof.
  intros (Hy & Hm & Hd). unfold sub_one_day, toordinal.
  destruct (1 <? day d) eqn:E1.
  - intro H; injection H as <-. cbn [year month day]. lia.
  - apply Z.ltb_ge in E1. destruct (1 <? month d) eqn:E2.
    + apply Z.ltb_lt in E2. intro H; injection H as <-. cbn [year month day].
      pose proof (days_before_month_succ (year d) (month d - 1)) as Hs.
      replace (month d - 1 + 1) with (month d) in Hs by lia. lia.
    + apply Z.ltb_ge in E2. destruct (1 <? year d) eqn:E3; [|discriminate].
      intro H; injection H as <-. cbn [year month day].
      assert (Em : month d = 1) by lia. rewrite Em.
      change (days_before_month (year d) 1) with 0.
      pose proof (days_before_year_succ (year d - 1)) as Hs.
      replace (year d - 1 + 1) with (year d) in Hs by lia.
      pose proof (days_before_month_13 (year d - 1)) as H13.
      pose proof (days_before_month_succ (year d - 1) 12) as H12.
      change (12 + 1) with 13 in H12.
      change (days_in_month (year d - 1) 12) with 31 in H12. lia.
Qed.

Lemma sub_one_day_raises (d : datetime) (e : exn) :
  valid_date d -> sub_one_day d = Raise e ->
  d = mkdt 1 1 1 /\ e = OverflowError.
Proof.
  intros (Hy & Hm & Hd). unfold sub_one_day.
  destruct (1 <? day d) eqn:E1; [discriminate|].
  destruct (1 <? month d) eqn:E2; [discriminate|].
  destruct (1 <? year d) eqn:E3; [discriminate|].
  apply Z.ltb_ge in E1, E2, E3. intro H; injection H as <-.
  split; [|reflexivity]. destruct d as [y m dd]. cbn in *. f_equal; lia.
Qed.

Lemma toordinal_add_one_day (d d' : datetime) :
  valid_date d -> add_one_day d = Ok d' ->
  valid_date d' /\ toordinal d' = toordinal d + 1.
Proof.
  intros (Hy & Hm & Hd). unfold add_one_day, toordinal, valid_date.
  destruct (day d <? days_in_month (year d) (month d)) eqn:E1.
  - apply Z.ltb_lt in E1. intro H; injection H as <-. cbn [year month day]. lia.
  - apply Z.ltb_ge in E1. destruct (month d <? 12) eqn:E2.
    + apply Z.ltb_lt in E2. intro H; injection H as <-. cbn [year month day].
      pose proof (days_before_month_succ (year d) (month d)).
      pose proof (days_in_month_bounds (year d) (month d + 1)). lia.
    + apply Z.ltb_ge in E2. destruct (year d <? 9999) eqn:E3; [|discriminate].
      apply Z.ltb_lt in E3. intro H; injection H as <-. cbn [year month day].
      change (days_before_month (year d + 1) 1) with 0.
      change (days_in_month (year d + 1) 1) with 31.
      assert (Em : month d = 12) by lia. rewrite Em in *.
      change (days_in_month (year d) 12) with 31 in *.
      pose proof (days_before_year_succ (year d)).
      pose proof (days_before_month_13 (year d)) as H13.
      pose proof (days_before_month_succ (year d) 12) as H12.
      change (12 + 1) with 13 in H12.
      change (days_in_month (year d) 12) with 31 in H12. lia.
Qed.

Lemma add_one_day_raises (d : datetime) (e : exn) :
  valid_date d -> add_one_day d = Raise e ->
  d = mkdt 9999 12 31 /\ e = OverflowError.
Proof.
  intros (Hy & Hm & Hd). unfold add_one_day.
  destruct (day d <? days_in_month (year d) (month d)) eqn:E1; [discriminate|].
  destruct (month d <? 12) eqn:E2; [discriminate|].
  destruct (year d <? 9999) eqn:E3; [discriminate|].
  apply Z.ltb_ge in E1, E2, E3. intro H; injection H as <-.
  split; [|reflexivity].
  assert (Em : month d = 12) by lia. rewrite Em in *.
  change (days_in_month (year d) 12) with 31 in *.
  destruct d as [y m dd]. cbn in *. f_equal; lia.
Qed.

(** ** Trading days *)

Lemma weekday_range (d : datetime) : 0 <= weekday d < 7.
Proof. unfold weekday. apply Z.mod_pos_bound. lia. Qed.

Lemma weekday_sub_one_day (d d' : datetime) :
  valid_date d -> sub_one_day d = Ok d' ->
  weekday d' = (weekday d + 6) mod 7.
Proof.
  intros Hv Hs. unfold weekday.
  rewrite (toordinal_sub_one_day d d' Hv Hs).
  Z.div_mod_to_equations. lia.
Qed.

(** Every date of the holiday table lies in 2026. *)
Lemma holiday_in_2026 (d : datetime) :
  valid_date d ->
  existsb (String.eqb (strftime d)) NSE_HOLIDAYS_2026 = true ->
  year d = 2026.
Proof.
  intros Hv H. apply existsb_exists in H as (x & Hin & E).
  apply String.eqb_eq in E.
  assert (R : exists d', strptime x = Ok d' /\ year d' = 2026).
  { unfold NSE_HOLIDAYS_2026 in Hin. cbn [In] in Hin.
    repeat (destruct Hin as [<-|Hin];
            [eexists; split; [vm_compute; reflexivity | reflexivity]|]).
    destruct Hin. }
  destruct R as (d' & R & Hy). rewrite <- E in R.
  destruct (strptime_strftime_inv d d' Hv R) as [_ ->]. exact Hy.
Qed.

Lemma is_trading_day_away (d : datetime) :
  valid_date d -> year d <> 2026 -> is_trading_day d = (weekday d <? 5).
Proof.
  intros Hv Hy. unfold is_trading_day.
  destruct (5 <=? weekday d) eqn:E.
  - apply Z.leb_le in E. symmetry. now apply Z.ltb_ge.
  - apply Z.leb_gt in E. destruct (existsb _ _) eqn:Eh.
    + now apply holiday_in_2026 in Eh.
    + symmetry. now apply Z.ltb_lt.
Qed.

(** X12.  A weekend day is never a trading day, and outside the year 2026
    (the only year of the holiday table) a date is a trading day exactly
    when it is a weekday. *)
Theorem is_trading_day_weekday (d : datetime) :
  valid_date d ->
  (5 <= weekday d -> is_trading_day d = false)
  /\ (year d <> 2026 -> (is_trading_day d = true <-> weekday d < 5)).
Proof.
  intro Hv. split.
  - intro H. unfold is_trading_day. apply Z.leb_le in H. now rewrite H.
  - intro Hy. rewrite (is_trading_day_away d Hv Hy). apply Z.ltb_lt.
Qed.

(** [k] days back. *)
Fixpoint back_days (k : nat) (d : datetime) : result datetime :=
  match k with
  | O => Ok d
  | S k' => c <- sub_one_day d ;; back_days k' c
  end.

Lemma back_days_spec (k : nat) (d c : datetime) :
  valid_date d -> back_days k d = Ok c ->
  valid_date c /\ toordinal c = toordinal d - Z.of_nat k.
Proof.
  revert d. induction k as [|k IH]; intros d Hv H; cbn [back_days] in H.
  - injection H as <-. split; [exact Hv | lia].
  - apply bind_Ok in H as (c1 & H1 & H).
    pose proof (sub_one_day_valid d c1 Hv H1) as Hv1.
    pose proof (toordinal_sub_one_day d c1 Hv H1) as Ho.
    destruct (IH c1 Hv1 H) as [Hvc Hoc]. split; [exact Hvc | lia].
Qed.

(** A trading day occurs among a date and the four days before it. *)
Definition trading_nearby (d : datetime) : bool :=
  existsb (fun k => match back_days k d with
                    | Ok c => is_trading_day c
                    | Raise _ => false
                    end)
          [0; 1; 2; 3; 4]%nat.

Definition all_dates (P : datetime -> bool) (y0 y1 : Z) : bool :=
  forallb (fun y =>
    forallb (fun m =>
      forallb (fun dd => implb (valid_dateb (mkdt y m dd)) (P (mkdt y m dd)))
              (zrange 1 32))
            (zrange 1 13))
          (zrange y0 y1).

Lemma all_dates_spec (P : datetime -> bool) (y0 y1 : Z) (d : datetime) :
  all_dates P y0 y1 = true ->
  valid_date d -> y0 <= year d < y1 -> P d = true.
Proof.
  intros H Hv Hy. pose proof Hv as (_ & Hm & Hd).
  pose proof (days_in_month_bounds (year d) (month d)).
  unfold all_dates in H. rewrite forallb_forall in H.
  specialize (H (year d)). rewrite forallb_forall in H.
  specialize (H ltac:(apply in_zrange; lia) (month d)).
  rewrite forallb_forall in H.
  specialize (H ltac:(apply in_zrange; lia) (day d) ltac:(apply in_zrange; lia)).
  apply valid_dateb_iff in Hv.
  destruct d as [y m dd]. cbn [year month day] in H. rewrite Hv in H.
  exact H.
Qed.

Lemma trading_nearby_2026_2027 : all_dates trading_nearby 2026 2028 = true.
Proof. vm_compute. reflexivity. Qed.

Lemma first_day_trading : is_trading_day (mkdt 1 1 1) = true.
Proof. vm_compute. reflexivity. Qed.

Lemma year_le_of_ordinal (c d : datetime) :
  valid_date c -> valid_date d -> toordinal c <= toordinal d ->
  year c <= year d.
Proof.
  intros Hc Hd H. destruct (Z.le_gt_cases (year c) (year d)) as [G|G];
    [exact G|].
  assert (L : datetime_gtb c d = true).
  { unfold datetime_gtb. apply Z.ltb_lt in G. now rewrite G. }
  pose proof (toordinal_lt d c Hd Hc L). lia.
Qed.

Lemma ordinal_of_year (d : datetime) :
  valid_date d ->
  days_before_year (year d) < toordinal d <= days_before_year (year d + 1).
Proof.
  intro Hv. pose proof (day_of_year_bounds d Hv).
  pose proof (days_before_year_succ (year d)). unfold toordinal. lia.
Qed.

(** Away from 2026 and 2027 the days just before a date are not in 2026. *)
Lemma not_2026_nearby (d c : datetime) :
  valid_date d -> valid_date c ->
  year d < 2026 \/ 2028 <= year d ->
  toordinal d - 4 <= toordinal c <= toordinal d ->
  year c <> 2026.
Proof.
  intros Hd Hc Hy Ho. destruct Hy as [Hy|Hy].
  - pose proof (year_le_of_ordinal c d Hc Hd). lia.
  - pose proof (ordinal_of_year d Hd) as Od.
    pose proof (ordinal_of_year c Hc) as Oc.
    pose proof (days_before_year_mono 2028 (year d) Hy).
    intro E. rewrite E in Oc.
    assert (D : days_before_year 2028 = days_before_year (2026 + 1) + 365)
      by reflexivity.
    lia.
Qed.

Lemma trading_nearby_spec (d : datetime) :
  valid_date d ->
  exists c, valid_date c /\ is_trading_day c = true
            /\ toordinal d - 4 <= toordinal c <= toordinal d.
Proof.
  intro Hv.
  destruct (Z.lt_ge_cases (year d) 2026) as [Hy|Hy];
    [|destruct (Z.lt_ge_cases (year d) 2028) as [Hy'|Hy']].
  2:{ (* 2026 and 2027: by evaluation *)
      pose proof (all_dates_spec _ _ _ d trading_nearby_2026_2027 Hv
                    (conj Hy Hy')) as H.
      unfold trading_nearby in H. apply existsb_exists in H as (k & Hk & H).
      destruct (back_days k d) as [c|] eqn:Eb; [|discriminate].
      destruct (back_days_spec k d c Hv Eb) as [Hvc Hoc].
      exists c. split; [exact Hvc|]. split; [exact H|].
      cbn [In] in Hk. lia. }
  all: assert (Hfar : year d < 2026 \/ 2028 <= year d) by lia.
  all: pose proof (weekday_range d) as Hw.
  all: destruct (Z.lt_ge_cases (weekday d) 5) as [W|W].
  all: try (exists d; split; [exact Hv|]; split; [|lia];
            rewrite (is_trading_day_away d Hv) by lia;
            now apply Z.ltb_lt).
  all: destruct (sub_one_day d) as [c1|e] eqn:E1;
         [|apply (sub_one_day_raises d e Hv) in E1 as [-> _];
           vm_compute in W; exfalso; apply W; reflexivity].
  all: pose proof (sub_one_day_valid d c1 Hv E1) as Hv1.
  all: pose proof (toordinal_sub_one_day d c1 Hv E1) as O1.
  all: pose proof (weekday_sub_one_day d c1 Hv E1) as W1.
  all: destruct (Z.lt_ge_cases (weekday c1) 5) as [V|V].
  all: try (exists c1; split; [exact Hv1|]; split; [|lia];
            rewrite (is_trading_day_away c1 Hv1)
              by (apply (not_2026_nearby d c1 Hv Hv1 Hfar); lia);
            now apply Z.ltb_lt).
  all: destruct (sub_one_day c1) as [c2|e] eqn:E2;
         [|apply (sub_one_day_raises c1 e Hv1) in E2 as [-> _];
           vm_compute in V; exfalso; apply V; reflexivity].
  all: pose proof (sub_one_day_valid c1 c2 Hv1 E2) as Hv2.
  all: pose proof (toordinal_sub_one_day c1 c2 Hv1 E2) as O2.
  all: pose proof (weekday_sub_one_day c1 c2 Hv1 E2) as W2.
  all: exists c2; split; [exact Hv2|]; split; [|lia].
  all: rewrite (is_trading_day_away c2 Hv2)
         by (apply (not_2026_nearby d c2 Hv Hv2 Hfar); lia).
  all: apply Z.ltb_lt; revert W1 W2; Z.div_mod_to_equations; lia.
Qed.

(** What the look-back loop returns: the first trading day it meets, or
    the fallback after [n] days without one. *)
Lemma lookback_loop_result (date : datetime) (n : nat) (cur res : datetime) :
  valid_date cur -> lookback_loop n date cur = Ok res ->
  (valid_date res /\ is_trading_day res = true
   /\ toordinal res <= toordinal cur
   /\ forall c, valid_date c -> toordinal res < toordinal c <= toordinal cur ->
                is_trading_day c = false)
  \/ (forall c, valid_date c ->
                toordinal cur - Z.of_nat n < toordinal c <= toordinal cur ->
                is_trading_day c = false).
Proof.
  revert cur. induction n as [|n IH]; intros cur Hv H; cbn [lookback_loop] in H.
  - right. intros c _ Hc. lia.
  - destruct (is_trading_day cur) eqn:Et.
    + injection H as <-. left.
      refine (conj Hv (conj Et (conj (Z.le_refl _) _))). intros c _ Hc. lia.
    + apply bind_Ok in H as (c1 & H1 & H).
      pose proof (sub_one_day_valid cur c1 Hv H1) as Hv1.
      pose proof (toordinal_sub_one_day cur c1 Hv H1) as O1.
      assert (Hcur : forall c, valid_date c -> toordinal c = toordinal cur ->
                               is_trading_day c = false).
      { intros c Hc E. now rewrite (toordinal_inj c cur Hc Hv E). }
      destruct (IH c1 Hv1 H) as [(Hr & Htr & Hle & Hfirst)|Hnone].
      * left. refine (conj Hr (conj Htr (conj _ _))); [lia|].
        intros c Hc Ho.
        destruct (Z.eq_dec (toordinal c) (toordinal cur)) as [E|E];
          [now apply Hcur | apply Hfirst; [exact Hc | lia]].
      * right. intros c Hc Ho.
        destruct (Z.eq_dec (toordinal c) (toordinal cur)) as [E|E];
          [now apply Hcur | apply Hnone; [exact Hc | lia]].
Qed.

Lemma lookback_loop_raises (date : datetime) (n : nat) (cur : datetime)
    (e : exn) :
  valid_date cur -> lookback_loop n date cur = Raise e ->
  forall c, valid_date c ->
            toordinal cur - Z.of_nat n < toordinal c <= toordinal cur ->
            is_trading_day c = false.
Proof.
  revert cur. induction n as [|n IH]; intros cur Hv H; cbn [lookback_loop] in H.
  - intros c _ Hc. lia.
  - destruct (is_trading_day cur) eqn:Et; [discriminate|].
    destruct (sub_one_day cur) as [c1|e1] eqn:H1.
    + cbn [bind] in H.
      pose proof (sub_one_day_valid cur c1 Hv H1) as Hv1.
      pose proof (toordinal_sub_one_day cur c1 Hv H1) as O1.
      intros c Hc Ho.
      destruct (Z.eq_dec (toordinal c) (toordinal cur)) as [E|E].
      * now rewrite (toordinal_inj c cur Hc Hv E).
      * apply (IH c1 Hv1 H c Hc). lia.
    + apply (sub_one_day_raises cur e1 Hv) in H1 as [-> _].
      rewrite first_day_trading in Et. discriminate.
Qed.

Lemma previous_trading_day_raises (d : datetime) (e : exn) :
  valid_date d -> get_previous_trading_day d = Raise e ->
  d = mkdt 1 1 1 /\ e = OverflowError.
Proof.
  intros Hv. unfold get_previous_trading_day.
  destruct (sub_one_day d) as [c1|e1] eqn:E1; cbn [bind].
  - intro El. exfalso.
    pose proof (sub_one_day_valid d c1 Hv E1) as Hv1.
    destruct (trading_nearby_spec c1 Hv1) as (t & Hvt & Ht & Hot).
    pose proof (lookback_loop_raises d max_lookback c1 e Hv1 El t Hvt) as H.
    rewrite H in Ht by (unfold max_lookback; lia). discriminate.
  - intro H; injection H as <-. exact (sub_one_day_raises d e1 Hv E1).
Qed.

Lemma previous_trading_day_found (d p : datetime) :
  valid_date d -> get_previous_trading_day d = Ok p ->
  valid_date p
  /\ is_trading_day p = true
  /\ toordinal d - 5 <= toordinal p < toordinal d
  /\ forall c, valid_date c -> toordinal p < toordinal c < toordinal d ->
               is_trading_day c = false.
Proof.
  intros Hv. unfold get_previous_trading_day. intro H.
  apply bind_Ok in H as (c1 & E1 & El).
  pose proof (sub_one_day_valid d c1 Hv E1) as Hv1.
  pose proof (toordinal_sub_one_day d c1 Hv E1) as O1.
  destruct (trading_nearby_spec c1 Hv1) as (t & Hvt & Ht & Hot).
  destruct (lookback_loop_result d max_lookback c1 p Hv1 El)
    as [(Hr & Htr & Hle & Hfirst)|Hnone].
  - refine (conj Hr (conj Htr (conj _ _))).
    + split; [|lia].
      destruct (Z.le_gt_cases (toordinal t) (toordinal p)); [lia|].
      rewrite (Hfirst t Hvt) in Ht by lia. discriminate.
    + intros c Hc Ho. apply Hfirst; [exact Hc | lia].
  - rewrite (Hnone t Hvt) in Ht by (unfold max_lookback; lia). discriminate.
Qed.

(** X13.  [get_previous_trading_day] raises only for 0001-01-01 (the
    subtraction overflows); for every other date it returns the latest
    trading day strictly before the date: a trading day one to five days
    back, with no trading day in between.  The fallback after ten
    look-backs never replaces a trading day. *)
Theorem previous_trading_day_spec (d : datetime) :
  valid_date d ->
  (d = mkdt 1 1 1 /\ get_previous_trading_day d = Raise OverflowError)
  \/ exists p,
       get_previous_trading_day d = Ok p
       /\ valid_date p
       /\ is_trading_day p = true
       /\ toordinal d - 5 <= toordinal p < toordinal d
       /\ forall c, valid_date c -> toordinal p < toordinal c < toordinal d ->
                    is_trading_day c = false.
Proof.
  intro Hv. destruct (get_previous_trading_day d) as [p|e] eqn:E.
  - right. exists p. split; [reflexivity|].
    exact (previous_trading_day_found d p Hv E).
  - left. destruct (previous_trading_day_raises d e Hv E) as [-> ->].
    now split.
Qed.

(** ** The Fetch Day *)

Lemma second_day_trading : is_trading_day (mkdt 1 1 2) = true.
Proof. vm_compute. reflexivity. Qed.

(** Two trading days back. *)
Lemma back_loop_two (d : datetime) :
  valid_date d ->
  (toordinal d <= 2 /\ back_loop 2 d = Raise OverflowError)
  \/ (2 < toordinal d
      /\ exists fd,
           back_loop 2 d = Ok fd
           /\ valid_date fd
           /\ is_trading_day fd = true
           /\ toordinal d - 10 <= toordinal fd <= toordinal d - 2).
Proof.
  intro Hv. cbn [back_loop].
  destruct (get_previous_trading_day d) as [d1|e] eqn:E1; cbn [bind].
  2:{ left. destruct (previous_trading_day_raises d e Hv E1) as [-> ->].
      split; [vm_compute; discriminate | reflexivity]. }
  destruct (previous_trading_day_found d d1 Hv E1) as (Hv1 & T1 & O1 & F1).
  destruct (get_previous_trading_day d1) as [d2|e] eqn:E2; cbn [bind].
  2:{ left. destruct (previous_trading_day_raises d1 e Hv1 E2) as [-> ->].
      split; [|reflexivity].
      destruct (Z.le_gt_cases (toordinal d) 2) as [H|H]; [exact H|].
      exfalso.
      assert (V2 : valid_date (mkdt 1 1 2)) by (apply valid_dateb_iff; reflexivity).
      pose proof second_day_trading as T.
      rewrite (F1 (mkdt 1 1 2) V2) in T; [discriminate|].
      change (toordinal (mkdt 1 1 1)) with 1.
      change (toordinal (mkdt 1 1 2)) with 2. lia. }
  destruct (previous_trading_day_found d1 d2 Hv1 E2) as (Hv2 & T2 & O2 & _).
  right. pose proof (toordinal_pos d2 Hv2). split; [lia|].
  exists d2. refine (conj eq_refl (conj Hv2 (conj T2 _))). lia.
Qed.

Lemma strftime_length (d : datetime) :
  (1000 <= year d -> String.length (strftime d) = 10%nat)
  /\ (year d < 1000 -> (String.length (strftime d) < 10)%nat).
Proof.
  unfold strftime, decimal_year.
  destruct (year d <? 10) eqn:E1; [|destruct (year d <? 100) eqn:E2;
    [|destruct (year d <? 1000) eqn:E3]];
    cbn [append pad4 pad2 String.length]; split; intro H;
    try apply Z.ltb_lt in E1; try apply Z.ltb_lt in E2;
    try apply Z.ltb_lt in E3; try apply Z.ltb_ge in E3; lia.
Qed.

(** X14.  For a parseable Execute Day, [calculate_fetch_day] raises
    OverflowError exactly for the first two days of year 1; otherwise it
    returns the formatted form of a trading day that lies at least two and
    at most ten calendar days before the Execute Day.  For a Fetch Day of
    year 1000 or later that string has ten characters and parses back to
    the day; for an earlier Fetch Day it is shorter and does not parse. *)
Theorem calculate_fetch_day_spec (s : string) (d : datetime) :
  strptime s = Ok d ->
  (toordinal d <= 2 /\ calculate_fetch_day s = Raise OverflowError)
  \/ (2 < toordinal d
      /\ exists fd,
           calculate_fetch_day s = Ok (strftime fd)
           /\ valid_date fd
           /\ is_trading_day fd = true
           /\ datetime_gtb d fd = true
           /\ toordinal d - 10 <= toordinal fd <= toordinal d - 2
           /\ (1000 <= year fd ->
               String.length (strftime fd) = 10%nat
               /\ strptime (strftime fd) = Ok fd)
           /\ (year fd < 1000 ->
               (String.length (strftime fd) < 10)%nat
               /\ strptime (strftime fd)
                  = Raise (ValueError (NoFormatMatch (strftime fd))))).
Proof.
  intro Hs. pose proof (strptime_valid s d Hs) as Hv.
  unfold calculate_fetch_day. rewrite Hs. cbn [bind].
  destruct (back_loop_two d Hv) as [[Ho ->]|(Ho & fd & -> & Hvf & Tf & Of)].
  - left. now split.
  - right. split; [exact Ho|]. exists fd. cbn [bind].
    split; [reflexivity|]. split; [exact Hvf|]. split; [exact Tf|].
    split; [apply (datetime_gtb_iff d fd Hv Hvf); lia|].
    split; [exact Of|].
    destruct (strftime_length fd) as [L1 L2]. split; intro Hy.
    + split; [exact (L1 Hy) | now apply strptime_strftime].
    + split; [exact (L2 Hy) | now apply strptime_strftime_early].
Qed.

(** X15.  Whatever [validate_execute_day] returns is either
    [(True, fetch_day, None)], where the Fetch Day is a trading day not
    later than today and two to ten calendar days before the Execute Day,
    or [(False, None, error)] with an error message. *)
Theorem validate_execute_day_shape (today : datetime) (s : string)
    (ok : bool) (fetch_day : option string) (err : option error_message) :
  validate_execute_day today s = Ok (ok, fetch_day, err) ->
  (ok = true /\ err = None
   /\ exists f d fd,
        fetch_day = Some f
        /\ strptime s = Ok d /\ strptime f = Ok fd
        /\ is_trading_day fd = true
        /\ datetime_gtb fd today = false
        /\ toordinal d - 10 <= toordinal fd <= toordinal d - 2)
  \/ (ok = false /\ fetch_day = None /\ exists m, err = Some m).
Proof.
  unfold validate_execute_day, validate_execute_day_body.
  destruct (strptime s) as [d|x] eqn:Hs; cbn [bind].
  2:{ destruct (strptime_raises s x Hs) as [e ->].
      intro H; injection H as <- <- <-. right. eauto. }
  pose proof (strptime_valid s d Hs) as Hv.
  unfold calculate_fetch_day. rewrite Hs. cbn [bind].
  destruct (back_loop_two d Hv) as [[Ho ->]|(Ho & fd & -> & Hvf & Tf & Of)];
    cbn [bind]; [discriminate|].
  destruct (Z.lt_ge_cases (year fd) 1000) as [Hy|Hy].
  { rewrite (strptime_strftime_early fd Hy). cbn [bind].
    intro H; injection H as <- <- <-. right. eauto. }
  rewrite (strptime_strftime fd Hvf Hy). cbn [bind].
  destruct (datetime_gtb fd today) eqn:Eg; intro H; injection H as <- <- <-.
  - right. eauto.
  - left. split; [reflexivity|]. split; [reflexivity|].
    exists (strftime fd), d, fd.
    refine (conj eq_refl (conj eq_refl (conj _ (conj Tf (conj Eg Of))))).
    now apply strptime_strftime.
Qed.

(** ** Trading days between two dates *)

Definition chronological (days : list datetime) : Prop :=
  StronglySorted (fun a b => datetime_gtb b a = true) days.

Lemma last_day_greatest (d : datetime) :
  valid_date d -> toordinal d <= toordinal (mkdt 9999 12 31).
Proof.
  intro Hv.
  assert (Vm : valid_date (mkdt 9999 12 31))
    by (apply valid_dateb_iff; reflexivity).
  destruct (Z.le_gt_cases (toordinal d) (toordinal (mkdt 9999 12 31)))
    as [H|H]; [exact H|].
  apply (datetime_gtb_iff d _ Hv Vm) in H.
  destruct Hv as (Hy & Hm & Hd).
  pose proof (days_in_month_bounds (year d) (month d)).
  unfold datetime_gtb in H. cbn [year month day] in H.
  rewrite !orb_true_iff, !andb_true_iff, !Z.ltb_lt, !Z.eqb_eq in H. lia.
Qed.

Lemma days_loop_past (fuel : nat) (de cur : datetime) (acc : list string) :
  datetime_leb cur de = false ->
  days_loop fuel de cur acc = Some (Ok acc).
Proof. intro H. destruct fuel; cbn [days_loop]; now rewrite H. Qed.

Lemma days_loop_ok (de : datetime) :
  valid_date de -> de <> mkdt 9999 12 31 ->
  forall (k : nat) (cur : datetime) (acc : list string) (fuel : nat),
    valid_date cur ->
    Z.of_nat k = toordinal de - toordinal cur + 1 ->
    (k <= fuel)%nat ->
    exists days,
      days_loop fuel de cur acc = Some (Ok (acc ++ map strftime days))
      /\ chronological days
      /\ forall d, In d days <->
           valid_date d /\ is_trading_day d = true
           /\ toordinal cur <= toordinal d <= toordinal de.
Proof.
  intros Hde Hmax. induction k as [|k IH]; intros cur acc fuel Hv Hk Hf.
  - exists []. rewrite app_nil_r. split.
    + apply days_loop_past.
      destruct (datetime_leb cur de) eqn:E; [|reflexivity].
      apply (datetime_leb_iff cur de Hv Hde) in E. lia.
    + split; [constructor|]. intro d. split; [intros []|]. intros (_ & _ & H). lia.
  - destruct fuel as [|fuel]; [lia|]. cbn [days_loop].
    assert (El : datetime_leb cur de = true)
      by (apply (datetime_leb_iff cur de Hv Hde); lia).
    rewrite El.
    destruct (add_one_day cur) as [cur'|e] eqn:Ea.
    2:{ exfalso. apply (add_one_day_raises cur e Hv) in Ea as [-> _].
        pose proof (last_day_greatest de Hde).
        apply Hmax. apply toordinal_inj; [exact Hde | exact Hv | lia]. }
    destruct (toordinal_add_one_day cur cur' Hv Ea) as [Hv' Ho'].
    destruct (IH cur'
                (if is_trading_day cur then acc ++ [strftime cur] else acc)
                fuel Hv' ltac:(lia) ltac:(lia))
      as (days & Hloop & Hsorted & Hin).
    rewrite Hloop.
    destruct (is_trading_day cur) eqn:Et.
    + exists (cur :: days). split; [cbn [map]; now rewrite <- app_assoc|].
      split.
      * constructor; [exact Hsorted|]. apply Forall_forall. intros d Hd.
        apply Hin in Hd as (Hvd & _ & Hod).
        apply (datetime_gtb_iff d cur Hvd Hv). lia.
      * intro d. cbn [In]. rewrite Hin. split.
        -- intros [<-|(Hvd & Htd & Hod)];
             [refine (conj Hv (conj Et _)); lia
             | refine (conj Hvd (conj Htd _)); lia].
        -- intros (Hvd & Htd & Hod).
           destruct (Z.eq_dec (toordinal d) (toordinal cur)) as [E|E].
           ++ left. symmetry. now apply toordinal_inj.
           ++ right. refine (conj Hvd (conj Htd _)). lia.
    + exists days. split; [reflexivity|]. split; [exact Hsorted|].
      intro d. rewrite Hin. split.
      * intros (Hvd & Htd & Hod). refine (conj Hvd (conj Htd _)). lia.
      * intros (Hvd & Htd & Hod).
        destruct (Z.eq_dec (toordinal d) (toordinal cur)) as [E|E].
        -- rewrite (toordinal_inj d cur Hvd Hv E) in Htd. congruence.
        -- refine (conj Hvd (conj Htd _)). lia.
Qed.

Lemma days_loop_overflow :
  forall (k : nat) (cur : datetime) (acc : list string) (fuel : nat),
    valid_date cur ->
    Z.of_nat k = toordinal (mkdt 9999 12 31) - toordinal cur ->
    (k < fuel)%nat ->
    days_loop fuel (mkdt 9999 12 31) cur acc = Some (Raise OverflowError).
Proof.
  assert (Vm : valid_date (mkdt 9999 12 31))
    by (apply valid_dateb_iff; reflexivity).
  induction k as [|k IH]; intros cur acc fuel Hv Hk Hf;
    (destruct fuel as [|fuel]; [lia|]); cbn [days_loop];
    (assert (El : datetime_leb cur (mkdt 9999 12 31) = true)
       by (apply (datetime_leb_iff cur _ Hv Vm); lia));
    rewrite El.
  - assert (E : cur = mkdt 9999 12 31) by (apply toordinal_inj; [assumption..|lia]).
    rewrite E. reflexivity.
  - destruct (add_one_day cur) as [cur'|e] eqn:Ea.
    + destruct (toordinal_add_one_day cur cur' Hv Ea) as [Hv' Ho'].
      apply IH; [exact Hv' | lia | lia].
    + apply (add_one_day_raises cur e Hv) in Ea as [_ ->]. reflexivity.
Qed.

(** X16.  For two parseable dates with an end before 9999-12-31,
    [get_trading_days_between] returns, in chronological order, the
    formatted dates of exactly the trading days from the start to the end,
    both included; the list is empty when the start is after the end.
    The loop always ends within the bound given to it. *)
Theorem trading_days_between_spec (s e : string) (ds de : datetime) :
  strptime s = Ok ds -> strptime e = Ok de -> de <> mkdt 9999 12 31 ->
  exists days,
    get_trading_days_between s e = Some (Ok (map strftime days))
    /\ chronological days
    /\ (forall d, In d days <->
          valid_date d /\ is_trading_day d = true
          /\ datetime_leb ds d = true /\ datetime_leb d de = true)
    /\ (datetime_gtb ds de = true -> days = []).
Proof.
  intros Hs He Hmax.
  pose proof (strptime_valid s ds Hs) as Vs.
  pose proof (strptime_valid e de He) as Ve.
  unfold get_trading_days_between. rewrite Hs, He.
  destruct (Z.le_gt_cases (toordinal ds) (toordinal de)) as [Hle|Hgt].
  - destruct (days_loop_ok de Ve Hmax
                (Z.to_nat (toordinal de - toordinal ds + 1)) ds []
                (Z.to_nat (toordinal de - toordinal ds + 1)) Vs
                ltac:(lia) ltac:(lia))
      as (days & Hloop & Hsorted & Hin).
    exists days. split; [exact Hloop|]. split; [exact Hsorted|]. split.
    + intro d. rewrite Hin. split.
      * intros (Hvd & Htd & Hod). refine (conj Hvd (conj Htd _)).
        split; [apply (datetime_leb_iff ds d Vs Hvd)
               | apply (datetime_leb_iff d de Hvd Ve)]; lia.
      * intros (Hvd & Htd & H1 & H2). refine (conj Hvd (conj Htd _)).
        apply (datetime_leb_iff ds d Vs Hvd) in H1.
        apply (datetime_leb_iff d de Hvd Ve) in H2. lia.
    + intro G. apply (datetime_gtb_iff ds de Vs Ve) in G. lia.
  - exists []. split.
    + apply days_loop_past.
      destruct (datetime_leb ds de) eqn:E; [|reflexivity].
      apply (datetime_leb_iff ds de Vs Ve) in E. lia.
    + split; [constructor|]. split; [|reflexivity].
      intro d. split; [intros []|]. intros (Hvd & _ & H1 & H2).
      apply (datetime_leb_iff ds d Vs Hvd) in H1.
      apply (datetime_leb_iff d de Hvd Ve) in H2. lia.
Qed.

(** X17.  When the end date is 9999-12-31 and the start date parses, the
    enumeration never returns: after the last day the step
    [current += timedelta(days=1)] raises OverflowError. *)
Theorem trading_days_between_overflow (s e : string) (ds : datetime) :
  strptime s = Ok ds -> strptime e = Ok (mkdt 9999 12 31) ->
  get_trading_days_between s e = Some (Raise OverflowError).
Proof.
  intros Hs He. pose proof (strptime_valid s ds Hs) as Vs.
  pose proof (last_day_greatest ds Vs) as Hle.
  unfold get_trading_days_between. rewrite Hs, He.
  apply (days_loop_overflow
           (Z.to_nat (toordinal (mkdt 9999 12 31) - toordinal ds)));
    [exact Vs | lia | lia].
Qed.

Lemma previous_trading_day_monotone (d1 d2 p1 p2 : datetime) :
  valid_date d1 -> valid_date d2 -> toordinal d1 <= toordinal d2 ->
  get_previous_trading_day d1 = Ok p1 -> get_previous_trading_day d2 = Ok p2 ->
  valid_date p1 /\ valid_date p2 /\ toordinal p1 <= toordinal p2.
Proof.
  intros V1 V2 Hle E1 E2.
  destruct (previous_trading_day_found d1 p1 V1 E1) as (Vp1 & T1 & O1 & _).
  destruct (previous_trading_day_found d2 p2 V2 E2) as (Vp2 & _ & O2 & F2).
  split; [exact Vp1|]. split; [exact Vp2|].
  destruct (Z.le_gt_cases (toordinal p1) (toordinal p2)) as [H|H]; [exact H|].
  rewrite (F2 p1 Vp1) in T1 by lia. discriminate.
Qed.

(** X18.  The Fetch Day is monotone in the Execute Day: a later Execute
    Day never gives an earlier Fetch Day.  The two returned strings are the
    formatted forms of two dates in that order, and when the earlier one is
    of year 1000 or later both strings parse back to those dates. *)
Theorem fetch_day_monotone (s1 s2 : string) (d1 d2 : datetime)
    (f1 f2 : string) :
  strptime s1 = Ok d1 -> strptime s2 = Ok d2 ->
  datetime_leb d1 d2 = true ->
  calculate_fetch_day s1 = Ok f1 -> calculate_fetch_day s2 = Ok f2 ->
  exists fd1 fd2,
    f1 = strftime fd1 /\ f2 = strftime fd2
    /\ valid_date fd1 /\ valid_date fd2
    /\ datetime_leb fd1 fd2 = true
    /\ (1000 <= year fd1 -> strptime f1 = Ok fd1 /\ strptime f2 = Ok fd2).
Proof.
  intros H1 H2 Hle C1 C2.
  pose proof (strptime_valid s1 d1 H1) as V1.
  pose proof (strptime_valid s2 d2 H2) as V2.
  apply (datetime_leb_iff d1 d2 V1 V2) in Hle.
  unfold calculate_fetch_day in C1, C2. rewrite H1 in C1. rewrite H2 in C2.
  cbn [bind back_loop] in C1, C2.
  apply bind_Ok in C1 as (fd1 & B1 & C1). injection C1 as <-.
  apply bind_Ok in C2 as (fd2 & B2 & C2). injection C2 as <-.
  apply bind_Ok in B1 as (a1 & A1 & B1). apply bind_Ok in B1 as (b1 & B1 & R1).
  apply bind_Ok in B2 as (a2 & A2 & B2). apply bind_Ok in B2 as (b2 & B2 & R2).
  injection R1 as <-. injection R2 as <-.
  destruct (previous_trading_day_monotone d1 d2 a1 a2 V1 V2 Hle A1 A2)
    as (Va1 & Va2 & Ha).
  destruct (previous_trading_day_monotone a1 a2 b1 b2 Va1 Va2 Ha B1 B2)
    as (Vb1 & Vb2 & Hb).
  assert (L : datetime_leb b1 b2 = true)
    by now apply (datetime_leb_iff b1 b2 Vb1 Vb2).
  exists b1, b2.
  refine (conj eq_refl (conj eq_refl (conj Vb1 (conj Vb2 (conj L _))))).
  intro Hy.
  assert (Hy2 : 1000 <= year b2).
  { unfold datetime_leb, datetime_gtb in L.
    apply negb_true_iff, orb_false_iff in L as [L _].
    apply Z.ltb_ge in L. lia. }
  split; now apply strptime_strftime.
Qed.

(** ** Instances *)

Lemma valid_2026_01_30 : valid_date (mkdt 2026 1 30).
Proof. apply valid_dateb_iff. reflexivity. Qed.

Lemma is_trading_day_weekday_witness :
  is_trading_day (mkdt 2025 2 1) = false
  /\ (is_trading_day (mkdt 2025 2 3) = true <-> weekday (mkdt 2025 2 3) < 5).
Proof.
  assert (V1 : valid_date (mkdt 2025 2 1)) by (apply valid_dateb_iff; reflexivity).
  assert (V3 : valid_date (mkdt 2025 2 3)) by (apply valid_dateb_iff; reflexivity).
  split.
  - apply (proj1 (is_trading_day_weekday (mkdt 2025 2 1) V1)).
    vm_compute. discriminate.
  - apply (proj2 (is_trading_day_weekday (mkdt 2025 2 3) V3)).
    cbn [year]. discriminate.
Defined.

Lemma previous_trading_day_spec_witness :
  exists p,
    get_previous_trading_day (mkdt 2026 1 30) = Ok p
    /\ is_trading_day p = true.
Proof.
  destruct (previous_trading_day_spec (mkdt 2026 1 30) valid_2026_01_30)
    as [[E _]|(p & Hp & _ & Ht & _)].
  - discriminate E.
  - exists p. exact (conj Hp Ht).
Defined.

Lemma calculate_fetch_day_spec_witness :
  exists fd,
    calculate_fetch_day "2026-01-30" = Ok (strftime fd)
    /\ is_trading_day fd = true.
Proof.
  destruct (calculate_fetch_day_spec "2026-01-30" (mkdt 2026 1 30) eq_refl)
    as [[H _]|(_ & fd & Hc & _ & Ht & _)].
  - vm_compute in H. exfalso. apply H. reflexivity.
  - exists fd. exact (conj Hc Ht).
Defined.

Lemma validate_execute_day_shape_witness :
  exists f fd,
    strptime f = Ok fd /\ is_trading_day fd = true
    /\ datetime_gtb fd (mkdt 2026 11 3) = false.
Proof.
  destruct (validate_execute_day_shape (mkdt 2026 11 3) "2026-01-30"
              true (Some "2026-01-28") None)
    as [(_ & _ & f & d & fd & _ & _ & Hf & Ht & Hg & _)|(H & _)].
  - vm_compute. reflexivity.
  - exists f, fd. exact (conj Hf (conj Ht Hg)).
  - discriminate H.
Defined.

Lemma trading_days_between_spec_witness :
  exists days,
    get_trading_days_between "2026-01-23" "2026-01-30"
    = Some (Ok (map strftime days))
    /\ chronological days.
Proof.
  destruct (trading_days_between_spec "2026-01-23" "2026-01-30"
              (mkdt 2026 1 23) (mkdt 2026 1 30) eq_refl eq_refl)
    as (days & H & Hs & _).
  - discriminate.
  - exists days. exact (conj H Hs).
Defined.

Lemma trading_days_between_overflow_witness :
  get_trading_days_between "9999-12-24" "9999-12-31"
  = Some (Raise OverflowError).
Proof.
  apply (trading_days_between_overflow "9999-12-24" "9999-12-31"
           (mkdt 9999 12 24)); reflexivity.
Defined.

Lemma fetch_day_monotone_witness :
  exists fd1 fd2,
    "2026-01-22" = strftime fd1 /\ "2026-01-28" = strftime fd2
    /\ datetime_leb fd1 fd2 = true.
Proof.
  destruct (fetch_day_monotone "2026-01-27" "2026-01-30"
              (mkdt 2026 1 27) (mkdt 2026 1 30) "2026-01-22" "2026-01-28")
    as (fd1 & fd2 & E1 & E2 & _ & _ & L & _);
    try (vm_compute; reflexivity).
  exists fd1, fd2. exact (conj E1 (conj E2 L)).
Defined.

End DateExtras.
